(** * create_tfrecords: annotation validation and sharding

    A shallow embedding of [data/create_tfrecords.py], read as Python 3
    ([/] is true division, [math.ceil] returns an [int]).

    - A Python [float] is modelled by the rational number it denotes
      ([Qc], the canonical rationals, whose equality is Leibniz equality).
      The division of two floats is the exact quotient rounded to the
      nearest binary64 number, ties to even, with gradual underflow below
      2^-1022 ([fdiv]); comparisons are exact, as they are on floats. The
      script divides by image dimensions that it has checked to be positive
      integers, so that a quotient is never larger than its dividend:
      overflow cannot happen and is not represented, nor are NaN and the
      infinities; the two zeros are one. An image dimension converts to a
      float without rounding (it is below 2^53).
    - The quotient [num_examples/num_shards] of line 140 is only used
      through [math.ceil]; it is the exact one.
    - Python [int] values are [Z]; the two loop counters of [main], which
      start at 0 and only grow, are [nat].
    - An annotation is a record of the fields the script reads, with
      integers for the sizes and floats for the coordinates, so that
      [int(...)] and [float(...)] are the identity on them.
    - The file system is a finite map from path strings to nodes, together
      with a trace of the file operations performed so far. A file or
      directory is known by the string it is addressed with, and a path lies
      below a directory when it extends [os.path.join(d, '')]: two strings
      that name the same file ([out] and [./out], a link) are not
      identified. [plain_path] singles out the paths written in the one
      normal form on which these strings behave like the files they name.
      [os.mkdir] finds the parent of its directory in place. Writes reach
      the file at once: the buffering of the record writer is not
      represented.
    - Code that touches files lives in a state-and-exception monad over
      that world.
    - The functions of the libraries the script calls ([json.load],
      [PIL.Image.open], [SerializeToString]) are variables of the section;
      [random.shuffle] is its algorithm over a given sequence of draws.
    - [make_args], the progress bar and the [print] calls are left out:
      [main] takes the parsed arguments.
*)

From Stdlib Require Import Ascii DecimalString DecimalNat QArith Qcanon Qround Qpower Lqa.
From stdpp Require Import gmap strings list numbers.

Local Open Scope string_scope.
Local Open Scope Z_scope.

Abbreviation bytes := (list Byte.byte).

(** ** Exceptions *)

(** The exceptions the script can raise. An [AssertionError] carries the
    source line of the [assert] statement that failed, as the traceback
    does. *)
Inductive exn : Type :=
  | AssertionError (lineno : nat)
  | NotFoundError            (* tf.errors: GFile read of a missing path *)
  | FailedPreconditionError  (* tf.errors: GFile read of a directory *)
  | FileNotFoundError        (* open, os.listdir on a missing path *)
  | IsADirectoryError        (* open on a directory *)
  | NotADirectoryError       (* os.listdir on a regular file *)
  | FileExistsError          (* os.mkdir on an existing path *)
  | ValueError               (* unpacking a landmark that is not a pair *)
  | ZeroDivisionError
  | UnboundLocalError
  | LibraryError (msg : string). (* raised inside json or PIL *)

Inductive result (A : Type) : Type :=
  | Ok (a : A)
  | Raise (e : exn).
Arguments Ok {A} a.
Arguments Raise {A} e.

Global Instance exn_eq_dec : EqDecision exn.
Proof. solve_decision. Defined.

(** ** The world: files and the trace of file operations *)

Inductive node : Type :=
  | Dir
  | File (chunks : list bytes).

Inductive event : Type :=
  | EListdir (path : string)
  | ERmtree (path : string)
  | EMkdir (path : string)
  | EOpen (path : string)        (* open(path), read through json.load *)
  | ERead (path : string)        (* GFile(path).read() *)
  | EOpenWriter (path : string)
  | EWrite (path : string) (record : bytes)
  | ECloseWriter (path : string).

Record world : Type := World {
  fs : gmap string node;
  trace : list event
}.

(** State and exception monad: an exception keeps the world reached so far. *)
Definition M (A : Type) : Type := world → result A * world.

Definition ret {A} (a : A) : M A := λ w, (Ok a, w).
Definition raise {A} (e : exn) : M A := λ w, (Raise e, w).
Definition bind {A B} (m : M A) (k : A → M B) : M B :=
  λ w, match m w with
       | (Ok a, w') => k a w'
       | (Raise e, w') => (Raise e, w')
       end.
Definition lift {A} (r : result A) : M A := λ w, (r, w).

Declare Scope py_scope.
Delimit Scope py_scope with py.
Notation "x <- c1 ;; c2" := (bind c1 (λ x, c2))
  (at level 100, c1 at next level, right associativity) : py_scope.
Notation "c1 ;;; c2" := (bind c1 (λ _, c2))
  (at level 100, right associativity) : py_scope.

(** [assert cond] on source line [lineno]. *)
Definition assert_ (lineno : nat) (cond : bool) : M unit :=
  if cond then ret () else raise (AssertionError lineno).

(** ** Strings and paths *)

(** [s.endswith(suffix)] *)
Definition endswith (s suffix : string) : bool :=
  let n := String.length s in
  let k := String.length suffix in
  (k <=? n)%nat && String.eqb (String.substring (n - k) k s) suffix.

(** [os.path.join(a, p)] of posixpath, for two components. *)
Definition os_path_join (a p : string) : string :=
  if String.prefix "/" p then p
  else if String.eqb a EmptyString || endswith a "/" then a ++ p
  else a ++ "/" ++ p.

(** The prefix shared by the paths of everything below directory [d]:
    [os.path.join(d, '')]. *)
Definition dir_prefix (d : string) : string := os_path_join d EmptyString.

Fixpoint strip_prefix (p s : string) : option string :=
  match p, s with
  | EmptyString, _ => Some s
  | String a p', String b s' => if Ascii.eqb a b then strip_prefix p' s' else None
  | String _ _, EmptyString => None
  end.

(** [k] lies below directory [d]. *)
Definition inside (d k : string) : bool :=
  match strip_prefix (dir_prefix d) k with
  | Some rest => negb (String.eqb rest EmptyString)
  | None => false
  end.

(** ['%04d' % n] for a natural number: decimal digits, padded with zeros
    on the left up to four characters. *)
Definition str_of_nat (n : nat) : string := NilZero.string_of_uint (Nat.to_uint n).

Fixpoint zeros (k : nat) : string :=
  match k with
  | O => EmptyString
  | S k' => String ("0")%char (zeros k')
  end.

Definition format_04d (n : nat) : string :=
  let s := str_of_nat n in
  zeros (4 - String.length s) ++ s.

(** ** Annotations, images, examples *)

Record Box : Type := {
  box_xmin : Qc; box_ymin : Qc; box_xmax : Qc; box_ymax : Qc
}.

Record Size : Type := {
  size_width : Z; size_height : Z; size_depth : Z
}.

(** A parsed annotation: [annotation['filename']], [annotation['box']],
    [annotation['landmarks']] (a JSON array of JSON arrays of numbers, each
    of which the loop unpacks as [x, y]), [annotation['size']]. *)
Record Annotation : Type := {
  ann_filename : string;
  ann_box : Box;
  ann_landmarks : list (list Qc);
  ann_size : Size
}.

(** What the script reads off a [PIL.Image]: [image.format], [image.mode],
    [image.size]. *)
Record PILImage : Type := {
  im_format : string;
  im_mode : string;
  im_size : Z * Z
}.

(** [tf.train.Feature] with a [bytes_list] or a [float_list]: the values
    given to its constructor. The single precision in which a protocol
    buffer keeps a [float_list] is not represented. *)
Inductive Feature : Type :=
  | BytesList (value : list bytes)
  | FloatList (value : list Qc).

Definition _bytes_feature (value : bytes) : Feature := BytesList [value].
Definition _float_list_feature (value : list Qc) : Feature := FloatList value.
Definition _float_feature (value : Qc) : Feature := FloatList [value].

(** [tf.train.Example]: the dictionary of its features. *)
Abbreviation Example := (gmap string Feature).

(** ** Floats *)

Definition pow2 (e : Z) : Q := (2 ^ e)%Q.

(** floor(log2 q), for a positive [q]. *)
Definition Qlog2 (q : Q) : Z :=
  let e := Z.log2 (Qnum q) - Z.log2 (Zpos (Qden q)) in
  if Qle_bool (pow2 e) q then e else e - 1.

(** Rounding to the nearest integer, ties to the even one. *)
Definition round_half_even (q : Q) : Z :=
  let f := Qfloor q in
  match Qcompare (q - inject_Z f)%Q (1 # 2)%Q with
  | Lt => f
  | Gt => f + 1
  | Eq => if Z.even f then f else f + 1
  end.

(** binary64: 53 bits of precision, least exponent -1074. The exponent of
    the last bit of the numbers as large as a positive [q]. *)
Definition binary64_exponent (q : Q) : Z := Z.max (Qlog2 q - 52) (-1074).

(** Rounding to the multiples of 2^e. *)
Definition round_to (e : Z) (q : Q) : Q :=
  (inject_Z (round_half_even (q / pow2 e)) * pow2 e)%Q.

Definition round_binary64 (q : Q) : Q := round_to (binary64_exponent q) q.

(** The binary64 number nearest to a rational, ties to even. *)
Definition fl (x : Qc) : Qc :=
  match Qcompare (this x) 0%Q with
  | Eq => Q2Qc 0%Q
  | Gt => Q2Qc (round_binary64 (this x))
  | Lt => Q2Qc (- round_binary64 (- this x))%Q
  end.

(** [x / y] on floats. *)
Definition fdiv (x y : Qc) : Qc := fl (x / y)%Qc.

(** The float that a decimal numeral denotes. *)
Definition float_of_decimal (q : Q) : Qc := fl (Q2Qc q).

(** Comparisons of floats, as booleans. *)
Definition flt (x y : Qc) : bool := bool_decide (x < y)%Qc.
Definition fle (x y : Qc) : bool := bool_decide (x ≤ y)%Qc.

(** ** File operations *)

Definition log (e : event) : M unit :=
  λ w, (Ok (), World (fs w) (trace w ++ [e])).

(** [tf.gfile.GFile(path, 'rb').read()] and [open(path).read()] differ in the
    exceptions they raise only. *)
Definition gfile_read (path : string) : M bytes :=
  (log (ERead path) ;;;
   λ w, match fs w !! path with
        | Some (File chunks) => (Ok (concat chunks), w)
        | Some Dir => (Raise FailedPreconditionError, w)
        | None => (Raise NotFoundError, w)
        end)%py.

Definition open_read (path : string) : M bytes :=
  (log (EOpen path) ;;;
   λ w, match fs w !! path with
        | Some (File chunks) => (Ok (concat chunks), w)
        | Some Dir => (Raise IsADirectoryError, w)
        | None => (Raise FileNotFoundError, w)
        end)%py.

(** ** The writer and the directory operations *)

(** [tf.python_io.TFRecordWriter(path)]: creates the file, empty. *)
Definition TFRecordWriter (path : string) : M unit :=
  (log (EOpenWriter path) ;;;
   λ w, (Ok (), World (<[path := File []]> (fs w)) (trace w)))%py.

Definition file_chunks (n : option node) : list bytes :=
  match n with
  | Some (File chunks) => chunks
  | _ => []
  end.

(** [writer.write(record)]: appends one record to the writer's file. A
    name that was never bound raises. *)
Definition writer_write (writer : option string) (record : bytes) : M unit :=
  match writer with
  | None => raise UnboundLocalError
  | Some path =>
      (log (EWrite path record) ;;;
       λ w, (Ok (), World (<[path := File (file_chunks (fs w !! path) ++ [record])]> (fs w))
                          (trace w)))%py
  end.

(** [writer.close()] *)
Definition writer_close (writer : option string) : M unit :=
  match writer with
  | None => raise UnboundLocalError
  | Some path => log (ECloseWriter path)
  end.

Fixpoint has_slash (s : string) : bool :=
  match s with
  | EmptyString => false
  | String c s' => Ascii.eqb c ("/")%char || has_slash s'
  end.

(** The name of [k] as an entry of directory [d], when it is one. *)
Definition entry_name (d k : string) : option string :=
  match strip_prefix (dir_prefix d) k with
  | Some name =>
      if negb (String.eqb name EmptyString) && negb (has_slash name)
      then Some name else None
  | None => None
  end.

(** [os.listdir(d)] *)
Definition os_listdir (d : string) : M (list string) :=
  (log (EListdir d) ;;;
   λ w, match fs w !! d with
        | Some Dir => (Ok (omap (entry_name d) (map_to_list (fs w)).*1), w)
        | Some (File _) => (Raise NotADirectoryError, w)
        | None => (Raise FileNotFoundError, w)
        end)%py.

(** The files left when the tree at [d] is removed: a directory goes with
    everything below it; anything else is left as it is. *)
Definition removed_tree (d : string) (f : gmap string node) : gmap string node :=
  match f !! d with
  | Some Dir => filter (λ kv, kv.1 ≠ d ∧ inside d kv.1 = false) f
  | _ => f
  end.

(** [shutil.rmtree(d, ignore_errors=True)]: on anything that is not a
    directory the error is ignored and nothing changes. *)
Definition shutil_rmtree (d : string) : M unit :=
  (log (ERmtree d) ;;;
   λ w, (Ok (), World (removed_tree d (fs w)) (trace w)))%py.

(** [os.mkdir(d)]; the parent directory is taken to exist. *)
Definition os_mkdir (d : string) : M unit :=
  (log (EMkdir d) ;;;
   λ w, match fs w !! d with
        | Some _ => (Raise FileExistsError, w)
        | None => (Ok (), World (<[d := Dir]> (fs w)) (trace w))
        end)%py.

(** ** random.shuffle *)

(** [x[i], x[j] = x[j], x[i]] *)
Definition swap {A} (x : list A) (i j : nat) : list A :=
  match x !! i, x !! j with
  | Some a, Some b => <[j := a]> (<[i := b]> x)
  | _, _ => x
  end.

(** [for i in reversed(range(1, len(x))): j = randbelow(i + 1); swap].
    [rnd i] is the raw draw used at position [i]. *)
Fixpoint shuffle_from {A} (rnd : nat → nat) (i : nat) (x : list A) : list A :=
  match i with
  | O => x
  | S i' => shuffle_from rnd i' (swap x i (rnd i mod (i + 1))%nat)
  end.

Definition random_shuffle {A} (rnd : nat → nat) (x : list A) : list A :=
  shuffle_from rnd (length x - 1) x.


(** [math.ceil] *)
Definition math_ceil (x : Qc) : Z := Qceiling (this x).

(** ** The script *)

Section Script.

(** Library functions. *)
Variable json_load : bytes → result Annotation.
Variable PIL_Image_open : bytes → result PILImage.
Variable SerializeToString : Example → bytes.

(** The loop over [annotation['landmarks']] (lines 96-101);
    [landmarks_flattened] is the accumulator. A landmark that does not
    unpack into [x, y] raises. *)
Fixpoint landmarks_loop (width height : Z) (xmin xmax ymin ymax : Qc)
    (landmarks : list (list Qc)) (landmarks_flattened : list Qc)
    : result (list Qc) :=
  match landmarks with
  | [] => Ok landmarks_flattened
  | [x; y] :: rest =>
      let y := fdiv y (Qc_of_Z height) in
      let x := fdiv x (Qc_of_Z width) in
      if negb (fle y ymax && fle ymin y) then Raise (AssertionError 99)
      else if negb (fle x xmax && fle xmin x) then Raise (AssertionError 100)
      else landmarks_loop width height xmin xmax ymin ymax rest
             (landmarks_flattened ++ [y; x])
  | _ :: _ => Raise ValueError
  end.

(** Lines 58-111. *)
Definition dict_to_tf_example (annotation : Annotation) (image_dir : string)
    : M Example :=
  (let image_name := ann_filename annotation in
   assert_ 71 (endswith image_name ".jpg" || endswith image_name ".jpeg") ;;;
   let image_path := os_path_join image_dir image_name in
   encoded_jpg <- gfile_read image_path ;;
   image <- lift (PIL_Image_open encoded_jpg) ;;
   assert_ 80 (String.eqb (im_format image) "JPEG") ;;;
   assert_ 81 (String.eqb (im_mode image) "RGB") ;;;
   let width := size_width (ann_size annotation) in
   let height := size_height (ann_size annotation) in
   assert_ 85 ((0 <? width) && (0 <? height)) ;;;
   assert_ 86 ((fst (im_size image) =? width) && (snd (im_size image) =? height)) ;;;
   let ymin := fdiv (box_ymin (ann_box annotation)) (Qc_of_Z height) in
   let xmin := fdiv (box_xmin (ann_box annotation)) (Qc_of_Z width) in
   let ymax := fdiv (box_ymax (ann_box annotation)) (Qc_of_Z height) in
   let xmax := fdiv (box_xmax (ann_box annotation)) (Qc_of_Z width) in
   assert_ 92 (flt ymin ymax && flt xmin xmax) ;;;
   landmarks_flattened <-
     lift (landmarks_loop width height xmin xmax ymin ymax
             (ann_landmarks annotation) []) ;;
   ret (<["image" := _bytes_feature encoded_jpg]>
        (<["xmin" := _float_feature xmin]>
        (<["xmax" := _float_feature xmax]>
        (<["ymin" := _float_feature ymin]>
        (<["ymax" := _float_feature ymax]>
        (<["landmarks" := _float_list_feature landmarks_flattened]> ∅)))))))%py.

(** The parsed command line. *)
Record Args : Type := {
  image_dir : string;
  annotations_dir : string;
  output : string;
  num_shards : Z
}.

(** The variables the loop of [main] assigns to. *)
Record loop_vars : Type := LoopVars {
  shard_id : nat;
  num_examples_written : nat;
  writer : option string
}.

(** ['shard-%04d.tfrecords' % shard_id] *)
Definition shard_name (shard_id : nat) : string :=
  "shard-" ++ format_04d shard_id ++ ".tfrecords".

(** Lines 151-164: one iteration of [for example in examples_list]. *)
Definition loop_body (ARGS : Args) (shard_size : Z) (example : string)
    (v : loop_vars) : M loop_vars :=
  (writer <-
     (if (num_examples_written v =? 0)%nat then
        let shard_path := os_path_join (output ARGS) (shard_name (shard_id v)) in
        TFRecordWriter shard_path ;;; ret (Some shard_path)
      else ret (writer v)) ;;
   let path := os_path_join (annotations_dir ARGS) example in
   data <- open_read path ;;
   annotation <- lift (json_load data) ;;
   tf_example <- dict_to_tf_example annotation (image_dir ARGS) ;;
   writer_write writer (SerializeToString tf_example) ;;;
   let num_examples_written := (num_examples_written v + 1)%nat in
   if Z.of_nat num_examples_written =? shard_size then
     writer_close writer ;;;
     ret (LoopVars (shard_id v + 1) 0 writer)
   else ret (LoopVars (shard_id v) num_examples_written writer))%py.

(** [for x in l: body], threading the variables the body assigns to. *)
Fixpoint for_loop {A S} (body : A → S → M S) (l : list A) (s : S) : M S :=
  match l with
  | [] => ret s
  | x :: l' => (s' <- body x s ;; for_loop body l' s')%py
  end.

(** Lines 126-169; [rnd] gives the draws of the shuffle. *)
Definition main (ARGS : Args) (rnd : nat → nat) : M unit :=
  (examples_list <- os_listdir (annotations_dir ARGS) ;;
   let examples_list := random_shuffle rnd examples_list in
   let num_examples := Z.of_nat (length examples_list) in
   shard_size <-
     (if num_shards ARGS =? 0 then raise ZeroDivisionError
      else ret (math_ceil (Qc_of_Z num_examples / Qc_of_Z (num_shards ARGS))%Qc)) ;;
   shutil_rmtree (output ARGS) ;;;
   os_mkdir (output ARGS) ;;;
   v <- for_loop (loop_body ARGS shard_size) examples_list (LoopVars 0 0 None) ;;
   if negb (num_examples_written v =? 0)%nat then writer_close (writer v)
   else ret ())%py.

End Script.

(** Lines 134-145 of [main], everything before the loop: the listing, the
    shuffle, the capacity, the reset of the output directory. Yields
    [examples_list] and [shard_size]. *)
Definition main_setup (ARGS : Args) (rnd : nat → nat) : M (list string * Z) :=
  (examples_list <- os_listdir (annotations_dir ARGS) ;;
   let examples_list := random_shuffle rnd examples_list in
   let num_examples := Z.of_nat (length examples_list) in
   shard_size <-
     (if num_shards ARGS =? 0 then raise ZeroDivisionError
      else ret (math_ceil (Qc_of_Z num_examples / Qc_of_Z (num_shards ARGS))%Qc)) ;;
   shutil_rmtree (output ARGS) ;;;
   os_mkdir (output ARGS) ;;;
   ret (examples_list, shard_size))%py.

(** Lines 166-167 of [main]. *)
Definition main_finish (v : loop_vars) : M unit :=
  if negb (num_examples_written v =? 0)%nat then writer_close (writer v)
  else ret ().

Global Arguments fl : simpl never.
Global Arguments fdiv : simpl never.
Global Arguments os_path_join : simpl never.
Global Arguments endswith : simpl never.
Global Arguments flt : simpl never.
Global Arguments fle : simpl never.
Global Arguments format_04d : simpl never.
Global Arguments shard_name : simpl never.
Global Arguments inside : simpl never.

(** ** Vocabulary of the statements *)

(** A pixel coordinate divided by an image dimension. *)
Definition norm (v : Qc) (d : Z) : Qc := fdiv v (Qc_of_Z d).

Definition width_of (a : Annotation) : Z := size_width (ann_size a).
Definition height_of (a : Annotation) : Z := size_height (ann_size a).
Definition xmin_of (a : Annotation) : Qc := norm (box_xmin (ann_box a)) (width_of a).
Definition xmax_of (a : Annotation) : Qc := norm (box_xmax (ann_box a)) (width_of a).
Definition ymin_of (a : Annotation) : Qc := norm (box_ymin (ann_box a)) (height_of a).
Definition ymax_of (a : Annotation) : Qc := norm (box_ymax (ann_box a)) (height_of a).

Definition image_path (a : Annotation) (dir : string) : string :=
  os_path_join dir (ann_filename a).

(** What one landmark contributes to the flat output: (y, x), normalized. *)
Definition swap_pair (width height : Z) (p : list Qc) : list Qc :=
  match p with
  | [x; y] => [norm y height; norm x width]
  | _ => []
  end.

(** A landmark is a pair and lies in the box, bounds included. *)
Definition landmark_in_box (width height : Z) (xmin xmax ymin ymax : Qc)
    (p : list Qc) : Prop :=
  ∃ x y, p = [x; y] ∧
    (ymin ≤ norm y height ≤ ymax)%Qc ∧ (xmin ≤ norm x width ≤ xmax)%Qc.

Definition make_example (encoded_jpg : bytes) (xmin xmax ymin ymax : Qc)
    (landmarks_flattened : list Qc) : Example :=
  <["image" := _bytes_feature encoded_jpg]>
  (<["xmin" := _float_feature xmin]>
  (<["xmax" := _float_feature xmax]>
  (<["ymin" := _float_feature ymin]>
  (<["ymax" := _float_feature ymax]>
  (<["landmarks" := _float_list_feature landmarks_flattened]> ∅))))).

(** The checks of lines 71-86 pass: extension, read, format, mode, size. *)
Definition image_checks_pass (PIL_Image_open : bytes → result PILImage)
    (a : Annotation) (dir : string) (w : world) (encoded_jpg : bytes) : Prop :=
  (endswith (ann_filename a) ".jpg" || endswith (ann_filename a) ".jpeg") = true ∧
  (∃ chunks, fs w !! image_path a dir = Some (File chunks) ∧
             encoded_jpg = concat chunks) ∧
  (∃ image, PIL_Image_open encoded_jpg = Ok image ∧
            im_format image = "JPEG" ∧ im_mode image = "RGB" ∧
            im_size image = (width_of a, height_of a)) ∧
  0 < width_of a ∧ 0 < height_of a.

(** The world after the image was read. *)
Definition after_read (a : Annotation) (dir : string) (w : world) : world :=
  World (fs w) (trace w ++ [ERead (image_path a dir)]).

(** Lines 88-111, once the image checks have passed. *)
Definition geometry (a : Annotation) (encoded_jpg : bytes) : result Example :=
  if flt (ymin_of a) (ymax_of a) && flt (xmin_of a) (xmax_of a) then
    match landmarks_loop (width_of a) (height_of a) (xmin_of a) (xmax_of a)
            (ymin_of a) (ymax_of a) (ann_landmarks a) [] with
    | Ok lf => Ok (make_example encoded_jpg (xmin_of a) (xmax_of a)
                     (ymin_of a) (ymax_of a) lf)
    | Raise e => Raise e
    end
  else Raise (AssertionError 92).

(** *** Traces and shards *)

(** The records written, in the order of the writes. *)
Definition records_written (tr : list event) : list bytes :=
  omap (λ e, match e with EWrite _ r => Some r | _ => None end) tr.

(** The writes, each with the file it went to. *)
Definition writes (tr : list event) : list (string * bytes) :=
  omap (λ e, match e with EWrite p r => Some (p, r) | _ => None end) tr.

(** The annotation files opened, in the order they were opened. *)
Definition entries_opened (tr : list event) : list string :=
  omap (λ e, match e with EOpen p => Some p | _ => None end) tr.

(** The stream of arrivals: an entry is opened, a record is written. *)
Inductive arrival : Type :=
  | Entry (path : string)
  | Written (shard : string) (record : bytes).

Definition arrivals (tr : list event) : list arrival :=
  omap (λ e, match e with
             | EOpen p => Some (Entry p)
             | EWrite p r => Some (Written p r)
             | _ => None
             end) tr.

(** The writers opened. *)
Definition opened (tr : list event) : list string :=
  omap (λ e, match e with EOpenWriter p => Some p | _ => None end) tr.

(** The part of the trace of [w'] that was added since [w]. *)
Definition trace_since (w w' : world) : list event :=
  drop (length (trace w)) (trace w').

(** The [j]-th run of [cap] consecutive records. *)
Definition chunk {A} (cap j : nat) (recs : list A) : list A :=
  take cap (drop (j * cap) recs).

(** Number of runs of [cap] needed for [n] records: ceil(n / cap). *)
Definition chunks_needed (cap n : nat) : nat := ((n + cap - 1) / cap)%nat.

Definition shard_path (out : string) (j : nat) : string :=
  os_path_join out (shard_name j).

(** The names of the entries of directory [d]. *)
Definition dir_entries (d : string) (w : world) : list string :=
  omap (entry_name d) (map_to_list (fs w)).*1.

(** ceil(n / s) on integers. *)
Definition ceil_div (n s : Z) : Z := (n + s - 1) / s.

(** Reads a decimal numeral back; leading zeros are allowed. *)
Definition parse_nat (s : string) : option nat :=
  Nat.of_uint <$> NilEmpty.uint_of_string s.

(** The arrivals of a run that processed the entries [es] of directory
    [anndir] and wrote the records [recs] with capacity [cap] into [out]:
    entry i is opened, then its record is written to shard i div cap. *)
Definition arrivals_of (anndir out : string) (cap : nat) (es : list string)
    (recs : list bytes) : list arrival :=
  mjoin (imap (λ i er, [Entry (os_path_join anndir er.1);
                        Written (shard_path out (i / cap)) er.2])
              (zip es recs)).

(** What holds between two iterations of the loop of [main]: [done] are
    the entries processed so far, [tr] is the trace since the loop began,
    [fs0] the files when it began, [f] the files now. *)
Record loop_inv (anndir out : string) (cap : nat) (fs0 : gmap string node)
    (done : list string) (tr : list event) (v : loop_vars)
    (f : gmap string node) : Prop := {
  inv_count :
    (shard_id v * cap + num_examples_written v)%nat = length (records_written tr);
  inv_done : length done = length (records_written tr);
  inv_below : (num_examples_written v < cap)%nat;
  inv_writer :
    num_examples_written v ≠ 0%nat → writer v = Some (shard_path out (shard_id v));
  inv_arrivals :
    arrivals tr = arrivals_of anndir out cap done (records_written tr);
  inv_writes :
    writes tr = imap (λ i r, (shard_path out (i / cap), r)) (records_written tr);
  inv_opened :
    opened tr
    = shard_path out <$> seq 0 (chunks_needed cap (length (records_written tr)));
  inv_shards : ∀ j,
    (j * cap < length (records_written tr))%nat →
    f !! shard_path out j = Some (File (chunk cap j (records_written tr)));
  inv_other : ∀ p,
    (∀ j, (j * cap < length (records_written tr))%nat → p ≠ shard_path out j) →
    f !! p = fs0 !! p
}.

(** The sizes of the shards of a run from [w] to [w']: of the files of the
    writers opened during the run, in the order they were opened. *)
Definition shard_sizes (w w' : world) : list nat :=
  (λ p, length (file_chunks (fs w' !! p))) <$> opened (trace_since w w').

(** Nothing lies below a directory that does not exist. *)
Definition absent_is_empty (d : string) (w : world) : Prop :=
  fs w !! d = None → ∀ k, inside d k = true → fs w !! k = None.

(** The world in which the loop body calls the validator for [example]:
    after the writer was opened, if this iteration opens one, and after the
    annotation file was read. *)
Definition before_validation (ARGS : Args) (example : string) (v : loop_vars)
    (w : world) : world :=
  let w1 :=
    if (num_examples_written v =? 0)%nat then
      World (<[shard_path (output ARGS) (shard_id v) := File []]> (fs w))
            (trace w ++ [EOpenWriter (shard_path (output ARGS) (shard_id v))])
    else w in
  World (fs w1) (trace w1 ++ [EOpen (os_path_join (annotations_dir ARGS) example)]).

(** The writers closed. *)
Definition closed (tr : list event) : list string :=
  omap (λ e, match e with ECloseWriter p => Some p | _ => None end) tr.

(** The discipline of the record writers along a trace, started with
    [cur] open: a writer is opened only while none is open, a record goes to
    the writer that is open, and that writer is the one closed. Yields the
    writer left open at the end, or nothing when the trace breaks the
    discipline. *)
Fixpoint protocol (cur : option string) (tr : list event) : option (option string) :=
  match tr with
  | [] => Some cur
  | EOpenWriter p :: tr' =>
      match cur with
      | None => protocol (Some p) tr'
      | Some _ => None
      end
  | EWrite p _ :: tr' =>
      if decide (cur = Some p) then protocol cur tr' else None
  | ECloseWriter p :: tr' =>
      if decide (cur = Some p) then protocol None tr' else None
  | _ :: tr' => protocol cur tr'
  end.

(** The six features of an example. *)
Definition feature_keys : gset string :=
  {["image"; "xmin"; "xmax"; "ymin"; "ymax"; "landmarks"]}.

(** The sizes of the shards when [n] records are cut into runs of [cap]:
    full runs, then what is left over, if anything is. *)
Definition cut_sizes (cap n : nat) : list nat :=
  (replicate (n / cap) cap ++ (if (n mod cap =? 0)%nat then [] else [(n mod cap)%nat]))%list.

(** The state of the writer variable between two iterations, against the
    writer [cur] that is open: none at the start of a shard, the one held
    by the variable inside a shard. *)
Definition writer_state (v : loop_vars) (cur : option string) : Prop :=
  if (num_examples_written v =? 0)%nat then cur = None
  else cur = writer v ∧ is_Some cur.

(** The writer variable holds nothing but a shard of directory [out]. *)
Definition writer_in_output (out : string) (v : loop_vars) : Prop :=
  ∀ q, writer v = Some q → ∃ j, q = shard_path out j.

(** *** Paths in normal form *)

(** The components of a path: what lies between its slashes. [acc] is the
    component being read. *)
Fixpoint components_from (acc : string) (p : string) : list string :=
  match p with
  | EmptyString => [acc]
  | String c p' =>
      if Ascii.eqb c ("/")%char then acc :: components_from EmptyString p'
      else components_from (acc ++ String c EmptyString) p'
  end.

Definition plain_component (c : string) : bool :=
  negb (String.eqb c EmptyString) && negb (String.eqb c ".") && negb (String.eqb c "..").

Definition is_absolute (p : string) : bool := String.prefix "/" p.

(** A path written in normal form: components separated by single
    slashes, after the leading slash of an absolute path, none of them
    empty, [.] or [..]. *)
Definition plain_path (p : string) : bool :=
  match p with
  | EmptyString => false
  | String c p' =>
      forallb plain_component
        (components_from EmptyString (if Ascii.eqb c ("/")%char then p' else p))
  end.

(** [k] is neither directory [out] nor below it, both written in normal
    form and from the same starting point. *)
Definition outside (out k : string) : bool :=
  plain_path out && plain_path k && Bool.eqb (is_absolute k) (is_absolute out) &&
  negb (String.eqb k out) && negb (inside out k).

(** The operations that change files, among those a run on output
    directory [out] may perform: the removal and the creation of [out], and
    the use of a writer on a shard of [out]. *)
Definition on_output (out : string) (e : event) : Prop :=
  match e with
  | ERmtree p | EMkdir p => p = out
  | EOpenWriter p | EWrite p _ | ECloseWriter p => ∃ j, p = shard_path out j
  | EListdir _ | EOpen _ | ERead _ => True
  end.

(** *** Records and entries *)

(** The record that the data set [w] holds for an entry of the
    annotations directory: the serialization of the example that the
    validator builds from the annotation parsed from the entry's file. *)
Definition entry_record (json_load : bytes → result Annotation)
    (PIL_Image_open : bytes → result PILImage) (SerializeToString : Example → bytes)
    (ARGS : Args) (w : world) (example : string) : option bytes :=
  match fs w !! os_path_join (annotations_dir ARGS) example with
  | Some (File chunks) =>
      match json_load (concat chunks) with
      | Ok a =>
          match (dict_to_tf_example PIL_Image_open a (image_dir ARGS) w).1 with
          | Ok ex => Some (SerializeToString ex)
          | Raise _ => None
          end
      | Raise _ => None
      end
  | _ => None
  end.

(** The file of an entry and the image it refers to are outside the output
    directory. *)
Definition entry_outside (json_load : bytes → result Annotation) (ARGS : Args)
    (w : world) (example : string) : bool :=
  outside (output ARGS) (os_path_join (annotations_dir ARGS) example) &&
  match fs w !! os_path_join (annotations_dir ARGS) example with
  | Some (File chunks) =>
      match json_load (concat chunks) with
      | Ok a => outside (output ARGS) (image_path a (image_dir ARGS))
      | Raise _ => true
      end
  | _ => true
  end.

(** ** Concrete inputs *)

(** A whole number of pixels. *)
Definition qz (z : Z) : Qc := Qc_of_Z z.

(** Every image decodes as a 400 x 500 RGB JPEG. *)
Definition pil_400x500 (_ : bytes) : result PILImage :=
  Ok {| im_format := "JPEG"; im_mode := "RGB"; im_size := (400, 500) |}.

Definition size_400x500 : Size :=
  {| size_width := 400; size_height := 500; size_depth := 3 |}.

(** The annotation of the specification's scenario. *)
Definition scenario_box : Box :=
  {| box_xmin := qz 100; box_ymin := qz 50; box_xmax := qz 300; box_ymax := qz 250 |}.

Definition scenario_annotation : Annotation :=
  {| ann_filename := "1.jpg";
     ann_box := scenario_box;
     ann_landmarks := [[qz 150; qz 100]; [qz 250; qz 100]; [qz 200; qz 150];
                       [qz 160; qz 200]; [qz 240; qz 200]];
     ann_size := size_400x500 |}.

Definition images_world : world :=
  World (list_to_map [("images", Dir); ("images/1.jpg", File [[Byte.xff; Byte.xd8]])]) [].

(** The scenario's annotation with a box that is wider than the image. *)
Definition wide_annotation : Annotation :=
  {| ann_filename := "1.jpg";
     ann_box := {| box_xmin := qz 100; box_ymin := qz 50;
                   box_xmax := qz 500; box_ymax := qz 250 |};
     ann_landmarks := ann_landmarks scenario_annotation;
     ann_size := size_400x500 |}.

(** An inverted box, a file name that is not a JPEG name, no such image. *)
Definition png_annotation : Annotation :=
  {| ann_filename := "1.png";
     ann_box := {| box_xmin := qz 300; box_ymin := qz 50;
                   box_xmax := qz 100; box_ymax := qz 250 |};
     ann_landmarks := ann_landmarks scenario_annotation;
     ann_size := size_400x500 |}.

(** An inverted box on the scenario's image. *)
Definition inverted_annotation : Annotation :=
  {| ann_filename := "1.jpg";
     ann_box := {| box_xmin := qz 300; box_ymin := qz 50;
                   box_xmax := qz 100; box_ymax := qz 250 |};
     ann_landmarks := ann_landmarks scenario_annotation;
     ann_size := size_400x500 |}.

(** Two landmarks instead of five. *)
Definition two_landmarks_annotation : Annotation :=
  {| ann_filename := "1.jpg";
     ann_box := scenario_box;
     ann_landmarks := [[qz 150; qz 100]; [qz 250; qz 100]];
     ann_size := size_400x500 |}.

(** The first landmark to the left of the box. *)
Definition outside_annotation : Annotation :=
  {| ann_filename := "1.jpg";
     ann_box := scenario_box;
     ann_landmarks := [[qz 50; qz 100]; [qz 250; qz 100]];
     ann_size := size_400x500 |}.

(** The value of a result, [d] when there is none. *)
Definition result_value {A} (d : A) (r : result A) : A :=
  match r with Ok a => a | Raise _ => d end.

Definition scenario_run : result Example * world :=
  dict_to_tf_example pil_400x500 scenario_annotation "images" images_world.

Definition wide_run : result Example * world :=
  dict_to_tf_example pil_400x500 wide_annotation "images" images_world.

(** The world of the scenario with something else next to the image. *)
Definition images_world' : world :=
  World (<["notes.txt" := File []]> (fs images_world)) [EListdir "images"].

(** Stand-ins for the library functions: every annotation file parses to
    the scenario's annotation, except a file holding the byte [b], which
    parses to the annotation with the inverted box; an example serializes
    to its image bytes. *)
Definition json_stub (data : bytes) : result Annotation :=
  match data with
  | [Byte.x62] => Ok inverted_annotation
  | _ => Ok scenario_annotation
  end.

Definition serialize_stub (ex : Example) : bytes :=
  match ex !! "image" with
  | Some (BytesList [b]) => b
  | _ => []
  end.

(** A data set: the scenario's image, the given annotation files, and an
    output directory left over from an earlier run. *)
Definition dataset (annotations : list (string * bytes)) : world :=
  World (list_to_map
           ([("images", Dir); ("images/1.jpg", File [[Byte.xff; Byte.xd8]]);
             ("out", Dir); ("out/stale.tfrecords", File [[Byte.x00]]);
             ("annotations", Dir)]
            ++ ((λ nb : string * bytes, (("annotations/" ++ nb.1)%string, File [nb.2]))
                  <$> annotations))%list)
        [].

Definition run_args (s : Z) : Args :=
  {| image_dir := "images"; annotations_dir := "annotations";
     output := "out"; num_shards := s |}.

(** Draws under which the shuffle swaps nothing. *)
Definition no_swap (i : nat) : nat := i.

(** Draws under which every position is swapped with the first. *)
Definition swap_first (i : nat) : nat := 0%nat.

Definition ten_world : world :=
  dataset ((λ n, (n, [Byte.x61])) <$>
           ["0.json"; "1.json"; "2.json"; "3.json"; "4.json";
            "5.json"; "6.json"; "7.json"; "8.json"; "9.json"]).

Definition ten_run : result () * world :=
  main json_stub pil_400x500 serialize_stub (run_args 3) no_swap ten_world.

Definition one_world : world := dataset [("0.json", [Byte.x61])].

(** Three entries, listed as c, a, b; the one in the middle is the
    annotation with the inverted box. *)
Definition bad_world : world :=
  dataset [("a.json", [Byte.x62]); ("b.json", [Byte.x61]); ("c.json", [Byte.x63])].

Definition bad_setup : result (list string * Z) * world :=
  main_setup (run_args 2) no_swap bad_world.

Definition bad_before : result loop_vars * world :=
  for_loop (loop_body json_stub pil_400x500 serialize_stub (run_args 2) 2)
    ["c.json"] (LoopVars 0 0 None) bad_setup.2.

Definition bad_vars : loop_vars := result_value (LoopVars 0 0 None) bad_before.1.

Definition bad_validation : result Example * world :=
  dict_to_tf_example pil_400x500 inverted_annotation "images"
    (before_validation (run_args 2) "a.json" bad_vars bad_before.2).

(** A second run, with one shard, over what [ten_run] left. *)
Definition second_run : result () * world :=
  main json_stub pil_400x500 serialize_stub (run_args 1) swap_first ten_run.2.


(** Runs of the ten entries with no shard, a negative number of shards,
    five shards. *)
Definition zero_run : result () * world :=
  main json_stub pil_400x500 serialize_stub (run_args 0) no_swap ten_world.

Definition negative_run : result () * world :=
  main json_stub pil_400x500 serialize_stub (run_args (-2)) no_swap ten_world.

Definition five_run : result () * world :=
  main json_stub pil_400x500 serialize_stub (run_args 5) no_swap ten_world.

(** No annotation at all. *)
Definition empty_world : world := dataset [].

Definition empty_run : result () * world :=
  main json_stub pil_400x500 serialize_stub (run_args 3) no_swap empty_world.

(** Arguments that name the annotations directory as the output. *)
Definition overlapping_args : Args :=
  {| image_dir := "images"; annotations_dir := "annotations";
     output := "annotations"; num_shards := 1 |}.

(** Arguments whose output path is the scenario's image. *)
Definition file_output_args : Args :=
  {| image_dir := "images"; annotations_dir := "annotations";
     output := "images/1.jpg"; num_shards := 1 |}.

(** Arguments whose annotations directory is the given path. *)
Definition listing_args (annotations_dir : string) : Args :=
  {| image_dir := "images"; annotations_dir := annotations_dir;
     output := "out"; num_shards := 1 |}.

(** A directory among the annotations. *)
Definition subdir_world : world :=
  World (<["annotations/sub" := Dir]> (fs empty_world)) [].

Definition subdir_setup : result (list string * Z) * world :=
  main_setup (run_args 1) no_swap subdir_world.

(** The run over c, a, b that fails on a. *)
Definition bad_run : result () * world :=
  main json_stub pil_400x500 serialize_stub (run_args 2) no_swap bad_world.

(** Every image decodes as a 400 x 500 RGB PNG. *)
Definition pil_png (_ : bytes) : result PILImage :=
  Ok {| im_format := "PNG"; im_mode := "RGB"; im_size := (400, 500) |}.

(** The scenario's annotation, declaring a width of 300. *)
Definition resized_annotation : Annotation :=
  {| ann_filename := "1.jpg";
     ann_box := scenario_box;
     ann_landmarks := ann_landmarks scenario_annotation;
     ann_size := {| size_width := 300; size_height := 500; size_depth := 3 |} |}.

(** Landmarks on two corners and on an edge of the scenario's box. *)
Definition corner_annotation : Annotation :=
  {| ann_filename := "1.jpg";
     ann_box := scenario_box;
     ann_landmarks := [[qz 100; qz 50]; [qz 300; qz 250]; [qz 200; qz 50]];
     ann_size := size_400x500 |}.

(** Every image decodes as a 3 x 3 RGB JPEG. *)
Definition pil_3x3 (_ : bytes) : result PILImage :=
  Ok {| im_format := "JPEG"; im_mode := "RGB"; im_size := (3, 3) |}.

(** The float next below 2: 1.9999999999999998. *)
Definition below_two : Qc := Q2Qc (9007199254740991 # 4503599627370496).

(** On a 3 x 3 image, a box whose ymax is the float next below 2, with a
    landmark at y = 2: the two quotients by 3 round to the same float. *)
Definition rounded_bound_annotation : Annotation :=
  {| ann_filename := "1.jpg";
     ann_box := {| box_xmin := qz 0; box_ymin := qz 0;
                   box_xmax := qz 2; box_ymax := below_two |};
     ann_landmarks := [[qz 1; qz 2]];
     ann_size := {| size_width := 3; size_height := 3; size_depth := 3 |} |}.

(** On a 3 x 3 image, a box from the float next below 2 to 2: in pixels
    xmin < xmax, and the two quotients by 3 round to the same float. *)
Definition rounded_box_annotation : Annotation :=
  {| ann_filename := "1.jpg";
     ann_box := {| box_xmin := below_two; box_ymin := qz 0;
                   box_xmax := qz 2; box_ymax := qz 2 |};
     ann_landmarks := [];
     ann_size := {| size_width := 3; size_height := 3; size_depth := 3 |} |}.

(** * Proofs *)

(** ** The validator *)

Ltac qc_compare :=
  vm_compute;
  first [ reflexivity | discriminate
        | let H := fresh in intros H; first [discriminate H | apply H; reflexivity] ].

Ltac monad_unfold :=
  cbv beta iota delta [bind ret raise lift assert_ log gfile_read open_read] in *;
  cbn [fs trace fst snd] in *.

(** ** Rounding to binary64 *)

Section Rounding.
Local Open Scope Q_scope.

Lemma pow2_pos e : 0 < pow2 e.
Proof. apply Qpower_0_lt. reflexivity. Qed.

Lemma pow2_add a b : pow2 (a + b) == pow2 a * pow2 b.
Proof. apply Qpower_plus. discriminate. Qed.

Lemma pow2_le a b : (a <= b)%Z -> pow2 a <= pow2 b.
Proof. intros H. apply Qpower_le_compat_l; [exact H | discriminate]. Qed.

Lemma pow2_lt a b : (a < b)%Z -> pow2 a < pow2 b.
Proof. intros H. apply Qpower_lt_compat_l; [exact H | reflexivity]. Qed.

Lemma pow2_nonneg_Z n : (0 <= n)%Z -> pow2 n == inject_Z (2 ^ n).
Proof. intros H. unfold pow2. rewrite Zpower_Qpower by exact H. reflexivity. Qed.

Lemma Qlog2_spec q : 0 < q -> pow2 (Qlog2 q) <= q /\ q < pow2 (Qlog2 q + 1).
Proof.
  intros Hq. destruct q as [n d]. unfold Qlog2. cbn [Qnum Qden].
  assert (Hn : (0 < n)%Z) by (unfold Qlt in Hq; simpl in Hq; lia).
  set (a := Z.log2 n). set (b := Z.log2 (Zpos d)).
  destruct (Z.log2_spec n Hn) as [Ha1 Ha2]. fold a in Ha1, Ha2.
  destruct (Z.log2_spec (Zpos d) ltac:(lia)) as [Hb1 Hb2]. fold b in Hb1, Hb2.
  assert (Ha0 : (0 <= a)%Z) by apply Z.log2_nonneg.
  assert (Hb0 : (0 <= b)%Z) by apply Z.log2_nonneg.
  assert (Hq' : (n # d) * inject_Z (Zpos d) == inject_Z n).
  { unfold Qeq, Qmult, inject_Z. simpl. lia. }
  assert (Hlo : pow2 (a - b - 1) <= n # d).
  { assert (pow2 (a - b - 1) * inject_Z (2 ^ Z.succ b) == inject_Z (2 ^ a)) as He.
    { rewrite <- !pow2_nonneg_Z by lia. rewrite <- pow2_add. f_equiv. lia. }
    assert (inject_Z (2 ^ a) <= inject_Z n) by (rewrite <- Zle_Qle; lia).
    assert (inject_Z (Zpos d) <= inject_Z (2 ^ Z.succ b)) by (rewrite <- Zle_Qle; lia).
    assert (0 < inject_Z (Zpos d)) by (rewrite <- (Zlt_Qlt 0); lia).
    pose proof (pow2_pos (a - b - 1)). nra. }
  assert (Hhi : n # d < pow2 (a - b + 1)).
  { assert (pow2 (a - b + 1) * inject_Z (2 ^ b) == inject_Z (2 ^ Z.succ a)) as He.
    { rewrite <- !pow2_nonneg_Z by lia. rewrite <- pow2_add. f_equiv. lia. }
    assert (inject_Z n < inject_Z (2 ^ Z.succ a)) by (rewrite <- Zlt_Qlt; lia).
    assert (inject_Z (2 ^ b) <= inject_Z (Zpos d)) by (rewrite <- Zle_Qle; lia).
    assert (0 < inject_Z (2 ^ b)) by (rewrite <- (Zlt_Qlt 0); lia).
    pose proof (pow2_pos (a - b + 1)). nra. }
  destruct (Qle_bool (pow2 (a - b)) (n # d)) eqn:Hb.
  - apply Qle_bool_iff in Hb. split; [exact Hb | exact Hhi].
  - split; [exact Hlo|]. replace (a - b - 1 + 1)%Z with (a - b)%Z by lia.
    apply Qnot_le_lt. intros H. apply Qle_bool_iff in H. congruence.
Qed.

Lemma Qlog2_mono x y : 0 < x -> x <= y -> (Qlog2 x <= Qlog2 y)%Z.
Proof.
  intros Hx Hxy.
  destruct (Qlog2_spec x Hx) as [Hx1 _].
  destruct (Qlog2_spec y ltac:(lra)) as [_ Hy2].
  destruct (Z.le_gt_cases (Qlog2 x) (Qlog2 y)) as [|Hlt]; [assumption|].
  assert (pow2 (Qlog2 y + 1) <= pow2 (Qlog2 x)) by (apply pow2_le; lia).
  lra.
Qed.

Lemma Qfloor_bounds q : inject_Z (Qfloor q) <= q /\ q < inject_Z (Qfloor q) + 1.
Proof.
  split; [apply Qfloor_le|].
  pose proof (Qlt_floor q) as H. rewrite inject_Z_plus in H. exact H.
Qed.

Lemma round_half_even_mono x y : x <= y -> (round_half_even x <= round_half_even y)%Z.
Proof.
  intros Hxy. unfold round_half_even.
  pose proof (Qfloor_resp_le x y Hxy) as Hf.
  destruct (Qfloor_bounds x) as [Hx1 Hx2]. destruct (Qfloor_bounds y) as [Hy1 Hy2].
  destruct (Z.eq_dec (Qfloor x) (Qfloor y)) as [Heq|Hne].
  - rewrite <- Heq in *.
    destruct (Qcompare_spec (x - inject_Z (Qfloor x)) (1 # 2));
      destruct (Qcompare_spec (y - inject_Z (Qfloor x)) (1 # 2));
      destruct (Z.even (Qfloor x)); try lia; try lra.
  - assert (Qfloor x + 1 <= Qfloor y)%Z by lia.
    destruct (Qcompare (x - inject_Z (Qfloor x)) (1 # 2));
      destruct (Qcompare (y - inject_Z (Qfloor y)) (1 # 2));
      destruct (Z.even (Qfloor x)); destruct (Z.even (Qfloor y)); lia.
Qed.

Lemma round_half_even_Z (n : Z) : round_half_even (inject_Z n) = n.
Proof.
  unfold round_half_even. rewrite Qfloor_Z.
  destruct (Qcompare_spec (inject_Z n - inject_Z n) (1 # 2)); [lra | reflexivity | lra].
Qed.

Lemma round_half_even_eq x y : x == y -> round_half_even x = round_half_even y.
Proof.
  intros H. apply Z.le_antisymm; apply round_half_even_mono; rewrite H; apply Qle_refl.
Qed.

Lemma round_to_mono e x y : x <= y -> round_to e x <= round_to e y.
Proof.
  intros Hxy. unfold round_to. pose proof (pow2_pos e).
  apply Qmult_le_compat_r; [|lra].
  rewrite <- Zle_Qle. apply round_half_even_mono.
  apply Qmult_le_compat_r; [exact Hxy|]. apply Qinv_le_0_compat. lra.
Qed.

Lemma round_to_multiple e k : (e <= k)%Z -> round_to e (pow2 k) == pow2 k.
Proof.
  intros Hk. unfold round_to.
  assert (pow2 k / pow2 e == inject_Z (2 ^ (k - e))) as Hq.
  { rewrite <- pow2_nonneg_Z by lia.
    replace k with ((k - e) + e)%Z at 1 by lia. rewrite pow2_add.
    pose proof (pow2_pos e). field. lra. }
  rewrite (round_half_even_eq _ _ Hq), round_half_even_Z.
  rewrite <- pow2_nonneg_Z by lia. rewrite <- pow2_add. f_equiv. lia.
Qed.

Lemma round_to_0 e : round_to e 0 == 0.
Proof.
  unfold round_to. assert (0 / pow2 e == inject_Z 0) as Hq by (unfold Qdiv; ring).
  rewrite (round_half_even_eq _ _ Hq), round_half_even_Z. ring.
Qed.

Lemma round_binary64_nonneg x : 0 <= x -> 0 <= round_binary64 x.
Proof.
  intros Hx. unfold round_binary64.
  rewrite <- (round_to_0 (binary64_exponent x)). apply round_to_mono; assumption.
Qed.

Lemma round_binary64_mono x y : 0 < x -> x <= y -> round_binary64 x <= round_binary64 y.
Proof.
  intros Hx Hxy. unfold round_binary64.
  pose proof (Qlog2_mono x y Hx Hxy) as Hlog.
  destruct (Z.eq_dec (binary64_exponent x) (binary64_exponent y)) as [Heq|Hne].
  - rewrite Heq. apply round_to_mono; assumption.
  - assert (Hlt : (binary64_exponent x < binary64_exponent y)%Z)
      by (unfold binary64_exponent in *; lia).
    assert (Hey : binary64_exponent y = (Qlog2 y - 52)%Z)
      by (unfold binary64_exponent in *; lia).
    assert (HLx : (Qlog2 x + 1 <= Qlog2 y)%Z) by (unfold binary64_exponent in *; lia).
    destruct (Qlog2_spec x Hx) as [_ Hx2].
    destruct (Qlog2_spec y ltac:(lra)) as [Hy1 _].
    assert (pow2 (Qlog2 x + 1) <= pow2 (Qlog2 y)) by (apply pow2_le; assumption).
    apply Qle_trans with (pow2 (Qlog2 y)).
    + rewrite <- (round_to_multiple (binary64_exponent x) (Qlog2 y)) by lia.
      apply round_to_mono. lra.
    + rewrite <- (round_to_multiple (binary64_exponent y) (Qlog2 y)) at 1 by lia.
      apply round_to_mono; assumption.
Qed.

Lemma round_half_even_error q :
  - (1 # 2) <= inject_Z (round_half_even q) - q /\ inject_Z (round_half_even q) - q <= 1 # 2.
Proof.
  unfold round_half_even. destruct (Qfloor_bounds q) as [H1 H2].
  assert (Hone : inject_Z (Qfloor q + 1) == inject_Z (Qfloor q) + 1)
    by (rewrite inject_Z_plus; reflexivity).
  destruct (Qcompare_spec (q - inject_Z (Qfloor q)) (1 # 2));
    try destruct (Z.even (Qfloor q)); rewrite ?Hone; split; lra.
Qed.

(** The rounding of a positive rational is a binary64 number: a mantissa
    of at most 53 bits at an exponent not below -1074; it is within half a
    unit in the last place. *)
Lemma round_binary64_spec x :
  0 < x ->
  exists m : Z,
    round_binary64 x == inject_Z m * pow2 (binary64_exponent x) /\
    (0 <= m <= 2 ^ 53)%Z /\
    (-1074 <= binary64_exponent x)%Z /\
    - ((1 # 2) * pow2 (binary64_exponent x)) <= round_binary64 x - x /\
    round_binary64 x - x <= (1 # 2) * pow2 (binary64_exponent x).
Proof.
  intros Hx. set (e := binary64_exponent x).
  exists (round_half_even (x / pow2 e)).
  pose proof (pow2_pos e) as He.
  split; [reflexivity|]. split; [|split; [unfold e, binary64_exponent; lia|]].
  - split.
    + rewrite <- (round_half_even_Z 0). apply round_half_even_mono.
      apply Qle_shift_div_l; [exact He|]. rewrite Qmult_0_l. apply Qlt_le_weak, Hx.
    + rewrite <- (round_half_even_Z (2 ^ 53)). apply round_half_even_mono.
      destruct (Qlog2_spec x Hx) as [_ Hhi].
      assert (pow2 (Qlog2 x + 1) <= pow2 (53 + e)) as Hle
        by (apply pow2_le; unfold e, binary64_exponent; lia).
      rewrite (pow2_add 53 e) in Hle. rewrite <- pow2_nonneg_Z by lia.
      apply Qle_shift_div_r; [exact He|].
      apply Qle_trans with (pow2 (Qlog2 x + 1)); [apply Qlt_le_weak, Hhi | exact Hle].
  - destruct (round_half_even_error (x / pow2 e)) as [E1 E2].
    unfold round_binary64, round_to. fold e.
    assert (x == (x / pow2 e) * pow2 e) as Hxe by (field; lra).
    set (m := inject_Z (round_half_even (x / pow2 e))) in *.
    set (q := x / pow2 e) in *. clearbody m q. split; nra.
Qed.

Lemma fl_mono (x y : Qc) : (x <= y)%Qc -> (fl x <= fl y)%Qc.
Proof.
  unfold Qcle, fl. intros Hxy.
  destruct (Qcompare_spec (this x) 0) as [Hx|Hx|Hx];
    destruct (Qcompare_spec (this y) 0) as [Hy|Hy|Hy];
    cbn [this Q2Qc]; rewrite !Qred_correct; try lra.
  - pose proof (round_binary64_nonneg (this y) ltac:(lra)). lra.
  - pose proof (round_binary64_nonneg (- this x) ltac:(lra)). lra.
  - pose proof (round_binary64_mono (- this y) (- this x) ltac:(lra) ltac:(lra)). lra.
  - pose proof (round_binary64_nonneg (- this x) ltac:(lra)).
    pose proof (round_binary64_nonneg (this y) ltac:(lra)). lra.
  - apply round_binary64_mono; lra.
Qed.

Lemma fl_0 : fl 0 = 0%Qc.
Proof. apply Qc_is_canon. reflexivity. Qed.

Lemma fl_1 : fl 1 = 1%Qc.
Proof. apply Qc_is_canon. vm_compute. reflexivity. Qed.

(** One third, a tie that goes down to the even mantissa 2^52, a tie that
    goes up to the even mantissa 2^52 + 2, and a tie among the least
    numbers, 3 * 2^-1075, which goes to 2^-1073. *)
Lemma fl_examples :
  fl (Q2Qc (1 # 3)) = Q2Qc (6004799503160661 # 18014398509481984) /\
  fl (Q2Qc (9007199254740993 # 1)) = Q2Qc (9007199254740992 # 1) /\
  fl (Q2Qc (9007199254740995 # 1)) = Q2Qc (9007199254740996 # 1) /\
  fl (Q2Qc (3 * pow2 (-1075))) = Q2Qc (pow2 (-1073)).
Proof. repeat split; apply Qc_is_canon; vm_compute; reflexivity. Qed.

End Rounding.

Lemma fle_true x y : fle x y = true ↔ (x ≤ y)%Qc.
Proof. unfold fle. apply bool_decide_eq_true. Qed.

Lemma flt_true x y : flt x y = true ↔ (x < y)%Qc.
Proof. unfold flt. apply bool_decide_eq_true. Qed.

Lemma Qc_of_Z_pos d : 0 < d → (0 < Qc_of_Z d)%Qc.
Proof. intros H%Z2Qc_inj_lt. by rewrite Z2Qc_inj_0 in H. Qed.

Lemma norm_le_mono x y d : 0 < d → (x ≤ y)%Qc → (norm x d ≤ norm y d)%Qc.
Proof.
  intros Hd Hxy. unfold norm, fdiv. apply fl_mono. unfold Qcdiv.
  apply Qcmult_le_mono_nonneg_r; [|done].
  apply Qclt_le_weak, Qcinv_pos, Qc_of_Z_pos, Hd.
Qed.

Lemma norm_0 d : norm 0 d = 0%Qc.
Proof. unfold norm, fdiv, Qcdiv. rewrite Qcmult_0_l. apply fl_0. Qed.

Lemma norm_nonneg x d : 0 < d → (0 ≤ x)%Qc → (0 ≤ norm x d)%Qc.
Proof. intros Hd Hx. rewrite <- (norm_0 d). by apply norm_le_mono. Qed.

Lemma norm_le_1 x d : 0 < d → (x ≤ Qc_of_Z d)%Qc → (norm x d ≤ 1)%Qc.
Proof.
  intros Hd Hx. replace 1%Qc with (norm (Qc_of_Z d) d); [by apply norm_le_mono|].
  unfold norm, fdiv, Qcdiv. rewrite Qcmult_inv_r; [apply fl_1|].
  intros H0. apply Qc_of_Z_pos in Hd. rewrite H0 in Hd. by apply Qclt_not_eq in Hd.
Qed.

(** A quotient of floats is strictly smaller than another only if the
    dividend is. *)
Lemma norm_lt_inv x y d : 0 < d → (norm x d < norm y d)%Qc → (x < y)%Qc.
Proof.
  intros Hd Hlt. apply Qcnot_le_lt. intros Hle.
  apply (Qcle_not_lt _ _ (norm_le_mono _ _ _ Hd Hle)). exact Hlt.
Qed.

Lemma landmarks_loop_Ok width height xmin xmax ymin ymax ls acc out :
  landmarks_loop width height xmin xmax ymin ymax ls acc = Ok out ↔
  Forall (landmark_in_box width height xmin xmax ymin ymax) ls ∧
  out = (acc ++ mjoin (swap_pair width height <$> ls))%list.
Proof.
  revert acc. induction ls as [|p ls IH]; intros acc; simpl.
  - rewrite app_nil_r. split.
    + intros [= ->]. split; [constructor | done].
    + intros [_ ->]. done.
  - destruct p as [|x [|y [|z p]]]; simpl.
    1,2,4: by split; [|intros [[(x' & y' & [=] & _) _]%Forall_cons_1 _]].
    fold (norm y height) (norm x width).
    destruct (fle (norm y height) ymax && fle ymin (norm y height)) eqn:Hy; simpl.
    2:{ split; [done|]. intros [[(x' & y' & [= <- <-] & [Hy1 Hy2] & _) _]%Forall_cons_1 _].
        apply fle_true in Hy1, Hy2. rewrite Hy1, Hy2 in Hy. done. }
    destruct (fle (norm x width) xmax && fle xmin (norm x width)) eqn:Hx; simpl.
    2:{ split; [done|]. intros [[(x' & y' & [= <- <-] & _ & [Hx1 Hx2]) _]%Forall_cons_1 _].
        apply fle_true in Hx1, Hx2. rewrite Hx1, Hx2 in Hx. done. }
    rewrite IH. rewrite <- app_assoc. simpl.
    apply andb_true_iff in Hy as [Hy1 Hy2]. apply andb_true_iff in Hx as [Hx1 Hx2].
    apply fle_true in Hy1, Hy2, Hx1, Hx2.
    split; intros [Hall ->]; (split; [|done]).
    + constructor; [|done]. exists x, y. done.
    + by apply Forall_cons_1 in Hall as [_ ?].
Qed.

Lemma flattened_length width height xmin xmax ymin ymax ls :
  Forall (landmark_in_box width height xmin xmax ymin ymax) ls →
  length (mjoin (swap_pair width height <$> ls)) = (2 * length ls)%nat.
Proof.
  induction 1 as [|p ls (x & y & -> & _) _ IH]; [done|].
  csimpl. rewrite IH. lia.
Qed.

Section Validator.
Variable PIL_Image_open : bytes → result PILImage.

Lemma dict_after_checks a dir w encoded_jpg :
  image_checks_pass PIL_Image_open a dir w encoded_jpg →
  dict_to_tf_example PIL_Image_open a dir w
  = (geometry a encoded_jpg, after_read a dir w).
Proof.
  intros (Hext & (chunks & Hfile & ->) & (image & Hpil & Hfmt & Hmode & Hsz) & Hw & Hh).
  unfold dict_to_tf_example, geometry, after_read, image_path in *.
  monad_unfold. rewrite Hext; simpl. rewrite Hfile, Hpil, Hfmt, Hmode, Hsz; simpl.
  apply Z.ltb_lt in Hw, Hh. fold (width_of a) (height_of a). rewrite Hw, Hh. simpl.
  rewrite !Z.eqb_refl. simpl.
  fold (ymin_of a). unfold xmin_of, xmax_of, ymin_of, ymax_of, norm, width_of, height_of.
  destruct (flt _ _ && flt _ _); [|done].
  by destruct (landmarks_loop _ _ _ _ _ _ _ _).
Qed.

Lemma dict_Ok_inv a dir w ex w' :
  dict_to_tf_example PIL_Image_open a dir w = (Ok ex, w') →
  ∃ encoded_jpg, image_checks_pass PIL_Image_open a dir w encoded_jpg.
Proof.
  unfold dict_to_tf_example, image_checks_pass, image_path, width_of, height_of.
  monad_unfold. intros H.
  destruct (endswith _ ".jpg" || endswith _ ".jpeg"); [|done]. simpl in H.
  destruct (fs w !! _) as [[|chunks]|]; [done| |done].
  exists (concat chunks). split; [done|]. split; [by exists chunks|].
  destruct (PIL_Image_open _) as [image|]; [|done].
  destruct (String.eqb_spec (im_format image) "JPEG"); [|done]. simpl in H.
  destruct (String.eqb_spec (im_mode image) "RGB"); [|done]. simpl in H.
  destruct (Z.ltb_spec 0 (size_width (ann_size a))); [|done].
  destruct (Z.ltb_spec 0 (size_height (ann_size a))); [|done]. simpl in H.
  destruct (Z.eqb_spec (im_size image).1 (size_width (ann_size a))); [|done].
  destruct (Z.eqb_spec (im_size image).2 (size_height (ann_size a))); [|done].
  split; [|done]. exists image. repeat split; try done.
  destruct (im_size image); simpl in *; congruence.
Qed.

(** An accepted annotation passed every check, and the example is built
    from the normalized values. *)
Lemma dict_Ok_spec a dir w ex w' :
  dict_to_tf_example PIL_Image_open a dir w = (Ok ex, w') →
  ∃ encoded_jpg,
    image_checks_pass PIL_Image_open a dir w encoded_jpg ∧
    (ymin_of a < ymax_of a)%Qc ∧ (xmin_of a < xmax_of a)%Qc ∧
    Forall (landmark_in_box (width_of a) (height_of a) (xmin_of a) (xmax_of a)
              (ymin_of a) (ymax_of a)) (ann_landmarks a) ∧
    ex = make_example encoded_jpg (xmin_of a) (xmax_of a) (ymin_of a) (ymax_of a)
           (mjoin (swap_pair (width_of a) (height_of a) <$> ann_landmarks a)) ∧
    w' = after_read a dir w.
Proof.
  intros H. destruct (dict_Ok_inv _ _ _ _ _ H) as [encoded_jpg Hpass].
  exists encoded_jpg. split; [done|].
  rewrite (dict_after_checks _ _ _ _ Hpass) in H. unfold geometry in H.
  destruct (flt (ymin_of a) _ && flt _ _) eqn:Hbox; [|by inversion H].
  apply andb_true_iff in Hbox as [Hy%flt_true Hx%flt_true].
  destruct (landmarks_loop _ _ _ _ _ _ _ _) as [lf|] eqn:Hloop; [|by inversion H].
  apply landmarks_loop_Ok in Hloop as [Hall ->].
  inversion H; subst. done.
Qed.

(** The other direction: what passes every check is accepted. *)
Lemma dict_accepts a dir w encoded_jpg :
  image_checks_pass PIL_Image_open a dir w encoded_jpg →
  (ymin_of a < ymax_of a)%Qc → (xmin_of a < xmax_of a)%Qc →
  Forall (landmark_in_box (width_of a) (height_of a) (xmin_of a) (xmax_of a)
            (ymin_of a) (ymax_of a)) (ann_landmarks a) →
  dict_to_tf_example PIL_Image_open a dir w
  = (Ok (make_example encoded_jpg (xmin_of a) (xmax_of a) (ymin_of a) (ymax_of a)
           (mjoin (swap_pair (width_of a) (height_of a) <$> ann_landmarks a))),
     after_read a dir w).
Proof.
  intros Hpass Hy%flt_true Hx%flt_true Hall.
  rewrite (dict_after_checks _ _ _ _ Hpass). unfold geometry. rewrite Hy, Hx. simpl.
  assert (landmarks_loop (width_of a) (height_of a) (xmin_of a) (xmax_of a)
            (ymin_of a) (ymax_of a) (ann_landmarks a) []
          = Ok (mjoin (swap_pair (width_of a) (height_of a) <$> ann_landmarks a))) as ->;
    [|done].
  apply landmarks_loop_Ok. done.
Qed.

(** The validator leaves the files alone; its trace is the read of the
    image, when the extension check lets it get there. *)
Lemma dict_world a dir w :
  (dict_to_tf_example PIL_Image_open a dir w).2
  = if endswith (ann_filename a) ".jpg" || endswith (ann_filename a) ".jpeg"
    then after_read a dir w else w.
Proof.
  unfold dict_to_tf_example, after_read, image_path. monad_unfold.
  destruct (endswith _ ".jpg" || endswith _ ".jpeg"); [|done]. simpl.
  destruct (fs w !! _) as [[|chunks]|]; [done| |done].
  destruct (PIL_Image_open _) as [image|]; [|done].
  destruct (String.eqb _ "JPEG"); [|done]. simpl.
  destruct (String.eqb _ "RGB"); [|done]. simpl.
  destruct ((0 <? _) && (0 <? _)); [|done]. simpl.
  destruct ((_ =? _) && (_ =? _)); [|done]. simpl.
  destruct (flt _ _ && flt _ _); [|done]. simpl.
  by destruct (landmarks_loop _ _ _ _ _ _ _ _).
Qed.
End Validator.

Section ValidatorClaims.
Variable PIL_Image_open : bytes → result PILImage.

Lemma make_example_lookups encoded_jpg xmin xmax ymin ymax lf :
  let ex := make_example encoded_jpg xmin xmax ymin ymax lf in
  ex !! "image" = Some (_bytes_feature encoded_jpg) ∧
  ex !! "xmin" = Some (_float_feature xmin) ∧
  ex !! "xmax" = Some (_float_feature xmax) ∧
  ex !! "ymin" = Some (_float_feature ymin) ∧
  ex !! "ymax" = Some (_float_feature ymax) ∧
  ex !! "landmarks" = Some (_float_list_feature lf).
Proof. unfold make_example. repeat split; by simplify_map_eq. Qed.

(** C2. The record of an accepted annotation holds, as its xmin, xmax,
    ymin and ymax features, one float each: the x coordinates of the box
    divided by the width and the y coordinates divided by the height, in
    float arithmetic. These floats satisfy xmin < xmax and ymin < ymax (so
    that the box is strictly ordered in pixels as well), and an annotation
    whose normalized box does not is rejected, by the assertion of line 92
    when the checks before it pass. The box (100, 50, 300, 250) on a
    400 x 500 image normalizes to the floats 0.25, 0.75, 0.10, 0.50. *)
Theorem C2_box_normalized (a : Annotation) (dir : string) (w : world) :
  (∀ ex w', dict_to_tf_example PIL_Image_open a dir w = (Ok ex, w') →
     ex !! "xmin" = Some (FloatList
       [fdiv (box_xmin (ann_box a)) (Qc_of_Z (size_width (ann_size a)))]) ∧
     ex !! "xmax" = Some (FloatList
       [fdiv (box_xmax (ann_box a)) (Qc_of_Z (size_width (ann_size a)))]) ∧
     ex !! "ymin" = Some (FloatList
       [fdiv (box_ymin (ann_box a)) (Qc_of_Z (size_height (ann_size a)))]) ∧
     ex !! "ymax" = Some (FloatList
       [fdiv (box_ymax (ann_box a)) (Qc_of_Z (size_height (ann_size a)))]) ∧
     (xmin_of a < xmax_of a)%Qc ∧ (ymin_of a < ymax_of a)%Qc ∧
     (box_xmin (ann_box a) < box_xmax (ann_box a))%Qc ∧
     (box_ymin (ann_box a) < box_ymax (ann_box a))%Qc ∧
     (ann_box a = scenario_box →
      size_width (ann_size a) = 400 → size_height (ann_size a) = 500 →
        ex !! "xmin" = Some (FloatList [float_of_decimal 0.25]) ∧
        ex !! "xmax" = Some (FloatList [float_of_decimal 0.75]) ∧
        ex !! "ymin" = Some (FloatList [float_of_decimal 0.10]) ∧
        ex !! "ymax" = Some (FloatList [float_of_decimal 0.50]))) ∧
  (¬ ((xmin_of a < xmax_of a)%Qc ∧ (ymin_of a < ymax_of a)%Qc) →
     (∃ e, (dict_to_tf_example PIL_Image_open a dir w).1 = Raise e) ∧
     ∀ encoded_jpg, image_checks_pass PIL_Image_open a dir w encoded_jpg →
       dict_to_tf_example PIL_Image_open a dir w
       = (Raise (AssertionError 92), after_read a dir w)).
Proof.
  split.
  - intros ex w' Hacc.
    destruct (dict_Ok_spec _ _ _ _ _ _ Hacc)
      as (encoded_jpg & (_ & _ & _ & Hw & Hh) & Hy & Hx & _ & -> & _).
    destruct (make_example_lookups encoded_jpg (xmin_of a) (xmax_of a)
                (ymin_of a) (ymax_of a)
                (mjoin (swap_pair (width_of a) (height_of a) <$> ann_landmarks a)))
      as (_ & Hxmin & Hxmax & Hymin & Hymax & _).
    split_and!; try done.
    + by apply (norm_lt_inv _ _ _ Hw).
    + by apply (norm_lt_inv _ _ _ Hh).
    + intros Hbox Hwidth Hheight. rewrite Hxmin, Hxmax, Hymin, Hymax.
      unfold xmin_of, xmax_of, ymin_of, ymax_of, width_of, height_of.
      rewrite Hbox, Hwidth, Hheight.
      split_and!; unfold _float_feature; do 3 f_equal; apply Qc_is_canon;
        vm_compute; reflexivity.
  - intros Hbad. split.
    + destruct (dict_to_tf_example PIL_Image_open a dir w) as [[ex|e] w'] eqn:Hrun;
        [|by exists e].
      destruct (dict_Ok_spec _ _ _ _ _ _ Hrun) as (_ & _ & Hy & Hx & _).
      by destruct Hbad.
    + intros encoded_jpg Hpass. rewrite (dict_after_checks _ _ _ _ _ Hpass).
      unfold geometry.
      destruct (flt (ymin_of a) _ && flt _ _) eqn:Hbox; [|done].
      apply andb_true_iff in Hbox as [Hy%flt_true Hx%flt_true]. by destruct Hbad.
Qed.

(** C3. Every landmark of an accepted annotation is a pair (x, y); the
    landmarks feature of the record is the list of floats that holds,
    landmark by landmark, y divided by the height and then x divided by the
    width (with five landmarks: y1, x1, ..., y5, x5), and each normalized y
    lies in [ymin, ymax] and each normalized x in [xmin, xmax]. The bounds
    are included: an annotation that passes the image and box checks is
    accepted as soon as every landmark lies in the closed box, and a
    landmark with the coordinates of a corner of the box does. An
    annotation with a landmark outside these bounds is rejected. *)
Theorem C3_landmarks_swapped_in_box (a : Annotation) (dir : string) (w : world) :
  (∀ ex w', dict_to_tf_example PIL_Image_open a dir w = (Ok ex, w') →
     Forall (landmark_in_box (width_of a) (height_of a) (xmin_of a) (xmax_of a)
               (ymin_of a) (ymax_of a)) (ann_landmarks a) ∧
     ex !! "landmarks" = Some (FloatList
       (mjoin (swap_pair (width_of a) (height_of a) <$> ann_landmarks a))) ∧
     ∀ x1 y1 x2 y2 x3 y3 x4 y4 x5 y5,
       ann_landmarks a = [[x1; y1]; [x2; y2]; [x3; y3]; [x4; y4]; [x5; y5]] →
       ex !! "landmarks" = Some (FloatList
         [fdiv y1 (Qc_of_Z (size_height (ann_size a)));
          fdiv x1 (Qc_of_Z (size_width (ann_size a)));
          fdiv y2 (Qc_of_Z (size_height (ann_size a)));
          fdiv x2 (Qc_of_Z (size_width (ann_size a)));
          fdiv y3 (Qc_of_Z (size_height (ann_size a)));
          fdiv x3 (Qc_of_Z (size_width (ann_size a)));
          fdiv y4 (Qc_of_Z (size_height (ann_size a)));
          fdiv x4 (Qc_of_Z (size_width (ann_size a)));
          fdiv y5 (Qc_of_Z (size_height (ann_size a)));
          fdiv x5 (Qc_of_Z (size_width (ann_size a)))])) ∧
  (∀ encoded_jpg,
     image_checks_pass PIL_Image_open a dir w encoded_jpg →
     (ymin_of a < ymax_of a)%Qc → (xmin_of a < xmax_of a)%Qc →
     (∀ x y, (x = box_xmin (ann_box a) ∨ x = box_xmax (ann_box a)) →
             (y = box_ymin (ann_box a) ∨ y = box_ymax (ann_box a)) →
             landmark_in_box (width_of a) (height_of a) (xmin_of a) (xmax_of a)
               (ymin_of a) (ymax_of a) [x; y]) ∧
     (Forall (landmark_in_box (width_of a) (height_of a) (xmin_of a) (xmax_of a)
                (ymin_of a) (ymax_of a)) (ann_landmarks a) →
      ∃ ex, dict_to_tf_example PIL_Image_open a dir w = (Ok ex, after_read a dir w))) ∧
  (∀ x y, [x; y] ∈ ann_landmarks a →
     ¬ ((ymin_of a ≤ norm y (height_of a) ≤ ymax_of a)%Qc ∧
        (xmin_of a ≤ norm x (width_of a) ≤ xmax_of a)%Qc) →
     ∃ e, (dict_to_tf_example PIL_Image_open a dir w).1 = Raise e).
Proof.
  split_and!.
  - intros ex w' Hacc.
    destruct (dict_Ok_spec _ _ _ _ _ _ Hacc)
      as (encoded_jpg & _ & _ & _ & Hall & -> & _).
    destruct (make_example_lookups encoded_jpg (xmin_of a) (xmax_of a)
                (ymin_of a) (ymax_of a)
                (mjoin (swap_pair (width_of a) (height_of a) <$> ann_landmarks a)))
      as (_ & _ & _ & _ & _ & Hlm).
    split_and!; [done..|].
    intros x1 y1 x2 y2 x3 y3 x4 y4 x5 y5 Heq. rewrite Hlm, Heq. reflexivity.
  - intros encoded_jpg Hpass Hy Hx. split.
    + intros x y Hxc Hyc. exists x, y. split; [done|].
      unfold xmin_of, xmax_of, ymin_of, ymax_of in *.
      destruct Hxc as [-> | ->], Hyc as [-> | ->];
        repeat split; try apply Qcle_refl; by apply Qclt_le_weak.
    + intros Hall. eexists. by apply dict_accepts.
  - intros x y Hin Hout.
    destruct (dict_to_tf_example PIL_Image_open a dir w) as [[ex|e] w'] eqn:Hrun;
      [|by exists e].
    destruct (dict_Ok_spec _ _ _ _ _ _ Hrun) as (_ & _ & _ & _ & Hall & _).
    rewrite list.Forall_forall in Hall.
    destruct (Hall _ Hin) as (x' & y' & [= <- <-] & Hy & Hx). by destruct Hout.
Qed.

(** C4, amended. The record of an accepted annotation has xmin < xmax and
    ymin < ymax. The box is not compared with the image: xmin (ymin) is
    non-negative when the annotation's box.xmin (box.ymin) is, and xmax
    (ymax) is at most 1 when box.xmax is at most the width (box.ymax at
    most the height). *)
Theorem C4_box_strict_and_conditionally_in_unit_square
    (a : Annotation) (dir : string) (w : world) (ex : Example) (w' : world)
    (Hacc : dict_to_tf_example PIL_Image_open a dir w = (Ok ex, w')) :
  ∃ xmin xmax ymin ymax : Qc,
    ex !! "xmin" = Some (_float_feature xmin) ∧
    ex !! "xmax" = Some (_float_feature xmax) ∧
    ex !! "ymin" = Some (_float_feature ymin) ∧
    ex !! "ymax" = Some (_float_feature ymax) ∧
    (xmin < xmax)%Qc ∧ (ymin < ymax)%Qc ∧
    ((0 ≤ box_xmin (ann_box a))%Qc → (0 ≤ xmin)%Qc) ∧
    ((0 ≤ box_ymin (ann_box a))%Qc → (0 ≤ ymin)%Qc) ∧
    ((box_xmax (ann_box a) ≤ Qc_of_Z (size_width (ann_size a)))%Qc → (xmax ≤ 1)%Qc) ∧
    ((box_ymax (ann_box a) ≤ Qc_of_Z (size_height (ann_size a)))%Qc → (ymax ≤ 1)%Qc).
Proof.
  destruct (dict_Ok_spec _ _ _ _ _ _ Hacc)
    as (encoded_jpg & (_ & _ & _ & Hw & Hh) & Hy & Hx & _ & -> & _).
  destruct (make_example_lookups encoded_jpg (xmin_of a) (xmax_of a)
              (ymin_of a) (ymax_of a)
              (mjoin (swap_pair (width_of a) (height_of a) <$> ann_landmarks a)))
    as (_ & Hxmin & Hxmax & Hymin & Hymax & _).
  exists (xmin_of a), (xmax_of a), (ymin_of a), (ymax_of a).
  split_and!; try done.
  - intros H0. by apply norm_nonneg.
  - intros H0. by apply norm_nonneg.
  - intros H1. by apply norm_le_1.
  - intros H1. by apply norm_le_1.
Qed.

(** C9. The validator's result depends on the world only through what
    reading the image file yields: two worlds in which that read gives the
    same bytes, or the same failure, give the same record or the same
    failure. The validator changes no file, and the only operation it
    performs is that read (none when the file name is refused first). *)
Theorem C9_validator_deterministic (a : Annotation) (dir : string) (w1 w2 : world)
    (Hsame : (gfile_read (os_path_join dir (ann_filename a)) w1).1
             = (gfile_read (os_path_join dir (ann_filename a)) w2).1) :
  (dict_to_tf_example PIL_Image_open a dir w1).1
  = (dict_to_tf_example PIL_Image_open a dir w2).1 ∧
  fs (dict_to_tf_example PIL_Image_open a dir w1).2 = fs w1 ∧
  trace (dict_to_tf_example PIL_Image_open a dir w1).2
  = (trace w1 ++
     if endswith (ann_filename a) ".jpg" || endswith (ann_filename a) ".jpeg"
     then [ERead (os_path_join dir (ann_filename a))] else [])%list.
Proof.
  split_and!.
  - revert Hsame. unfold dict_to_tf_example. monad_unfold.
    destruct (endswith _ ".jpg" || endswith _ ".jpeg"); [|done]. simpl.
    destruct (fs w1 !! _) as [[|c1]|], (fs w2 !! _) as [[|c2]|]; simpl; try done.
    intros [= ->].
    destruct (PIL_Image_open _) as [image|]; [|done].
    destruct (String.eqb _ "JPEG"); [|done]. simpl.
    destruct (String.eqb _ "RGB"); [|done]. simpl.
    destruct ((0 <? _) && (0 <? _)); [|done]. simpl.
    destruct ((_ =? _) && (_ =? _)); [|done]. simpl.
    destruct (flt _ _ && flt _ _); [|done]. simpl.
    by destruct (landmarks_loop _ _ _ _ _ _ _ _).
  - rewrite dict_world. by destruct (_ || _).
  - rewrite dict_world. unfold after_read, image_path.
    destruct (_ || _); simpl; [done|]. by rewrite app_nil_r.
Qed.

(** C10. The number of landmarks is not checked: an annotation that
    passes the checks on the image and on the box, with any number k of
    landmarks, each a pair inside the box after normalization, is
    accepted, and the landmarks feature of its record is a list of 2k
    floats, y and x of each landmark in turn. *)
Theorem C10_landmark_count_unchecked (a : Annotation) (dir : string) (w : world)
    (encoded_jpg : bytes)
    (Hpass : image_checks_pass PIL_Image_open a dir w encoded_jpg)
    (Hy : (ymin_of a < ymax_of a)%Qc) (Hx : (xmin_of a < xmax_of a)%Qc)
    (Hall : Forall (landmark_in_box (width_of a) (height_of a) (xmin_of a)
                      (xmax_of a) (ymin_of a) (ymax_of a)) (ann_landmarks a)) :
  ∃ ex,
    dict_to_tf_example PIL_Image_open a dir w = (Ok ex, after_read a dir w) ∧
    ex !! "landmarks" = Some (FloatList
      (mjoin (swap_pair (width_of a) (height_of a) <$> ann_landmarks a))) ∧
    length (mjoin (swap_pair (width_of a) (height_of a) <$> ann_landmarks a))
    = (2 * length (ann_landmarks a))%nat.
Proof.
  eexists. split; [by apply dict_accepts|].
  split; [by apply make_example_lookups|].
  by eapply flattened_length.
Qed.
End ValidatorClaims.

Lemma scenario_checks_pass :
  image_checks_pass pil_400x500 scenario_annotation "images" images_world
    [Byte.xff; Byte.xd8].
Proof.
  split; [reflexivity|]. split; [by exists [[Byte.xff; Byte.xd8]]|].
  split; [|done]. by eexists.
Qed.



Lemma scenario_run_Ok :
  scenario_run = (Ok (result_value ∅ scenario_run.1), scenario_run.2).
Proof. vm_compute; reflexivity. Qed.

(** The floats of the scenario: 0.25, 0.75 and 0.50 are binary fractions;
    the float 0.10 is 3602879701896397 / 2^55. *)
Lemma scenario_floats :
  float_of_decimal 0.25 = Q2Qc (1 # 4) ∧ float_of_decimal 0.75 = Q2Qc (3 # 4) ∧
  float_of_decimal 0.10 = Q2Qc (3602879701896397 # 36028797018963968) ∧
  float_of_decimal 0.50 = Q2Qc (1 # 2).
Proof. split_and!; apply Qc_is_canon; vm_compute; reflexivity. Qed.

(** The scenario's annotation is accepted with the box 0.25, 0.75, 0.10,
    0.50. *)
Lemma C2_box_normalized_witness :
  scenario_run = (Ok (result_value ∅ scenario_run.1), scenario_run.2) ∧
  result_value ∅ scenario_run.1 !! "xmin" = Some (FloatList [Q2Qc (1 # 4)]) ∧
  result_value ∅ scenario_run.1 !! "xmax" = Some (FloatList [Q2Qc (3 # 4)]) ∧
  result_value ∅ scenario_run.1 !! "ymin"
  = Some (FloatList [Q2Qc (3602879701896397 # 36028797018963968)]) ∧
  result_value ∅ scenario_run.1 !! "ymax" = Some (FloatList [Q2Qc (1 # 2)]).
Proof.
  split; [exact scenario_run_Ok|].
  destruct scenario_floats as (H1 & H2 & H3 & H4).
  rewrite <- H1, <- H2, <- H3, <- H4.
  apply (proj1 (C2_box_normalized pil_400x500 scenario_annotation "images" images_world)
           _ _ scenario_run_Ok); reflexivity.
Defined.

Lemma corner_checks_pass :
  image_checks_pass pil_400x500 corner_annotation "images" images_world
    [Byte.xff; Byte.xd8].
Proof.
  split; [reflexivity|]. split; [by exists [[Byte.xff; Byte.xd8]]|].
  split; [|done]. by eexists.
Qed.

Lemma rounded_bound_checks_pass :
  image_checks_pass pil_3x3 rounded_bound_annotation "images" images_world
    [Byte.xff; Byte.xd8].
Proof.
  split; [reflexivity|]. split; [by exists [[Byte.xff; Byte.xd8]]|].
  split; [|done]. by eexists.
Qed.

(** The scenario's landmarks, swapped and normalized. Landmarks on the
    corners and on an edge of the box are accepted; so is the landmark
    y = 2 under the bound ymax = 1.9999999999999998 on a height of 3, the
    two quotients being the same float. A landmark left of the box is
    rejected. *)
Lemma C3_landmarks_swapped_in_box_witness :
  scenario_run = (Ok (result_value ∅ scenario_run.1), scenario_run.2) ∧
  result_value ∅ scenario_run.1 !! "landmarks" = Some (FloatList
    [fdiv (qz 100) (Qc_of_Z 500); fdiv (qz 150) (Qc_of_Z 400);
     fdiv (qz 100) (Qc_of_Z 500); fdiv (qz 250) (Qc_of_Z 400);
     fdiv (qz 150) (Qc_of_Z 500); fdiv (qz 200) (Qc_of_Z 400);
     fdiv (qz 200) (Qc_of_Z 500); fdiv (qz 160) (Qc_of_Z 400);
     fdiv (qz 200) (Qc_of_Z 500); fdiv (qz 240) (Qc_of_Z 400)]) ∧
  fdiv (qz 100) (Qc_of_Z 500) = Q2Qc (3602879701896397 # 18014398509481984) ∧
  fdiv (qz 150) (Qc_of_Z 400) = Q2Qc (3 # 8) ∧
  (∃ ex, dict_to_tf_example pil_400x500 corner_annotation "images" images_world
         = (Ok ex, after_read corner_annotation "images" images_world)) ∧
  (∃ ex, dict_to_tf_example pil_3x3 rounded_bound_annotation "images" images_world
         = (Ok ex, after_read rounded_bound_annotation "images" images_world)) ∧
  ∃ e, (dict_to_tf_example pil_400x500 outside_annotation "images" images_world).1
       = Raise e.
Proof.
  split; [exact scenario_run_Ok|]. split_and!.
  - apply (proj1 (C3_landmarks_swapped_in_box pil_400x500 scenario_annotation
                    "images" images_world) _ _ scenario_run_Ok).
    reflexivity.
  - apply Qc_is_canon; vm_compute; reflexivity.
  - apply Qc_is_canon; vm_compute; reflexivity.
  - assert ((ymin_of corner_annotation < ymax_of corner_annotation)%Qc) as Hy
      by qc_compare.
    assert ((xmin_of corner_annotation < xmax_of corner_annotation)%Qc) as Hx
      by qc_compare.
    destruct (proj1 (proj2 (C3_landmarks_swapped_in_box pil_400x500 corner_annotation
                              "images" images_world))
                _ corner_checks_pass Hy Hx) as [Hcorner Haccept].
    apply Haccept. repeat constructor.
    + apply Hcorner; by left.
    + apply Hcorner; by right.
    + eexists _, _. split; [reflexivity|]. split; split; qc_compare.
  - assert ((ymin_of rounded_bound_annotation < ymax_of rounded_bound_annotation)%Qc)
      as Hy by qc_compare.
    assert ((xmin_of rounded_bound_annotation < xmax_of rounded_bound_annotation)%Qc)
      as Hx by qc_compare.
    apply (proj2 (proj1 (proj2 (C3_landmarks_swapped_in_box pil_3x3
                                  rounded_bound_annotation "images" images_world))
                    _ rounded_bound_checks_pass Hy Hx)).
    repeat constructor. eexists _, _. split; [reflexivity|]. split; split; qc_compare.
  - apply (proj2 (proj2 (C3_landmarks_swapped_in_box pil_400x500 outside_annotation
                           "images" images_world)) (qz 50) (qz 100)).
    + apply list_elem_of_here.
    + intros [_ [Hx _]]. revert Hx. qc_compare.
Defined.

(** A box reaching beyond the image is accepted with xmax = 1.25. *)
Lemma C4_counterexample :
  wide_run = (Ok (result_value ∅ wide_run.1), wide_run.2) ∧
  result_value ∅ wide_run.1 !! "xmax" = Some (_float_feature (Q2Qc 1.25)) ∧
  ¬ (Q2Qc 1.25 ≤ 1)%Qc.
Proof.
  split; [vm_compute; reflexivity|]. split.
  - assert (result_value ∅ wide_run.1 !! "xmax"
            = Some (_float_feature (fdiv (qz 500) (Qc_of_Z 400)))) as ->
      by (vm_compute; reflexivity).
    do 2 f_equal. apply Qc_is_canon. vm_compute. reflexivity.
  - qc_compare.
Qed.

(** The scenario's box lies in the unit square. *)
Lemma C4_box_strict_and_conditionally_in_unit_square_witness :
  scenario_run = (Ok (result_value ∅ scenario_run.1), scenario_run.2) ∧
  ∃ xmin xmax ymin ymax : Qc,
    result_value ∅ scenario_run.1 !! "xmin" = Some (_float_feature xmin) ∧
    result_value ∅ scenario_run.1 !! "xmax" = Some (_float_feature xmax) ∧
    result_value ∅ scenario_run.1 !! "ymin" = Some (_float_feature ymin) ∧
    result_value ∅ scenario_run.1 !! "ymax" = Some (_float_feature ymax) ∧
    (0 ≤ xmin < xmax)%Qc ∧ (xmax ≤ 1)%Qc ∧ (0 ≤ ymin < ymax)%Qc ∧ (ymax ≤ 1)%Qc.
Proof.
  pose proof scenario_run_Ok as Hrun.
  split; [exact Hrun|].
  destruct (C4_box_strict_and_conditionally_in_unit_square pil_400x500
              scenario_annotation "images" images_world _ _ Hrun)
    as (xmin & xmax & ymin & ymax & H1 & H2 & H3 & H4 & Hx & Hy & Hx0 & Hy0 & Hx1 & Hy1).
  exists xmin, xmax, ymin, ymax.
  split; [exact H1|]. split; [exact H2|]. split; [exact H3|]. split; [exact H4|].
  split; [split; [apply Hx0; qc_compare | exact Hx]|].
  split; [apply Hx1; qc_compare|].
  split; [split; [apply Hy0; qc_compare | exact Hy]|].
  apply Hy1; qc_compare.
Defined.

(** Two worlds with the same image give the same record. *)
Lemma C9_validator_deterministic_witness :
  (dict_to_tf_example pil_400x500 scenario_annotation "images" images_world).1
  = (dict_to_tf_example pil_400x500 scenario_annotation "images" images_world').1 ∧
  fs (dict_to_tf_example pil_400x500 scenario_annotation "images" images_world).2
  = fs images_world.
Proof.
  destruct (C9_validator_deterministic pil_400x500 scenario_annotation "images"
              images_world images_world') as (H1 & H2 & _).
  - vm_compute; reflexivity.
  - split; [exact H1 | exact H2].
Defined.

Lemma two_landmarks_checks_pass :
  image_checks_pass pil_400x500 two_landmarks_annotation "images" images_world
    [Byte.xff; Byte.xd8].
Proof.
  split; [reflexivity|]. split; [by exists [[Byte.xff; Byte.xd8]]|].
  split; [|done]. by eexists.
Qed.

Lemma rounded_box_checks_pass :
  image_checks_pass pil_3x3 rounded_box_annotation "images" images_world
    [Byte.xff; Byte.xd8].
Proof.
  split; [reflexivity|]. split; [by exists [[Byte.xff; Byte.xd8]]|].
  split; [|done]. by eexists.
Qed.

(** The box from 1.9999999999999998 to 2 on a width of 3 is strictly
    ordered in pixels; its normalized xmin and xmax are the same float and
    the assertion of line 92 fails. *)
Lemma rounded_box_rejected :
  (box_xmin (ann_box rounded_box_annotation)
   < box_xmax (ann_box rounded_box_annotation))%Qc ∧
  xmin_of rounded_box_annotation = xmax_of rounded_box_annotation ∧
  dict_to_tf_example pil_3x3 rounded_box_annotation "images" images_world
  = (Raise (AssertionError 92), after_read rounded_box_annotation "images" images_world).
Proof.
  split; [qc_compare|]. split; [apply Qc_is_canon; vm_compute; reflexivity|].
  rewrite (dict_after_checks _ _ _ _ _ rounded_box_checks_pass). reflexivity.
Qed.

(** An annotation with two landmarks is accepted, with the four floats
    0.2, 0.375, 0.2, 0.625. *)
Lemma C10_landmark_count_unchecked_witness :
  ∃ ex,
    dict_to_tf_example pil_400x500 two_landmarks_annotation "images" images_world
    = (Ok ex, after_read two_landmarks_annotation "images" images_world) ∧
    ex !! "landmarks" = Some (FloatList
      [float_of_decimal 0.2; float_of_decimal 0.375;
       float_of_decimal 0.2; float_of_decimal 0.625]).
Proof.
  destruct (C10_landmark_count_unchecked pil_400x500 two_landmarks_annotation "images"
              images_world _ two_landmarks_checks_pass) as (ex & Hrun & Hlm & _).
  - qc_compare.
  - qc_compare.
  - repeat constructor; eexists _, _; (split; [reflexivity|]); split; split; qc_compare.
  - exists ex. split; [exact Hrun|]. rewrite Hlm. vm_compute. reflexivity.
Defined.

(** ** The run *)

(** *** Strings and paths *)

Lemma append_cons (c : ascii) (s t : string) : String c s ++ t = String c (s ++ t).
Proof. reflexivity. Qed.

Lemma append_nil_l (t : string) : EmptyString ++ t = t.
Proof. reflexivity. Qed.

Ltac string_simpl := rewrite ?append_cons, ?append_nil_l in *.

Lemma append_nil_r (s : string) : s ++ EmptyString = s.
Proof. induction s as [|c s IH]; string_simpl; [done | by f_equal]. Qed.

Lemma append_assoc (s t u : string) : (s ++ t) ++ u = s ++ t ++ u.
Proof. induction s as [|c s IH]; string_simpl; [done | by f_equal]. Qed.

Lemma length_append (s t : string) :
  String.length (s ++ t) = (String.length s + String.length t)%nat.
Proof. induction s as [|c s IH]; string_simpl; simpl; [done | by f_equal]. Qed.

Lemma append_inv_r (s1 s2 t : string) : s1 ++ t = s2 ++ t → s1 = s2.
Proof.
  revert s2. induction s1 as [|c s1 IH]; intros [|c2 s2] H; string_simpl.
  - done.
  - apply (f_equal String.length) in H. simpl in H. rewrite length_append in H. lia.
  - apply (f_equal String.length) in H. simpl in H. rewrite length_append in H. lia.
  - injection H as -> H. f_equal. by apply IH.
Qed.

Lemma strip_prefix_append (p s : string) : strip_prefix p (p ++ s) = Some s.
Proof.
  induction p as [|c p IH]; string_simpl; simpl; [done|]. by rewrite Ascii.eqb_refl.
Qed.

Lemma strip_prefix_Some (p k s : string) : strip_prefix p k = Some s → k = p ++ s.
Proof.
  revert k. induction p as [|c p IH]; intros k; simpl.
  - by intros [= ->].
  - destruct k as [|c' k]; [done|].
    destruct (Ascii.eqb_spec c c') as [->|]; [|done].
    intros H. string_simpl. by rewrite <- (IH _ H).
Qed.

(** Joining a directory with a relative name appends the name to the
    directory's prefix. *)
Lemma os_path_join_relative (d p : string) :
  String.prefix "/" p = false → os_path_join d p = dir_prefix d ++ p.
Proof.
  intros Hp. unfold dir_prefix, os_path_join. rewrite Hp. simpl.
  destruct (String.eqb d EmptyString || endswith d "/").
  - by rewrite append_nil_r.
  - by rewrite append_nil_r, append_assoc.
Qed.

Lemma has_slash_append (s t : string) :
  has_slash (s ++ t) = has_slash s || has_slash t.
Proof.
  induction s as [|c s IH]; string_simpl; simpl; [done|]. rewrite IH. by rewrite orb_assoc.
Qed.

Lemma has_slash_digits (d : Decimal.uint) :
  has_slash (NilEmpty.string_of_uint d) = false.
Proof. induction d; simpl; done. Qed.

Lemma has_slash_zeros (k : nat) : has_slash (zeros k) = false.
Proof. induction k; simpl; done. Qed.

Lemma has_slash_format_04d (n : nat) : has_slash (format_04d n) = false.
Proof.
  unfold format_04d, str_of_nat. rewrite has_slash_append, has_slash_zeros. simpl.
  unfold NilZero.string_of_uint. destruct (Nat.to_uint n); try done;
    apply (has_slash_digits (_ _)).
Qed.

Lemma uint_of_string_zeros (k : nat) (s : string) (d : Decimal.uint) :
  NilEmpty.uint_of_string s = Some d →
  Nat.of_uint <$> NilEmpty.uint_of_string (zeros k ++ s) = Some (Nat.of_uint d).
Proof.
  intros Hs. induction k as [|k IH]; simpl; string_simpl; simpl; [by rewrite Hs|].
  destruct (NilEmpty.uint_of_string (zeros k ++ s)) as [d'|]; [|done].
  simpl in *. by injection IH as <-.
Qed.

Lemma parse_format_04d (n : nat) : parse_nat (format_04d n) = Some n.
Proof.
  unfold parse_nat, format_04d, str_of_nat.
  rewrite <- (DecimalNat.Unsigned.of_to n) at 3.
  destruct (Nat.to_uint n) eqn:Hd.
  1: by (simpl; reflexivity).
  all: apply uint_of_string_zeros; apply (NilEmpty.usu (_ _)).
Qed.

Lemma format_04d_inj (n m : nat) : format_04d n = format_04d m → n = m.
Proof.
  intros H. apply (f_equal parse_nat) in H. rewrite !parse_format_04d in H.
  by injection H.
Qed.

Lemma shard_name_inj (n m : nat) : shard_name n = shard_name m → n = m.
Proof.
  unfold shard_name. intros H%String.app_inj.
  by apply append_inv_r, format_04d_inj in H.
Qed.

Lemma shard_name_relative (j : nat) : String.prefix "/" (shard_name j) = false.
Proof. done. Qed.

Lemma shard_path_eq (out : string) (j : nat) :
  shard_path out j = dir_prefix out ++ shard_name j.
Proof. apply os_path_join_relative, shard_name_relative. Qed.

Lemma shard_path_inj (out : string) (i j : nat) :
  shard_path out i = shard_path out j → i = j.
Proof.
  rewrite !shard_path_eq. intros H. by apply String.app_inj, shard_name_inj in H.
Qed.

Lemma entry_name_shard (out : string) (j : nat) :
  entry_name out (shard_path out j) = Some (shard_name j).
Proof.
  unfold entry_name. rewrite shard_path_eq, strip_prefix_append.
  assert (has_slash (shard_name j) = false) as ->.
  { unfold shard_name. rewrite !has_slash_append, has_slash_format_04d. done. }
  done.
Qed.

Lemma entry_name_inside (d k name : string) :
  entry_name d k = Some name → inside d k = true ∧ k = dir_prefix d ++ name.
Proof.
  unfold entry_name, inside. destruct (strip_prefix _ _) as [s|] eqn:Hs; [|done].
  destruct (negb (String.eqb s EmptyString)) eqn:Hne; [|done]. simpl.
  destruct (negb (has_slash s)); [|done]. intros [= <-].
  split; [done|]. by apply strip_prefix_Some.
Qed.

Lemma inside_shard (out : string) (j : nat) : inside out (shard_path out j) = true.
Proof. by destruct (entry_name_inside _ _ _ (entry_name_shard out j)). Qed.

Lemma dir_prefix_cases (d : string) : dir_prefix d = d ∨ dir_prefix d = d ++ "/".
Proof.
  unfold dir_prefix, os_path_join. simpl.
  destruct (_ || _); rewrite append_nil_r; auto.
Qed.

Lemma inside_irrefl (d : string) : inside d d = false.
Proof.
  unfold inside. destruct (strip_prefix _ _) as [s|] eqn:Hs; [|done].
  apply strip_prefix_Some in Hs. apply (f_equal String.length) in Hs.
  destruct (dir_prefix_cases d) as [Hp|Hp]; rewrite Hp, !length_append in Hs.
  - destruct s; [done|]. simpl in Hs. lia.
  - simpl in Hs. lia.
Qed.

Lemma shard_path_not_out (out : string) (j : nat) : shard_path out j ≠ out.
Proof.
  intros H. pose proof (inside_shard out j) as Hin. rewrite H in Hin.
  by rewrite inside_irrefl in Hin.
Qed.

(** *** Runs of consecutive records *)

Lemma chunk_snoc {A} (cap sid nw j : nat) (recs : list A) (r : A) :
  length recs = (sid * cap + nw)%nat → (nw < cap)%nat →
  chunk cap j (recs ++ [r])
  = if decide (j = sid) then (chunk cap j recs ++ [r])%list else chunk cap j recs.
Proof.
  intros Hlen Hnw. unfold chunk. case_decide as Hj.
  - subst j. rewrite drop_app_le by lia.
    rewrite take_app_ge by (rewrite length_drop; lia).
    rewrite (take_ge (drop _ _)) by (rewrite length_drop; lia).
    f_equal. rewrite length_drop. replace (cap - _)%nat with (S (cap - nw - 1)) by lia.
    simpl. by rewrite take_nil.
  - destruct (decide (j < sid)%nat).
    + assert (j * cap + cap ≤ sid * cap)%nat by nia.
      rewrite drop_app_le by lia. rewrite take_app_le by (rewrite length_drop; lia). done.
    + assert (sid * cap + cap ≤ j * cap)%nat by nia.
      rewrite !drop_ge; [done | lia | rewrite length_app; simpl; lia].
Qed.

Lemma chunk_length {A} (cap j : nat) (recs : list A) :
  length (chunk cap j recs) = (cap `min` (length recs - j * cap))%nat.
Proof. unfold chunk. by rewrite length_take, length_drop. Qed.

Lemma chunks_needed_spec (cap n k : nat) :
  (0 < cap)%nat → (k * cap < n + cap)%nat → (n ≤ k * cap)%nat →
  chunks_needed cap n = k.
Proof.
  intros Hcap Hlo Hhi. unfold chunks_needed.
  symmetry. apply (Nat.div_unique _ _ _ (n + cap - 1 - k * cap)); lia.
Qed.

Lemma chunks_needed_bounds (cap n : nat) :
  (0 < cap)%nat →
  (chunks_needed cap n * cap < n + cap)%nat ∧ (n ≤ chunks_needed cap n * cap)%nat.
Proof.
  intros Hcap. unfold chunks_needed.
  pose proof (Nat.div_mod_eq (n + cap - 1) cap) as Hdm.
  pose proof (Nat.mod_upper_bound (n + cap - 1) cap) as Hm. lia.
Qed.

Lemma join_chunks {A} (cap k : nat) (recs : list A) :
  mjoin ((λ j, chunk cap j recs) <$> seq 0 k) = take (k * cap) recs.
Proof.
  induction k as [|k IH]; [done|].
  rewrite seq_S, fmap_app, join_app, IH. simpl. rewrite app_nil_r.
  unfold chunk. rewrite <- (take_drop (k * cap) (take (cap + k * cap) recs)).
  rewrite take_take, Nat.min_l by lia. f_equal.
  by rewrite take_drop_commute, (Nat.add_comm cap).
Qed.


Ltac io_unfold :=
  cbv beta iota delta [bind ret raise lift assert_ log gfile_read open_read
                       TFRecordWriter writer_write writer_close
                       os_listdir shutil_rmtree os_mkdir] in *;
  cbn [fs trace fst snd] in *.

Section Loop.
Variable json_load : bytes → result Annotation.
Variable PIL_Image_open : bytes → result PILImage.
Variable SerializeToString : Example → bytes.
Variable ARGS : Args.

Abbreviation body := (loop_body json_load PIL_Image_open SerializeToString ARGS).
Abbreviation sp := (shard_path (output ARGS)).

(** What one successful iteration does. *)
Lemma loop_body_Ok (shard_size : Z) (example : string) (v v' : loop_vars)
    (w w' : world) :
  body shard_size example v w = (Ok v', w') →
  ∃ (p : string) (a : Annotation) (ex : Example),
    let r := SerializeToString ex in
    let first := (num_examples_written v =? 0)%nat in
    let last := Z.of_nat (num_examples_written v + 1) =? shard_size in
    (if first then p = sp (shard_id v) else writer v = Some p) ∧
    trace w' = (trace w ++ (if first then [EOpenWriter p] else []) ++
                [EOpen (os_path_join (annotations_dir ARGS) example);
                 ERead (image_path a (image_dir ARGS)); EWrite p r] ++
                (if last then [ECloseWriter p] else []))%list ∧
    fs w' = <[p := File ((if first then [] else file_chunks (fs w !! p)) ++ [r])]> (fs w) ∧
    v' = (if last then LoopVars (shard_id v + 1) 0 (Some p)
          else LoopVars (shard_id v) (num_examples_written v + 1) (Some p)).
Proof.
  unfold loop_body. fold (sp (shard_id v)).
  io_unfold. intros H.
  destruct (num_examples_written v =? 0)%nat; cbn [fs trace] in H.
  - destruct (_ !! os_path_join (annotations_dir ARGS) example) as [[|chunks]|];
      [done| |done].
    destruct (json_load (concat chunks)) as [a|]; [|done].
    destruct (dict_to_tf_example PIL_Image_open a (image_dir ARGS) _)
      as [[ex|] w3] eqn:Hdict; [|done].
    apply dict_Ok_spec in Hdict as (_ & _ & _ & _ & _ & _ & ->).
    unfold after_read in H. cbn [fs trace] in H.
    rewrite lookup_insert_eq, insert_insert_eq in H. cbn [file_chunks] in H.
    exists (sp (shard_id v)), a, ex.
    destruct (_ =? shard_size); cbn [fs trace] in H;
      inversion H; subst v' w'; cbn [fs trace];
      split_and!; try done; by rewrite <- !app_assoc.
  - destruct (_ !! os_path_join (annotations_dir ARGS) example) as [[|chunks]|];
      [done| |done].
    destruct (json_load (concat chunks)) as [a|]; [|done].
    destruct (dict_to_tf_example PIL_Image_open a (image_dir ARGS) _)
      as [[ex|] w3] eqn:Hdict; [|done].
    apply dict_Ok_spec in Hdict as (_ & _ & _ & _ & _ & _ & ->).
    unfold after_read in H. cbn [fs trace] in H.
    destruct (writer v) as [p|]; [|done].
    exists p, a, ex.
    destruct (_ =? shard_size); cbn [fs trace] in H;
      inversion H; subst v' w'; cbn [fs trace];
      split_and!; try done; by rewrite <- !app_assoc.
Qed.

Lemma loop_inv_init (cap : nat) (fs0 : gmap string node) :
  (0 < cap)%nat →
  loop_inv (annotations_dir ARGS) (output ARGS) cap fs0 [] [] (LoopVars 0 0 None) fs0.
Proof.
  intros Hcap. split; cbn; try done; try lia.
  unfold chunks_needed. rewrite Nat.div_small by lia. done.
Qed.

Lemma arrivals_of_snoc (anndir out : string) (cap : nat) (es : list string)
    (recs : list bytes) (e : string) (r : bytes) :
  length es = length recs →
  arrivals_of anndir out cap (es ++ [e]) (recs ++ [r])
  = (arrivals_of anndir out cap es recs ++
     [Entry (os_path_join anndir e); Written (shard_path out (length recs / cap)) r])%list.
Proof.
  intros Hlen. unfold arrivals_of.
  rewrite zip_with_app by done. rewrite imap_app, join_app. cbn.
  rewrite ?app_nil_r, Nat.add_0_r, length_zip_with, Hlen, Nat.min_id. done.
Qed.

(** One successful iteration keeps the invariant and writes one record. *)
Lemma loop_body_inv (cap : nat) (fs0 : gmap string node) (done : list string)
    (tr0 tr : list event) (example : string) (v v' : loop_vars) (w w' : world) :
  loop_inv (annotations_dir ARGS) (output ARGS) cap fs0 done tr v (fs w) →
  trace w = (tr0 ++ tr)%list →
  body (Z.of_nat cap) example v w = (Ok v', w') →
  ∃ tr', trace w' = (tr0 ++ tr')%list ∧
         loop_inv (annotations_dir ARGS) (output ARGS) cap fs0 (done ++ [example]) tr'
           v' (fs w').
Proof.
  intros [Hcount Hdone Hbelow Hwriter Harr Hwrites Hopened Hshards Hother] Htr Hbody.
  apply loop_body_Ok in Hbody as (p & a & ex & Hp & Htr' & Hfs' & Hv').
  assert ((Z.of_nat (num_examples_written v + 1) =? Z.of_nat cap)
          = (num_examples_written v + 1 =? cap)%nat) as Hlast.
  { destruct (Nat.eqb_spec (num_examples_written v + 1) cap),
      (Z.eqb_spec (Z.of_nat (num_examples_written v + 1)) (Z.of_nat cap)); try done; lia. }
  rewrite Hlast in Htr', Hv'. clear Hlast.
  set (r := SerializeToString ex) in *.
  set (sid := shard_id v) in *. set (nw := num_examples_written v) in *.
  set (recs := records_written tr) in *.
  assert (p = sp sid) as ->.
  { destruct (Nat.eqb_spec nw 0); [done|]. rewrite Hwriter in Hp by done. by injection Hp. }
  set (pre := if (nw =? 0)%nat then [EOpenWriter (sp sid)] else []) in *.
  set (post := if (nw + 1 =? cap)%nat then [ECloseWriter (sp sid)] else []) in *.
  set (mid := [EOpen (os_path_join (annotations_dir ARGS) example);
               ERead (image_path a (image_dir ARGS)); EWrite (sp sid) r]) in *.
  exists (tr ++ pre ++ mid ++ post)%list.
  assert (Hrecs' : records_written (tr ++ pre ++ mid ++ post) = (recs ++ [r])%list).
  { unfold records_written. rewrite !omap_app. fold (records_written tr). fold recs.
    subst pre post. by destruct (nw =? 0)%nat, (nw + 1 =? cap)%nat. }
  assert (Hwr' : writes (tr ++ pre ++ mid ++ post) = (writes tr ++ [(sp sid, r)])%list).
  { unfold writes. rewrite !omap_app.
    subst pre post. by destruct (nw =? 0)%nat, (nw + 1 =? cap)%nat. }
  assert (Harr' : arrivals (tr ++ pre ++ mid ++ post)
                  = (arrivals tr ++
                     [Entry (os_path_join (annotations_dir ARGS) example);
                      Written (sp sid) r])%list).
  { unfold arrivals. rewrite !omap_app.
    subst pre post. by destruct (nw =? 0)%nat, (nw + 1 =? cap)%nat. }
  assert (Hop' : opened (tr ++ pre ++ mid ++ post)
                 = (opened tr ++ if (nw =? 0)%nat then [sp sid] else [])%list).
  { unfold opened. rewrite !omap_app.
    subst pre post. by destruct (nw =? 0)%nat, (nw + 1 =? cap)%nat. }
  split; [by rewrite Htr', Htr, <- app_assoc|].
  assert (Hdiv : (length recs / cap = sid)%nat).
  { symmetry. apply (Nat.div_unique _ _ _ nw); lia. }
  split; rewrite ?Hrecs', ?length_app; cbn [length].
  - rewrite Hv'. destruct (Nat.eqb_spec (nw + 1) cap); cbn; lia.
  - lia.
  - rewrite Hv'. destruct (Nat.eqb_spec (nw + 1) cap); cbn; lia.
  - rewrite Hv'. destruct (Nat.eqb_spec (nw + 1) cap); cbn; [done|]. by intros _.
  - rewrite Harr', Harr, arrivals_of_snoc by done. by rewrite Hdiv.
  - rewrite Hwr', Hwrites, imap_app. cbn. by rewrite Nat.add_0_r, Hdiv.
  - rewrite Hop', Hopened. destruct (Nat.eqb_spec nw 0) as [Hz|Hnz].
    + rewrite (chunks_needed_spec cap (length recs) sid) by lia.
      rewrite (chunks_needed_spec cap (length recs + 1) (S sid)) by lia.
      by rewrite seq_S, fmap_app.
    + rewrite (chunks_needed_spec cap (length recs) (S sid)) by lia.
      rewrite (chunks_needed_spec cap (length recs + 1) (S sid)) by lia.
      by rewrite app_nil_r.
  - intros j Hj. rewrite Hfs'.
    rewrite (chunk_snoc cap sid nw j recs r) by lia.
    case_decide as Hjs.
    + subst j. rewrite lookup_insert_eq. do 3 f_equal.
      destruct (Nat.eqb_spec nw 0) as [Hz|Hnz].
      * unfold chunk. rewrite drop_ge by lia. by rewrite take_nil.
      * rewrite Hshards by lia. done.
    + rewrite lookup_insert_ne by (intros Heq; by apply shard_path_inj in Heq).
      apply Hshards. destruct (decide (j < sid)%nat); nia.
  - intros q Hq. rewrite Hfs'.
    rewrite lookup_insert_ne by (apply not_eq_sym, Hq; lia).
    apply Hother. intros j Hj. apply Hq. lia.
Qed.
End Loop.

(** *** The capacity *)

Lemma math_ceil_div (n s : Z) :
  0 < s → math_ceil (Qc_of_Z n / Qc_of_Z s)%Qc = ceil_div n s.
Proof.
  intros Hs. unfold math_ceil, ceil_div.
  assert (this (Qc_of_Z n / Qc_of_Z s)%Qc == inject_Z n / inject_Z s)%Q as ->.
  { unfold Qcdiv, Qcmult, Qcinv, Q2Qc, Qc_of_Z. cbn [this].
    rewrite !Qred_correct. reflexivity. }
  unfold Qceiling.
  assert (- (inject_Z n / inject_Z s) == inject_Z (- n) / inject_Z s)%Q as ->.
  { rewrite inject_Z_opp. unfold Qdiv. ring. }
  rewrite <- Zdiv_Qdiv.
  pose proof (Z.div_mod (- n) s ltac:(lia)) as H1.
  pose proof (Z.mod_pos_bound (- n) s Hs) as H2.
  pose proof (Z.div_mod (n + s - 1) s ltac:(lia)) as H3.
  pose proof (Z.mod_pos_bound (n + s - 1) s Hs) as H4.
  nia.
Qed.

Lemma ceil_div_bounds (n s : Z) :
  0 < s → (ceil_div n s - 1) * s < n ≤ ceil_div n s * s.
Proof.
  intros Hs. unfold ceil_div.
  pose proof (Z.div_mod (n + s - 1) s ltac:(lia)) as H3.
  pose proof (Z.mod_pos_bound (n + s - 1) s Hs) as H4.
  nia.
Qed.

(** With capacity ceil(n / s), at most [s] runs are needed. *)
Lemma chunks_needed_le (n : nat) (s : Z) :
  0 < s → (0 < n)%nat →
  let cap := Z.to_nat (ceil_div (Z.of_nat n) s) in
  (0 < cap)%nat ∧ (0 < chunks_needed cap n)%nat ∧ Z.of_nat (chunks_needed cap n) ≤ s.
Proof.
  intros Hs Hn cap.
  pose proof (ceil_div_bounds (Z.of_nat n) s Hs) as [Hlo Hhi].
  assert (0 < ceil_div (Z.of_nat n) s) as Hpos by nia.
  assert (Hcap : (0 < cap)%nat) by (subst cap; lia).
  split; [done|].
  destruct (chunks_needed_bounds cap n Hcap) as [Hk1 Hk2].
  assert (Z.of_nat cap = ceil_div (Z.of_nat n) s) as Hc by (subst cap; lia).
  split; [nia|].
  apply Z.nlt_ge. intros Hgt.
  assert (Z.of_nat n ≤ Z.of_nat cap * s) by (rewrite Hc; lia).
  nia.
Qed.

(** *** The shuffle *)

Lemma swap_length {A} (x : list A) (i j : nat) : length (swap x i j) = length x.
Proof.
  unfold swap. destruct (x !! i), (x !! j); try done. by rewrite !length_insert.
Qed.

Lemma shuffle_from_length {A} (rnd : nat → nat) (i : nat) (x : list A) :
  length (shuffle_from rnd i x) = length x.
Proof.
  revert x. induction i as [|i IH]; intros x; simpl; [done|].
  by rewrite IH, swap_length.
Qed.

Lemma random_shuffle_length {A} (rnd : nat → nat) (x : list A) :
  length (random_shuffle rnd x) = length x.
Proof. apply shuffle_from_length. Qed.

Lemma swap_perm {A} (x : list A) (i j : nat) : swap x i j ≡ₚ x.
Proof.
  unfold swap. destruct (x !! i) as [a|] eqn:Hi; [|done].
  destruct (x !! j) as [b|] eqn:Hj; [|done].
  by apply Permutation_insert_swap.
Qed.

Lemma shuffle_from_perm {A} (rnd : nat → nat) (i : nat) (x : list A) :
  shuffle_from rnd i x ≡ₚ x.
Proof.
  revert x. induction i as [|i IH]; intros x; simpl; [done|].
  by rewrite IH, swap_perm.
Qed.

(** The shuffle rearranges: every element stays, each as often as before. *)
Lemma random_shuffle_perm {A} (rnd : nat → nat) (x : list A) :
  random_shuffle rnd x ≡ₚ x.
Proof. apply shuffle_from_perm. Qed.

(** *** The loop *)

Lemma for_loop_app {A S} (body : A → S → M S) (l1 l2 : list A) (s : S) (w : world) :
  for_loop body (l1 ++ l2) s w
  = (s' <- for_loop body l1 s ;; for_loop body l2 s')%py w.
Proof.
  revert s w. induction l1 as [|x l1 IH]; intros s w; simpl; [done|].
  unfold bind. destruct (body x s w) as [[s1|e] w1]; [|done].
  rewrite IH. done.
Qed.

(** A failing iteration ends the loop: what comes after it in the list is
    never looked at. *)
Lemma for_loop_raise {A S} (body : A → S → M S) (l1 l2 : list A) (x : A)
    (s s1 : S) (w w1 w2 : world) (e : exn) :
  for_loop body l1 s w = (Ok s1, w1) →
  body x s1 w1 = (Raise e, w2) →
  for_loop body (l1 ++ x :: l2) s w = (Raise e, w2).
Proof.
  intros H1 H2. rewrite for_loop_app. unfold bind. rewrite H1. simpl.
  unfold bind. by rewrite H2.
Qed.


Section Main.
Variable json_load : bytes → result Annotation.
Variable PIL_Image_open : bytes → result PILImage.
Variable SerializeToString : Example → bytes.
Variable ARGS : Args.

Abbreviation body := (loop_body json_load PIL_Image_open SerializeToString ARGS).
Abbreviation sp := (shard_path (output ARGS)).

(** Successful iterations keep the invariant, one entry after the other. *)
Lemma for_loop_inv (cap : nat) (fs0 : gmap string node) (tr0 : list event)
    (es done : list string) (tr : list event) (v v' : loop_vars) (w w' : world) :
  loop_inv (annotations_dir ARGS) (output ARGS) cap fs0 done tr v (fs w) →
  trace w = (tr0 ++ tr)%list →
  for_loop (body (Z.of_nat cap)) es v w = (Ok v', w') →
  ∃ tr', trace w' = (tr0 ++ tr')%list ∧
         loop_inv (annotations_dir ARGS) (output ARGS) cap fs0 (done ++ es) tr' v' (fs w').
Proof.
  revert done tr v w. induction es as [|e es IH]; intros done tr v w Hinv Htr; simpl.
  - intros [= <- <-]. exists tr. by rewrite app_nil_r.
  - unfold bind. destruct (body _ e v w) as [[v1|x] w1] eqn:Hbody; [|done].
    intros Hrest.
    destruct (loop_body_inv _ _ _ _ _ _ _ _ _ _ _ _ _ _ Hinv Htr Hbody)
      as (tr1 & Htr1 & Hinv1).
    destruct (IH _ _ _ _ Hinv1 Htr1 Hrest) as (tr' & Htr' & Hinv').
    exists tr'. by rewrite (app_assoc done [e] es : (done ++ e :: es = (done ++ [e]) ++ es)%list).
Qed.

(** The entries a successful loop opens are its list, in order, whatever
    the capacity. *)
Lemma for_loop_entries (shard_size : Z) (es : list string) (v v' : loop_vars)
    (w w' : world) :
  for_loop (body shard_size) es v w = (Ok v', w') →
  ∃ tr, trace w' = (trace w ++ tr)%list ∧
        entries_opened tr = os_path_join (annotations_dir ARGS) <$> es.
Proof.
  revert v w. induction es as [|e es IH]; intros v w; simpl.
  - intros [= <- <-]. exists []. by rewrite app_nil_r.
  - unfold bind. destruct (body _ e v w) as [[v1|x] w1] eqn:Hbody; [|done].
    intros Hrest. apply loop_body_Ok in Hbody as (p & a & ex & _ & Htr1 & _).
    destruct (IH _ _ Hrest) as (tr & Htr & Hentries).
    eexists. split; [by rewrite Htr, Htr1, <- app_assoc|].
    unfold entries_opened in *. rewrite !omap_app, Hentries.
    by destruct (num_examples_written v =? 0)%nat, (_ =? shard_size).
Qed.

Lemma main_unfold (rnd : nat → nat) (w : world) :
  main json_load PIL_Image_open SerializeToString ARGS rnd w
  = (x <- main_setup ARGS rnd ;;
     v <- for_loop (body x.2) x.1 (LoopVars 0 0 None) ;;
     main_finish v)%py w.
Proof.
  unfold main, main_setup, main_finish. io_unfold. simpl.
  destruct (fs w !! annotations_dir ARGS) as [[|?]|]; [|reflexivity..]. simpl.
  destruct (num_shards ARGS =? 0); [reflexivity|]. simpl.
  destruct (removed_tree (output ARGS) (fs w) !! output ARGS); reflexivity.
Qed.

Lemma main_setup_Ok (rnd : nat → nat) (w w1 : world) (es : list string) (ss : Z) :
  main_setup ARGS rnd w = (Ok (es, ss), w1) →
  fs w !! annotations_dir ARGS = Some Dir ∧
  es = random_shuffle rnd (dir_entries (annotations_dir ARGS) w) ∧
  num_shards ARGS ≠ 0 ∧
  ss = math_ceil (Qc_of_Z (Z.of_nat (length es)) / Qc_of_Z (num_shards ARGS))%Qc ∧
  removed_tree (output ARGS) (fs w) !! output ARGS = None ∧
  w1 = World (<[output ARGS := Dir]> (removed_tree (output ARGS) (fs w)))
             (trace w ++ [EListdir (annotations_dir ARGS); ERmtree (output ARGS);
                          EMkdir (output ARGS)]).
Proof.
  unfold main_setup. io_unfold. unfold dir_entries. simpl.
  destruct (fs w !! annotations_dir ARGS) as [[|?]|]; [|done..]. simpl.
  destruct (Z.eqb_spec (num_shards ARGS) 0) as [|Hs]; [done|]. simpl.
  destruct (removed_tree (output ARGS) (fs w) !! output ARGS); [done|].
  intros [= <- <- <-]. split_and!; try done. by rewrite <- !app_assoc.
Qed.

Lemma removed_tree_lookup (d k : string) (f : gmap string node) :
  f !! d = Some Dir →
  removed_tree d f !! k = if decide (k = d ∨ inside d k = true) then None else f !! k.
Proof.
  intros Hd. unfold removed_tree. rewrite Hd. case_decide as Hk.
  - apply map_lookup_filter_None. right. intros n _ [Hne Hin]. simpl in *.
    destruct Hk; congruence.
  - destruct (f !! k) as [n|] eqn:Hfk.
    + apply map_lookup_filter_Some. split; [done|]. simpl.
      split; [naive_solver|]. destruct (inside d k); naive_solver.
    + apply map_lookup_filter_None. by left.
Qed.

Lemma trace_since_app (w w' : world) (added : list event) :
  trace w' = (trace w ++ added)%list → trace_since w w' = added.
Proof. intros H. unfold trace_since. by rewrite H, drop_app_length. Qed.

(** What a successful run with a positive shard count leaves behind. *)
Lemma main_Ok_facts (rnd : nat → nat) (w w' : world) :
  main json_load PIL_Image_open SerializeToString ARGS rnd w = (Ok (), w') →
  0 < num_shards ARGS →
  let es := random_shuffle rnd (dir_entries (annotations_dir ARGS) w) in
  let N := length (dir_entries (annotations_dir ARGS) w) in
  let cap := Z.to_nat (ceil_div (Z.of_nat N) (num_shards ARGS)) in
  let run := trace_since w w' in
  let recs := records_written run in
  removed_tree (output ARGS) (fs w) !! output ARGS = None ∧
  length recs = N ∧
  arrivals run = arrivals_of (annotations_dir ARGS) (output ARGS) cap es recs ∧
  writes run = imap (λ i r, (sp (i / cap), r)) recs ∧
  opened run = sp <$> seq 0 (chunks_needed cap N) ∧
  (∀ j, (j * cap < N)%nat → fs w' !! sp j = Some (File (chunk cap j recs))) ∧
  (∀ p, (∀ j, (j * cap < N)%nat → p ≠ sp j) →
        fs w' !! p = <[output ARGS := Dir]> (removed_tree (output ARGS) (fs w)) !! p).
Proof.
  intros Hmain HS es0 N cap run recs. rewrite main_unfold in Hmain. unfold bind in Hmain.
  destruct (main_setup ARGS rnd w) as [[[es ss]|] w1] eqn:Hsetup; [|done].
  apply main_setup_Ok in Hsetup as (_ & Hes & _ & Hss & Hout & Hw1).
  fold es0 in Hes. subst es0.
  assert (HN : length es = N) by (by rewrite Hes, random_shuffle_length).
  rewrite HN, math_ceil_div in Hss by done.
  cbn [fst snd] in Hmain.
  destruct (for_loop _ es _ w1) as [[v|] w2] eqn:Hloop; [|done].
  split; [done|]. rewrite <- Hes.
  destruct es as [|e es'].
  - (* nothing to do *)
    simpl in Hloop. injection Hloop as <- <-. cbn in Hmain. injection Hmain as <-.
    assert (Hrun : run = [EListdir (annotations_dir ARGS); ERmtree (output ARGS);
                          EMkdir (output ARGS)]).
    { apply trace_since_app. by rewrite Hw1. }
    subst recs. rewrite Hrun. simpl in HN. rewrite <- HN. cbn.
    split_and!; try done.
    + assert (cap = 0%nat) as ->; [|done].
      subst cap. rewrite <- HN. unfold ceil_div. rewrite Z.div_small; lia.
    + intros j Hj. lia.
    + intros p _. by rewrite Hw1.
  - assert (0 < N)%nat as HNpos by (rewrite <- HN; simpl; lia).
    destruct (chunks_needed_le N (num_shards ARGS) HS HNpos) as (Hcap & _ & _).
    fold cap in Hcap.
    assert (ss = Z.of_nat cap) as ->.
    { subst cap ss. pose proof (ceil_div_bounds (Z.of_nat N) (num_shards ARGS) HS). nia. }
    destruct (for_loop_inv cap (fs w1) (trace w1) _ [] [] _ _ _ _
                (loop_inv_init ARGS cap (fs w1) Hcap) (eq_sym (app_nil_r _)) Hloop)
      as (tr' & Htr' &
          [Hcount Hdone Hbelow Hwriter Harr Hwrites Hopened Hshards Hother]).
    rewrite app_nil_l in Hdone, Harr.
    assert (Hlen : length (records_written tr') = N) by (by rewrite <- Hdone).
    assert (∃ fin, trace w' = (trace w2 ++ fin)%list ∧ fs w' = fs w2 ∧
                   records_written fin = [] ∧ writes fin = [] ∧ opened fin = [] ∧
                   arrivals fin = [])
      as (fin & Hfin & Hfs' & Hf1 & Hf2 & Hf3 & Hf4).
    { unfold main_finish in Hmain.
      destruct (num_examples_written v =? 0)%nat; cbn in Hmain.
      - injection Hmain as <-. exists []. by rewrite app_nil_r.
      - destruct (writer v) as [p|]; [|done]. cbn in Hmain. injection Hmain as <-.
        by exists [ECloseWriter p]. }
    assert (Hrun : run = ([EListdir (annotations_dir ARGS); ERmtree (output ARGS);
                           EMkdir (output ARGS)] ++ tr' ++ fin)%list).
    { apply trace_since_app. rewrite Hfin, Htr', Hw1. cbn [trace].
      by rewrite <- !app_assoc. }
    assert (Hrecs : recs = records_written tr').
    { subst recs. rewrite Hrun. unfold records_written in *.
      rewrite !omap_app, Hf1, app_nil_r. done. }
    rewrite Hrecs, Hfs'. split_and!.
    + done.
    + rewrite Hrun. unfold arrivals in *. rewrite !omap_app, Hf4, app_nil_r. cbn.
      exact Harr.
    + rewrite Hrun. unfold writes in *. rewrite !omap_app, Hf2, app_nil_r. cbn.
      exact Hwrites.
    + rewrite Hrun. unfold opened in *. rewrite !omap_app, Hf3, app_nil_r. cbn.
      by rewrite Hopened, Hlen.
    + intros j Hj. apply Hshards. by rewrite Hlen.
    + intros p Hp. rewrite Hother; [by rewrite Hw1|]. intros j Hj. apply Hp.
      by rewrite <- Hlen.
Qed.

Lemma reset_empty (d : string) (f : gmap string node) (k : string) :
  removed_tree d f !! d = None →
  (f !! d = None → ∀ k, inside d k = true → f !! k = None) →
  inside d k = true →
  <[d := Dir]> (removed_tree d f) !! k = None.
Proof.
  intros Hd Hwf Hk.
  assert (k ≠ d) as Hne by (intros ->; by rewrite inside_irrefl in Hk).
  rewrite lookup_insert_ne by done.
  destruct (f !! d) as [[|chunks]|] eqn:Hfd.
  - rewrite removed_tree_lookup by done. rewrite decide_True; auto.
  - unfold removed_tree in Hd. rewrite Hfd in Hd. congruence.
  - unfold removed_tree. rewrite Hfd. by apply Hwf.
Qed.

Lemma shard_sizes_eq (w w' : world) (cap k : nat) (recs : list bytes) :
  opened (trace_since w w') = sp <$> seq 0 k →
  (∀ j, (j < k)%nat → fs w' !! sp j = Some (File (chunk cap j recs))) →
  shard_sizes w w' = (λ j, length (chunk cap j recs)) <$> seq 0 k.
Proof.
  intros Hop Hfiles. unfold shard_sizes. rewrite Hop, <- list_fmap_compose.
  apply list_fmap_ext. intros i j Hj. simpl.
  apply lookup_seq in Hj as [-> Hlt]. by rewrite Hfiles.
Qed.


Lemma NoDup_omap_inj {A B} (f : A → option B) (l : list A) :
  (∀ x y z, f x = Some z → f y = Some z → x = y) → NoDup l → NoDup (omap f l).
Proof.
  intros Hinj. induction 1 as [|x l Hx Hl IH]; simpl; [constructor|].
  destruct (f x) as [z|] eqn:Hfx; [|done].
  constructor; [|done]. intros (y & Hy & Hfy)%list_elem_of_omap.
  by rewrite (Hinj _ _ _ Hfx Hfy) in Hx.
Qed.

Lemma entry_name_inj (d x y z : string) :
  entry_name d x = Some z → entry_name d y = Some z → x = y.
Proof.
  intros [_ ->]%entry_name_inside [_ ->]%entry_name_inside. done.
Qed.

Lemma elem_of_dir_entries (d name : string) (w : world) :
  name ∈ dir_entries d w ↔ ∃ k, is_Some (fs w !! k) ∧ entry_name d k = Some name.
Proof.
  unfold dir_entries. rewrite list_elem_of_omap. split.
  - intros (k & Hk & Hname). exists k. split; [|done].
    apply list_elem_of_fmap in Hk as ([k' n] & -> & Hin).
    apply elem_of_map_to_list in Hin. by exists n.
  - intros (k & [n Hn] & Hname). exists k. split; [|done].
    apply list_elem_of_fmap. exists (k, n). split; [done|].
    by apply elem_of_map_to_list.
Qed.

(** What the output directory holds after a successful run. *)
Lemma main_Ok_directory (rnd : nat → nat) (w w' : world) :
  main json_load PIL_Image_open SerializeToString ARGS rnd w = (Ok (), w') →
  0 < num_shards ARGS →
  absent_is_empty (output ARGS) w →
  let N := length (dir_entries (annotations_dir ARGS) w) in
  let cap := Z.to_nat (ceil_div (Z.of_nat N) (num_shards ARGS)) in
  let recs := records_written (trace_since w w') in
  fs w' !! output ARGS = Some Dir ∧
  (∀ k n, inside (output ARGS) k = true → fs w' !! k = Some n →
          ∃ j, (j * cap < N)%nat ∧ k = sp j ∧ n = File (chunk cap j recs)) ∧
  dir_entries (output ARGS) w' ≡ₚ shard_name <$> seq 0 (chunks_needed cap N).
Proof.
  intros Hrun HS Hwf N cap recs.
  destruct (main_Ok_facts rnd w w' Hrun HS)
    as (Hout & Hlen & _ & _ & _ & Hshards & Hother).
  fold N in Hlen, Hshards, Hother. fold cap in Hshards, Hother. fold recs in Hlen, Hshards.
  assert (Hcap0 : (0 < N → 0 < cap)%nat).
  { intros HNpos. by destruct (chunks_needed_le N (num_shards ARGS) HS HNpos). }
  assert (Hin : ∀ k n, inside (output ARGS) k = true → fs w' !! k = Some n →
                ∃ j, (j * cap < N)%nat ∧ k = sp j ∧ n = File (chunk cap j recs)).
  { intros k n Hk Hn.
    destruct (decide (k ∈ sp <$> seq 0 N)) as [Hel|Hnel].
    - apply list_elem_of_fmap in Hel as (j & -> & _).
      destruct (decide (j * cap < N)%nat) as [Hj|Hj].
      + exists j. rewrite Hshards in Hn by done. by injection Hn as <-.
      + rewrite Hother in Hn.
        * rewrite reset_empty in Hn; done.
        * intros j' Hj' Heq%shard_path_inj. by subst j'.
    - rewrite Hother in Hn.
      + rewrite reset_empty in Hn; done.
      + intros j Hj ->. apply Hnel, list_elem_of_fmap. exists j. split; [done|].
        apply elem_of_seq. specialize (Hcap0 ltac:(lia)). nia. }
  split_and!; [|exact Hin|].
  - rewrite Hother by (intros j _; apply not_eq_sym, shard_path_not_out).
    apply lookup_insert_eq.
  - destruct (decide (N = 0)%nat) as [HN0|HNpos].
    { assert (chunks_needed cap N = 0%nat) as ->.
      { unfold chunks_needed. rewrite HN0. subst cap. rewrite HN0. unfold ceil_div. 
        rewrite Z.div_small by lia. done. }
      simpl. apply Permutation_nil_r.
      destruct (dir_entries (output ARGS) w') as [|name l] eqn:Hd; [done|].
      assert (name ∈ dir_entries (output ARGS) w') as Hel by (rewrite Hd; left).
      apply elem_of_dir_entries in Hel as (k & [n Hn] & [Hk _]%entry_name_inside).
      destruct (Hin _ _ Hk Hn) as (j & Hj & _). lia. }
    destruct (chunks_needed_le N (num_shards ARGS) HS ltac:(lia)) as (Hcap & _ & _).
    fold cap in Hcap. destruct (chunks_needed_bounds cap N Hcap) as [Hk1 Hk2].
    apply NoDup_Permutation.
    + apply NoDup_omap_inj; [apply entry_name_inj | apply NoDup_fst_map_to_list].
    + apply NoDup_fmap_2; [intros i j; apply shard_name_inj | apply NoDup_seq].
    + intros name. rewrite elem_of_dir_entries, list_elem_of_fmap. split.
      * intros (k & [n Hn] & Hname). destruct (entry_name_inside _ _ _ Hname) as [Hk Heq].
        destruct (Hin _ _ Hk Hn) as (j & Hj & -> & _). exists j.
        rewrite entry_name_shard in Hname. split; [congruence|].
        apply elem_of_seq. nia.
      * intros (j & -> & Hj%elem_of_seq). exists (sp j).
        split; [|apply entry_name_shard]. rewrite Hshards by nia. done.
Qed.


End Main.

Ltac use_dict_world Hdict :=
  match type of Hdict with
  | dict_to_tf_example ?P ?a ?d ?w0 = (_, ?w3) =>
      let Hw := fresh "Hw" in
      pose proof (dict_world P a d w0) as Hw; rewrite Hdict in Hw; cbn [snd] in Hw;
      unfold after_read in Hw; cbn [fs trace] in Hw
  end.

Section Runs.
Variable json_load : bytes → result Annotation.
Variable PIL_Image_open : bytes → result PILImage.
Variable SerializeToString : Example → bytes.

Abbreviation run := (main json_load PIL_Image_open SerializeToString).

(** What a failing iteration leaves behind: no record, and at most one
    new file, the empty shard it may have opened. *)
Lemma loop_body_Raise (ARGS : Args) (shard_size : Z) (example : string)
    (v : loop_vars) (w w' : world) (x : exn) :
  loop_body json_load PIL_Image_open SerializeToString ARGS shard_size example v w
  = (Raise x, w') →
  records_written (trace_since w w') = [] ∧
  ∀ p, fs w' !! p = fs w !! p ∨ fs w' !! p = Some (File []).
Proof.
  unfold loop_body. io_unfold. intros H.
  assert (Hlookup : ∀ q p : string, <[q := File []]> (fs w) !! p = fs w !! p
                            ∨ <[q := File []]> (fs w) !! p = Some (File [])).
  { intros q p. destruct (decide (q = p)) as [->|].
    - right. apply lookup_insert_eq.
    - left. by apply lookup_insert_ne. }
  destruct (num_examples_written v =? 0)%nat; cbn [fs trace] in H.
  - destruct (_ !! os_path_join (annotations_dir ARGS) example) as [[|chunks]|].
    1,3: injection H as <- <-; split; [|by cbn];
         erewrite trace_since_app; [|by cbn; rewrite <- app_assoc]; done.
    destruct (json_load (concat chunks)) as [a|].
    2: injection H as <- <-; split; [|by cbn];
       erewrite trace_since_app; [|by cbn; rewrite <- app_assoc]; done.
    destruct (dict_to_tf_example PIL_Image_open a (image_dir ARGS) _)
      as [[ex|] w3] eqn:Hdict.
    { destruct (_ =? _); cbn in H; done. }
    injection H as <- <-.
    use_dict_world Hdict.
    destruct (_ || _); subst w3; (split; [|by cbn]);
      (erewrite trace_since_app; [|by cbn; rewrite <- ?app_assoc]); done.
  - destruct (_ !! os_path_join (annotations_dir ARGS) example) as [[|chunks]|].
    1,3: injection H as <- <-; split; [|by left];
         erewrite trace_since_app; [|by cbn]; done.
    destruct (json_load (concat chunks)) as [a|].
    2: injection H as <- <-; split; [|by left];
       erewrite trace_since_app; [|by cbn]; done.
    destruct (dict_to_tf_example PIL_Image_open a (image_dir ARGS) _)
      as [[ex|] w3] eqn:Hdict.
    { destruct (writer v) as [p|]; [destruct (_ =? _); cbn in H; done|].
      cbn in H. injection H as <- <-.
      use_dict_world Hdict.
      destruct (_ || _); subst w3; (split; [|by left]);
        (erewrite trace_since_app; [|by cbn; rewrite <- ?app_assoc]); done. }
    injection H as <- <-.
    use_dict_world Hdict.
    destruct (_ || _); subst w3; (split; [|by left]);
      (erewrite trace_since_app; [|by cbn; rewrite <- ?app_assoc]); done.
Qed.

(** A failure of the validator is a failure of the iteration. *)
Lemma loop_body_validation_failure (ARGS : Args) (shard_size : Z) (example : string)
    (v : loop_vars) (w wf : world) (chunks : list bytes) (a : Annotation) (x : exn) :
  fs (before_validation ARGS example v w)
    !! os_path_join (annotations_dir ARGS) example = Some (File chunks) →
  json_load (concat chunks) = Ok a →
  dict_to_tf_example PIL_Image_open a (image_dir ARGS)
    (before_validation ARGS example v w) = (Raise x, wf) →
  loop_body json_load PIL_Image_open SerializeToString ARGS shard_size example v w
  = (Raise x, wf).
Proof.
  unfold before_validation, loop_body, shard_path. io_unfold. intros Hann Hjson Hdict.
  destruct (num_examples_written v =? 0)%nat; cbn [fs trace] in *;
    by rewrite Hann, Hjson, Hdict.
Qed.



(** C6. When the entries before [e] were processed and the validator
    raises on [e], the run ends there with that exception: [main] returns
    the validator's exception and the world of the failure, whatever entries
    come after [e]. The annotation files opened by the loop are those of the
    entries before [e] and of [e], and no other. The failing iteration
    writes no record; the files are those left by the entries before, and
    the shard this iteration may have opened, still empty. *)
Theorem C6_fail_fast (ARGS : Args) (rnd : nat → nat) (w w1 wl wf : world)
    (es1 es2 : list string) (e : string) (shard_size : Z) (v1 : loop_vars)
    (chunks : list bytes) (a : Annotation) (x : exn)
    (Hsetup : main_setup ARGS rnd w = (Ok ((es1 ++ e :: es2)%list, shard_size), w1))
    (Hbefore : for_loop (loop_body json_load PIL_Image_open SerializeToString ARGS
                           shard_size) es1 (LoopVars 0 0 None) w1 = (Ok v1, wl))
    (Hann : fs (before_validation ARGS e v1 wl)
              !! os_path_join (annotations_dir ARGS) e = Some (File chunks))
    (Hjson : json_load (concat chunks) = Ok a)
    (Hinvalid : dict_to_tf_example PIL_Image_open a (image_dir ARGS)
                  (before_validation ARGS e v1 wl) = (Raise x, wf)) :
  run ARGS rnd w = (Raise x, wf) ∧
  entries_opened (trace_since w1 wf)
  = os_path_join (annotations_dir ARGS) <$> (es1 ++ [e])%list ∧
  records_written (trace_since wl wf) = [] ∧
  ∀ p, fs wf !! p = fs wl !! p ∨ fs wf !! p = Some (File []).
Proof.
  pose proof (loop_body_validation_failure ARGS shard_size e v1 wl wf chunks a x
                Hann Hjson Hinvalid) as Hfail.
  split_and!.
  - rewrite main_unfold. unfold bind at 1. rewrite Hsetup. cbn [fst snd].
    unfold bind. by rewrite (for_loop_raise _ _ _ _ _ _ _ _ _ _ Hbefore Hfail).
  - destruct (for_loop_entries _ _ _ _ _ _ _ _ _ _ Hbefore) as (tr & Htr & Hentries).
    pose proof (dict_world PIL_Image_open a (image_dir ARGS)
                  (before_validation ARGS e v1 wl)) as Hw.
    rewrite Hinvalid in Hw. cbn [snd] in Hw.
    unfold after_read, before_validation in Hw. cbn [fs trace] in Hw.
    assert (∃ added, trace wf = (trace wl ++ added)%list ∧
                     entries_opened added = [os_path_join (annotations_dir ARGS) e])
      as (added & Hadded & Hopen).
    { destruct (endswith _ ".jpg" || endswith _ ".jpeg"), (num_examples_written v1 =? 0)%nat;
        subst wf; cbn [fs trace]; eexists; (split; [by rewrite <- ?app_assoc|done]). }
    rewrite (trace_since_app w1 wf (tr ++ added)) by (by rewrite Hadded, Htr, <- app_assoc).
    unfold entries_opened in *. by rewrite omap_app, fmap_app, Hentries, Hopen.
  - by apply loop_body_Raise in Hfail as [Hrecs _].
  - by apply loop_body_Raise in Hfail as [_ Hfiles].
Qed.

(** C8. Before its loop, a run removes the directory tree that exists
    at the output path, with everything below it, and creates the directory
    anew, empty, leaving every other path as it was. So when two successful
    runs (with positive shard counts) use the same output directory,
    everything in that directory after the second run is a shard of the
    second run, holding records written during the second run; its entries
    are exactly the second run's shard files. *)
Theorem C8_destructive_replace (ARGS1 ARGS2 : Args) (rnd1 rnd2 : nat → nat)
    (w0 w1 w2 : world)
    (Hrun1 : run ARGS1 rnd1 w0 = (Ok (), w1))
    (Hrun2 : run ARGS2 rnd2 w1 = (Ok (), w2))
    (Hout : output ARGS1 = output ARGS2)
    (HS1 : 0 < num_shards ARGS1) (HS2 : 0 < num_shards ARGS2) :
  let out := output ARGS2 in
  let N := length (dir_entries (annotations_dir ARGS2) w1) in
  let cap := Z.to_nat (ceil_div (Z.of_nat N) (num_shards ARGS2)) in
  (∀ (w wr : world) (es : list string) (shard_size : Z),
     main_setup ARGS2 rnd2 w = (Ok (es, shard_size), wr) →
     fs w !! out = Some Dir →
     fs wr !! out = Some Dir ∧
     (∀ k, inside out k = true → fs wr !! k = None) ∧
     (∀ k, k ≠ out → inside out k = false → fs wr !! k = fs w !! k)) ∧
  fs w1 !! out = Some Dir ∧
  (∀ k n, inside out k = true → fs w2 !! k = Some n →
     ∃ j, (j * cap < N)%nat ∧ k = shard_path out j ∧
          n = File (chunk cap j (records_written (trace_since w1 w2)))) ∧
  dir_entries out w2 ≡ₚ shard_name <$> seq 0 (chunks_needed cap N).
Proof.
  intros out N cap. subst out.
  assert (Hdir1 : fs w1 !! output ARGS2 = Some Dir).
  { destruct (main_Ok_facts _ _ _ ARGS1 rnd1 w0 w1 Hrun1 HS1)
      as (_ & _ & _ & _ & _ & _ & Hother).
    rewrite <- Hout.
    rewrite Hother by (intros j _; apply not_eq_sym, shard_path_not_out).
    apply lookup_insert_eq. }
  assert (Hwf : absent_is_empty (output ARGS2) w1) by (intros Hnone; congruence).
  destruct (main_Ok_directory _ _ _ ARGS2 rnd2 w1 w2 Hrun2 HS2 Hwf) as (_ & Hin & Hperm).
  split_and!; try done.
  intros w wr es ss Hsetup Hdir.
  apply main_setup_Ok in Hsetup as (_ & _ & _ & _ & Hnone & ->). cbn [fs].
  split_and!.
  - apply lookup_insert_eq.
  - intros k Hk. apply reset_empty; [done| |done]. congruence.
  - intros k Hne Hk. rewrite lookup_insert_ne by done.
    rewrite removed_tree_lookup by done. rewrite decide_False; [done|].
    intros [?|?]; congruence.
Qed.
End Runs.


(** ** The claims on concrete runs *)

Lemma ten_run_Ok : ten_run = (Ok (), ten_run.2).
Proof. vm_compute; reflexivity. Qed.

Lemma ten_entries : length (dir_entries "annotations" ten_world) = 10%nat.
Proof. vm_compute; reflexivity. Qed.






(** Entries c, a, b with a failing: the run ends with the exception of a,
    after opening c and a only. *)
Lemma C6_fail_fast_witness :
  main json_stub pil_400x500 serialize_stub (run_args 2) no_swap bad_world
  = (Raise (AssertionError 92), bad_validation.2) ∧
  entries_opened (trace_since bad_setup.2 bad_validation.2)
  = ["annotations/c.json"; "annotations/a.json"] ∧
  records_written (trace_since bad_before.2 bad_validation.2) = [].
Proof.
  assert (bad_setup = (Ok ((["c.json"] ++ "a.json" :: ["b.json"])%list, 2), bad_setup.2))
    as Hsetup by (vm_compute; reflexivity).
  assert (bad_before = (Ok bad_vars, bad_before.2)) as Hbefore
    by (vm_compute; reflexivity).
  assert (fs (before_validation (run_args 2) "a.json" bad_vars bad_before.2)
            !! os_path_join (annotations_dir (run_args 2)) "a.json"
          = Some (File [[Byte.x62]])) as Hann by (vm_compute; reflexivity).
  assert (json_stub (concat [[Byte.x62]]) = Ok inverted_annotation) as Hjson
    by reflexivity.
  assert (bad_validation = (Raise (AssertionError 92), bad_validation.2)) as Hinvalid
    by (vm_compute; reflexivity).
  destruct (C6_fail_fast json_stub pil_400x500 serialize_stub (run_args 2) no_swap
              bad_world bad_setup.2 bad_before.2 bad_validation.2
              ["c.json"] ["b.json"] "a.json" 2 bad_vars [[Byte.x62]]
              inverted_annotation (AssertionError 92)
              Hsetup Hbefore Hann Hjson Hinvalid) as (Hmain & Hentries & Hrecs & _).
  split_and!; [exact Hmain | exact Hentries | exact Hrecs].
Defined.


Lemma ten_world_out : absent_is_empty (output (run_args 3)) ten_world.
Proof. intros H. vm_compute in H. discriminate H. Qed.


Lemma second_run_Ok : second_run = (Ok (), second_run.2).
Proof. vm_compute; reflexivity. Qed.

(** After a run with three shards, a run with one shard leaves one file:
    the third shard of the first run is gone. *)
Lemma C8_destructive_replace_witness :
  ten_run = (Ok (), ten_run.2) ∧ second_run = (Ok (), second_run.2) ∧
  fs ten_run.2 !! "out/shard-0002.tfrecords"
  = Some (File [[Byte.xff; Byte.xd8]; [Byte.xff; Byte.xd8]]) ∧
  fs second_run.2 !! "out/shard-0002.tfrecords" = None ∧
  dir_entries "out" second_run.2 ≡ₚ [shard_name 0].
Proof.
  assert (0 < num_shards (run_args 3)) as HS1 by (vm_compute; reflexivity).
  assert (0 < num_shards (run_args 1)) as HS2 by (vm_compute; reflexivity).
  destruct (C8_destructive_replace json_stub pil_400x500 serialize_stub
              (run_args 3) (run_args 1) no_swap swap_first
              ten_world ten_run.2 second_run.2 ten_run_Ok second_run_Ok eq_refl HS1 HS2)
    as (_ & _ & _ & Hperm).
  cbn [annotations_dir output num_shards run_args] in Hperm.
  assert (length (dir_entries "annotations" ten_run.2) = 10%nat) as HN
    by (vm_compute; reflexivity).
  rewrite HN in Hperm.
  split_and!; [exact ten_run_Ok | exact second_run_Ok | vm_compute; reflexivity
              | vm_compute; reflexivity | exact Hperm].
Defined.

(** * Further properties of the script *)

(** ** Before the loop *)

Lemma removed_tree_outside (d k : string) (f : gmap string node) :
  k ≠ d → inside d k = false → removed_tree d f !! k = f !! k.
Proof.
  intros Hne Hin. destruct (f !! d) as [[|chunks]|] eqn:Hd.
  - rewrite removed_tree_lookup by done. rewrite decide_False; [done|].
    intros [?|?]; congruence.
  - unfold removed_tree. by rewrite Hd.
  - unfold removed_tree. by rewrite Hd.
Qed.

Lemma removed_tree_not_dir (d : string) (f : gmap string node) :
  f !! d ≠ Some Dir → removed_tree d f = f.
Proof. intros Hd. unfold removed_tree. by destruct (f !! d) as [[|?]|]. Qed.

Lemma entry_name_relative (d k name : string) :
  entry_name d k = Some name → String.prefix "/" name = false.
Proof.
  unfold entry_name. destruct (strip_prefix _ _) as [s|]; [|done].
  destruct (negb (String.eqb s EmptyString)); [|done]. simpl.
  destruct (has_slash s) eqn:Hs; [done|]. intros [= <-].
  destruct s as [|c s]; [done|]. simpl in Hs.
  apply orb_false_iff in Hs as [Hc _].
  destruct (Ascii.eqb_spec c "/"); [done|]. cbn [String.prefix].
  destruct (ascii_dec "/" c); [congruence | done].
Qed.

(** The path the loop opens for a listed entry is the path it was listed
    from. *)
Lemma entry_name_join (d k name : string) :
  entry_name d k = Some name → os_path_join d name = k.
Proof.
  intros H. rewrite os_path_join_relative by (by eapply entry_name_relative).
  by destruct (entry_name_inside _ _ _ H) as [_ ->].
Qed.

Section Setup.
Variable json_load : bytes → result Annotation.
Variable PIL_Image_open : bytes → result PILImage.
Variable SerializeToString : Example → bytes.
Variable ARGS : Args.

(** The setup succeeds when the annotations directory is one, the number
    of shards is not zero and the output path is not a regular file. *)
Lemma main_setup_run (rnd : nat → nat) (w : world) :
  fs w !! annotations_dir ARGS = Some Dir →
  num_shards ARGS ≠ 0 →
  removed_tree (output ARGS) (fs w) !! output ARGS = None →
  let es := random_shuffle rnd (dir_entries (annotations_dir ARGS) w) in
  main_setup ARGS rnd w
  = (Ok (es, math_ceil (Qc_of_Z (Z.of_nat (length es)) / Qc_of_Z (num_shards ARGS))%Qc),
     World (<[output ARGS := Dir]> (removed_tree (output ARGS) (fs w)))
           (trace w ++ [EListdir (annotations_dir ARGS); ERmtree (output ARGS);
                        EMkdir (output ARGS)])).
Proof.
  intros Hdir HS Hout es. unfold main_setup. io_unfold. simpl. rewrite Hdir. simpl.
  destruct (Z.eqb_spec (num_shards ARGS) 0) as [|_]; [done|]. simpl.
  rewrite Hout. subst es. unfold dir_entries. by rewrite <- !app_assoc.
Qed.

Lemma removed_tree_output (w : world) :
  (∀ chunks, fs w !! output ARGS ≠ Some (File chunks)) →
  removed_tree (output ARGS) (fs w) !! output ARGS = None.
Proof.
  intros Hout. destruct (fs w !! output ARGS) as [[|chunks]|] eqn:Hd.
  - rewrite removed_tree_lookup by done. rewrite decide_True; auto.
  - by destruct (Hout chunks).
  - unfold removed_tree. by rewrite Hd.
Qed.

(** X1. With num_shards = 0 and an annotations directory that can be
    listed, the run ends with the ZeroDivisionError of line 140: after the
    listing and before the output directory is removed, so that no file has
    changed and the listing is the only file operation performed. *)
Theorem X1_zero_shards (rnd : nat → nat) (w : world)
    (Hdir : fs w !! annotations_dir ARGS = Some Dir)
    (Hzero : num_shards ARGS = 0) :
  main json_load PIL_Image_open SerializeToString ARGS rnd w
  = (Raise ZeroDivisionError,
     World (fs w) (trace w ++ [EListdir (annotations_dir ARGS)])).
Proof.
  unfold main. io_unfold. simpl. rewrite Hdir, Hzero. reflexivity.
Qed.

(** X2. When the annotations path does not exist the run ends with the
    FileNotFoundError of the listing (line 134), and with a
    NotADirectoryError when it is a regular file; in both cases whatever
    the number of shards, with no file changed: the output directory has not
    been removed. *)
Theorem X2_listing_fails (rnd : nat → nat) (w : world) :
  let listed := World (fs w) (trace w ++ [EListdir (annotations_dir ARGS)]) in
  (fs w !! annotations_dir ARGS = None →
   main json_load PIL_Image_open SerializeToString ARGS rnd w
   = (Raise FileNotFoundError, listed)) ∧
  (∀ chunks, fs w !! annotations_dir ARGS = Some (File chunks) →
   main json_load PIL_Image_open SerializeToString ARGS rnd w
   = (Raise NotADirectoryError, listed)).
Proof.
  split; [intros Hdir | intros chunks Hdir];
    unfold main; io_unfold; simpl; by rewrite Hdir.
Qed.

(** X3. When the output path is a regular file, [rmtree] with
    ignore_errors leaves it where it is and [os.mkdir] fails: the run ends
    with FileExistsError before any annotation is opened, and no file has
    changed. *)
Theorem X3_output_is_a_file (rnd : nat → nat) (w : world) (chunks : list bytes)
    (Hdir : fs w !! annotations_dir ARGS = Some Dir)
    (HS : num_shards ARGS ≠ 0)
    (Hout : fs w !! output ARGS = Some (File chunks)) :
  main json_load PIL_Image_open SerializeToString ARGS rnd w
  = (Raise FileExistsError,
     World (fs w) (trace w ++ [EListdir (annotations_dir ARGS); ERmtree (output ARGS);
                                EMkdir (output ARGS)])).
Proof.
  unfold main. io_unfold. simpl. rewrite Hdir. simpl.
  destruct (Z.eqb_spec (num_shards ARGS) 0) as [|_]; [done|]. simpl.
  rewrite removed_tree_not_dir by (by rewrite Hout). rewrite Hout.
  by rewrite <- !app_assoc.
Qed.

(** X4. With no entry in the annotations directory, a number of shards
    that is not zero and an output path, written in normal form, at which a
    directory exists, the run succeeds: it removes and recreates the output
    directory and does nothing else. No writer is opened and no record
    written, and the output directory is left empty. *)
Theorem X4_no_annotations (rnd : nat → nat) (w : world)
    (Hdir : fs w !! annotations_dir ARGS = Some Dir)
    (Hempty : dir_entries (annotations_dir ARGS) w = [])
    (HS : num_shards ARGS ≠ 0)
    (Hout : fs w !! output ARGS = Some Dir)
    (Hplain : plain_path (output ARGS) = true) :
  let w' := World (<[output ARGS := Dir]> (removed_tree (output ARGS) (fs w)))
                  (trace w ++ [EListdir (annotations_dir ARGS); ERmtree (output ARGS);
                               EMkdir (output ARGS)]) in
  main json_load PIL_Image_open SerializeToString ARGS rnd w = (Ok (), w') ∧
  opened (trace_since w w') = [] ∧
  records_written (trace_since w w') = [] ∧
  fs w' !! output ARGS = Some Dir ∧
  dir_entries (output ARGS) w' = [].
Proof.
  intros w'.
  assert (Hnone : removed_tree (output ARGS) (fs w) !! output ARGS = None).
  { rewrite removed_tree_lookup by done. rewrite decide_True; auto. }
  assert (Hrun : main json_load PIL_Image_open SerializeToString ARGS rnd w = (Ok (), w')).
  { rewrite main_unfold. unfold bind at 1.
    rewrite main_setup_run by done.
    rewrite Hempty. reflexivity. }
  assert (Hsince : trace_since w w'
                   = [EListdir (annotations_dir ARGS); ERmtree (output ARGS);
                      EMkdir (output ARGS)]) by (by apply trace_since_app).
  split_and!; [done | by rewrite Hsince | by rewrite Hsince | apply lookup_insert_eq |].
  destruct (dir_entries (output ARGS) w') as [|name l] eqn:Hd; [done|].
  assert (name ∈ dir_entries (output ARGS) w') as Hel by (rewrite Hd; left).
  apply elem_of_dir_entries in Hel as (k & [n Hn] & [Hk _]%entry_name_inside).
  subst w'. cbn [fs] in Hn.
  rewrite reset_empty in Hn; [done | done | congruence | done].
Qed.

(** X5. When the output directory is the annotations directory, the run
    lists the annotations, removes them together with the directory, and
    then fails on the first entry of the shuffled list with the
    FileNotFoundError of line 156 (unless that entry is named like the first
    shard): nothing is left below the directory but the empty first
    shard. *)
Theorem X5_output_is_annotations_dir (rnd : nat → nat) (w : world)
    (e : string) (rest : list string)
    (Hsame : annotations_dir ARGS = output ARGS)
    (Hdir : fs w !! output ARGS = Some Dir)
    (HS : num_shards ARGS ≠ 0)
    (Hes : random_shuffle rnd (dir_entries (annotations_dir ARGS) w) = e :: rest)
    (He : e ≠ shard_name 0) :
  ∃ w', main json_load PIL_Image_open SerializeToString ARGS rnd w
        = (Raise FileNotFoundError, w') ∧
        entries_opened (trace_since w w') = [os_path_join (annotations_dir ARGS) e] ∧
        records_written (trace_since w w') = [] ∧
        ∀ k, inside (output ARGS) k = true →
             fs w' !! k = if decide (k = shard_path (output ARGS) 0)
                          then Some (File []) else None.
Proof.
  assert (Hnone : removed_tree (output ARGS) (fs w) !! output ARGS = None).
  { rewrite removed_tree_lookup by done. rewrite decide_True; auto. }
  assert (e ∈ dir_entries (annotations_dir ARGS) w) as Hel.
  { rewrite <- (random_shuffle_perm rnd), Hes. left. }
  apply elem_of_dir_entries in Hel as (k & _ & Hname).
  pose proof (entry_name_join _ _ _ Hname) as Hjoin.
  destruct (entry_name_inside _ _ _ Hname) as [Hin Hk].
  rewrite Hsame in Hin, Hk.
  assert (Hk0 : k ≠ shard_path (output ARGS) 0).
  { rewrite Hk, shard_path_eq. intros Heq%String.app_inj. done. }
  assert (Hkout : k ≠ output ARGS) by (intros ->; by rewrite inside_irrefl in Hin).
  eexists. split_and!.
  - rewrite main_unfold. unfold bind at 1.
    rewrite main_setup_run by (try done; by rewrite Hsame). rewrite Hes.
    cbn [fst snd for_loop]. unfold bind at 1. unfold bind at 1.
    unfold loop_body. io_unfold. cbn [num_examples_written shard_id Nat.eqb fs trace].
    rewrite Hjoin. fold (shard_path (output ARGS) 0).
    rewrite lookup_insert_ne by done. rewrite lookup_insert_ne by done.
    rewrite removed_tree_lookup by done. rewrite decide_True by auto.
    reflexivity.
  - erewrite trace_since_app; [|cbn [trace]; by rewrite <- !app_assoc].
    by rewrite Hjoin.
  - erewrite trace_since_app; [|cbn [trace]; by rewrite <- !app_assoc]. done.
  - intros q Hq. cbn [fs]. case_decide as Hq0.
    + subst q. apply lookup_insert_eq.
    + rewrite lookup_insert_ne by done. by apply reset_empty; [|congruence|].
Qed.
End Setup.

(** ** The loop, whatever the capacity *)

Lemma protocol_app (cur : option string) (a b : list event) :
  protocol cur (a ++ b) = protocol cur a ≫= λ c, protocol c b.
Proof.
  revert cur. induction a as [|e a IH]; intros cur; [done|].
  destruct e; simpl; try apply IH.
  - destruct cur; [done | apply IH].
  - case_decide; [apply IH | done].
  - case_decide; [apply IH | done].
Qed.

(** Under the discipline, the writers opened are those closed and the one
    still open. *)
Lemma protocol_opened_closed (cur cur' : option string) (tr : list event) :
  protocol cur tr = Some cur' →
  (option_list cur ++ opened tr = closed tr ++ option_list cur')%list.
Proof.
  revert cur. induction tr as [|e tr IH]; intros cur; simpl.
  - intros [= ->]. by rewrite app_nil_r.
  - destruct e; simpl; try apply IH.
    + destruct cur; [done|]. intros H%IH. done.
    + case_decide; [apply IH | done].
    + case_decide as Hc; [|done]. intros H%IH. subst cur. simpl in *. by f_equal.
Qed.

Section AnyCapacity.
Variable json_load : bytes → result Annotation.
Variable PIL_Image_open : bytes → result PILImage.
Variable SerializeToString : Example → bytes.
Variable ARGS : Args.

Abbreviation body := (loop_body json_load PIL_Image_open SerializeToString ARGS).
Abbreviation sp := (shard_path (output ARGS)).

(** What a failing iteration does: it opens a writer if it is the first
    of its shard, opens the annotation, and may read the image. *)
Lemma loop_body_Raise_shape (shard_size : Z) (example : string) (v : loop_vars)
    (w w' : world) (x : exn) :
  body shard_size example v w = (Raise x, w') →
  let first := (num_examples_written v =? 0)%nat in
  ∃ rd, (rd = [] ∨ ∃ q, rd = [ERead q]) ∧
    trace w' = (trace w ++ (if first then [EOpenWriter (sp (shard_id v))] else []) ++
                EOpen (os_path_join (annotations_dir ARGS) example) :: rd)%list ∧
    fs w' = if first then <[sp (shard_id v) := File []]> (fs w) else fs w.
Proof.
  unfold loop_body. fold (sp (shard_id v)). io_unfold. intros H.
  destruct (num_examples_written v =? 0)%nat; cbn [fs trace] in H.
  - destruct (_ !! os_path_join (annotations_dir ARGS) example) as [[|chunks]|].
    1,3: injection H as <- <-; exists []; cbn [fs trace];
         split_and!; [by left | by rewrite <- app_assoc | done].
    destruct (json_load (concat chunks)) as [a|].
    2: injection H as <- <-; exists []; cbn [fs trace];
       split_and!; [by left | by rewrite <- app_assoc | done].
    destruct (dict_to_tf_example PIL_Image_open a (image_dir ARGS) _)
      as [[ex|] w3] eqn:Hdict.
    { destruct (_ =? _); cbn in H; done. }
    injection H as <- <-.
    use_dict_world Hdict.
    destruct (_ || _); subst w3; cbn [fs trace].
    + exists [ERead (image_path a (image_dir ARGS))].
      split_and!; [right; by eexists | by rewrite <- ?app_assoc | done].
    + exists []. split_and!; [by left | by rewrite <- ?app_assoc | done].
  - destruct (_ !! os_path_join (annotations_dir ARGS) example) as [[|chunks]|].
    1,3: injection H as <- <-; exists []; cbn [fs trace];
         split_and!; [by left | done | done].
    destruct (json_load (concat chunks)) as [a|].
    2: injection H as <- <-; exists []; cbn [fs trace];
       split_and!; [by left | done | done].
    destruct (dict_to_tf_example PIL_Image_open a (image_dir ARGS) _)
      as [[ex|] w3] eqn:Hdict.
    { destruct (writer v) as [p|]; [destruct (_ =? _); cbn in H; done|].
      cbn in H. injection H as <- <-.
      use_dict_world Hdict.
      destruct (_ || _); subst w3; cbn [fs trace].
      + exists [ERead (image_path a (image_dir ARGS))].
        split_and!; [right; by eexists | by rewrite <- ?app_assoc | done].
      + exists []. split_and!; [by left | by rewrite <- ?app_assoc | done]. }
    injection H as <- <-.
    use_dict_world Hdict.
    destruct (_ || _); subst w3; cbn [fs trace].
    + exists [ERead (image_path a (image_dir ARGS))].
      split_and!; [right; by eexists | by rewrite <- ?app_assoc | done].
    + exists []. split_and!; [by left | by rewrite <- ?app_assoc | done].
Qed.

Lemma trace_since_trans (w w1 w2 : world) (a b : list event) :
  trace w1 = (trace w ++ a)%list → trace w2 = (trace w1 ++ b)%list →
  trace w2 = (trace w ++ a ++ b)%list.
Proof. intros -> ->. by rewrite app_assoc. Qed.

Lemma loop_body_protocol (shard_size : Z) (example : string) (v : loop_vars)
    (cur : option string) (w w' : world) (r : result loop_vars) :
  writer_state v cur →
  body shard_size example v w = (r, w') →
  ∃ added cur', trace w' = (trace w ++ added)%list ∧
    protocol cur added = Some cur' ∧
    match r with
    | Ok v' => writer_state v' cur'
    | Raise _ => is_Some cur'
    end.
Proof.
  unfold writer_state. intros Hst Hbody. destruct r as [v'|x].
  - apply loop_body_Ok in Hbody as (p & a & ex & Hp & Htr & _ & Hv').
    assert (cur = None ∧ (num_examples_written v =? 0)%nat = true
            ∨ cur = Some p ∧ (num_examples_written v =? 0)%nat = false) as Hcur.
    { destruct (num_examples_written v =? 0)%nat; [by left|].
      right. destruct Hst as [-> _]. done. }
    assert (Hnext : (num_examples_written v + 1 =? 0)%nat = false)
      by (apply Nat.eqb_neq; lia).
    destruct (_ =? shard_size); subst v'; cbn [num_examples_written writer].
    + eexists. exists None. split; [exact Htr|]. split; [|done].
      destruct Hcur as [[-> ->]|[-> ->]]; simpl; by rewrite !decide_True.
    + eexists. exists (Some p). split; [exact Htr|]. rewrite Hnext.
      split; [|by split; [|eexists]].
      destruct Hcur as [[-> ->]|[-> ->]]; simpl; by rewrite !decide_True.
  - apply loop_body_Raise_shape in Hbody as (rd & Hrd & Htr & _).
    destruct (num_examples_written v =? 0)%nat.
    + subst cur. eexists. exists (Some (sp (shard_id v))). split; [exact Htr|].
      destruct Hrd as [->|[q ->]]; simpl; (split; [done | by eexists]).
    + destruct Hst as [-> Hsome]. eexists. exists (writer v). split; [exact Htr|].
      destruct Hrd as [->|[q ->]]; simpl; (split; [done | done]).
Qed.

Lemma for_loop_protocol (shard_size : Z) (es : list string) (v : loop_vars)
    (cur : option string) (w w' : world) (r : result loop_vars) :
  writer_state v cur →
  for_loop (body shard_size) es v w = (r, w') →
  ∃ added cur', trace w' = (trace w ++ added)%list ∧
    protocol cur added = Some cur' ∧
    match r with
    | Ok v' => writer_state v' cur'
    | Raise _ => is_Some cur'
    end.
Proof.
  revert v cur w. induction es as [|e es IH]; intros v cur w Hst; simpl.
  - intros [= <- <-]. exists [], cur. by rewrite app_nil_r.
  - unfold bind. destruct (body _ e v w) as [[v1|x] w1] eqn:Hbody.
    + intros Hrest.
      destruct (loop_body_protocol _ _ _ _ _ _ _ Hst Hbody) as (a1 & c1 & Ht1 & Hp1 & Hst1).
      destruct (IH _ _ _ Hst1 Hrest) as (a2 & c2 & Ht2 & Hp2 & Hst2).
      exists (a1 ++ a2)%list, c2. split; [exact (trace_since_trans _ _ _ _ _ Ht1 Ht2)|].
      split; [|done]. by rewrite protocol_app, Hp1.
    + intros [= <- <-].
      by destruct (loop_body_protocol _ _ _ _ _ _ _ Hst Hbody) as (a1 & c1 & Ht1 & Hp1 & Hst1);
        exists a1, c1.
Qed.

(** Every file an iteration touches is a shard file. *)
Lemma loop_body_frame (shard_size : Z) (example : string) (v : loop_vars)
    (w w' : world) (r : result loop_vars) (k : string) :
  writer_in_output (output ARGS) v →
  body shard_size example v w = (r, w') →
  (∀ j, k ≠ sp j) →
  fs w' !! k = fs w !! k ∧
  match r with Ok v' => writer_in_output (output ARGS) v' | Raise _ => True end.
Proof.
  intros Hv Hbody Hk. destruct r as [v'|x].
  - apply loop_body_Ok in Hbody as (p & a & ex & Hp & _ & Hfs & Hv').
    assert (∃ j, p = sp j) as [j ->].
    { destruct (num_examples_written v =? 0)%nat; [by eexists | by apply Hv]. }
    split; [rewrite Hfs; by apply lookup_insert_ne|].
    destruct (_ =? shard_size); subst v'; intros q [= <-]; by eexists.
  - apply loop_body_Raise_shape in Hbody as (rd & _ & _ & Hfs).
    split; [|done]. rewrite Hfs.
    destruct (num_examples_written v =? 0)%nat; [by apply lookup_insert_ne | done].
Qed.

Lemma for_loop_frame (shard_size : Z) (es : list string) (v : loop_vars)
    (w w' : world) (r : result loop_vars) (k : string) :
  writer_in_output (output ARGS) v →
  for_loop (body shard_size) es v w = (r, w') →
  (∀ j, k ≠ sp j) →
  fs w' !! k = fs w !! k.
Proof.
  revert v w. induction es as [|e es IH]; intros v w Hv; simpl.
  - by intros [= <- <-].
  - unfold bind. destruct (body _ e v w) as [[v1|x] w1] eqn:Hbody; intros Hrest Hk.
    + destruct (loop_body_frame _ _ _ _ _ _ _ Hv Hbody Hk) as [Hfs Hv1].
      rewrite <- Hfs. by eapply IH.
    + injection Hrest as <- <-.
      by destruct (loop_body_frame _ _ _ _ _ _ _ Hv Hbody Hk).
Qed.

(** The operations of an iteration that change files are on shards of
    the output directory. *)
Lemma loop_body_events (shard_size : Z) (example : string) (v : loop_vars)
    (w w' : world) (r : result loop_vars) :
  writer_in_output (output ARGS) v →
  body shard_size example v w = (r, w') →
  ∃ added, trace w' = (trace w ++ added)%list ∧
           Forall (on_output (output ARGS)) added.
Proof.
  intros Hv Hbody. destruct r as [v'|x].
  - apply loop_body_Ok in Hbody as (p & a & ex & Hp & Htr & _ & _).
    assert (∃ j, p = sp j) as Hj.
    { destruct (num_examples_written v =? 0)%nat; [by eexists | by apply Hv]. }
    eexists. split; [exact Htr|].
    destruct (num_examples_written v =? 0)%nat, (_ =? shard_size);
      repeat constructor; exact Hj.
  - apply loop_body_Raise_shape in Hbody as (rd & Hrd & Htr & _).
    eexists. split; [exact Htr|].
    destruct (num_examples_written v =? 0)%nat, Hrd as [->|[q ->]];
      repeat constructor; by eexists.
Qed.

Lemma for_loop_events (shard_size : Z) (es : list string) (v : loop_vars)
    (w w' : world) (r : result loop_vars) :
  writer_in_output (output ARGS) v →
  for_loop (body shard_size) es v w = (r, w') →
  (∃ added, trace w' = (trace w ++ added)%list ∧
            Forall (on_output (output ARGS)) added) ∧
  match r with Ok v' => writer_in_output (output ARGS) v' | Raise _ => True end.
Proof.
  revert v w. induction es as [|e es IH]; intros v w Hv; simpl.
  - intros [= <- <-]. split; [|done]. exists []. by rewrite app_nil_r.
  - unfold bind. destruct (body _ e v w) as [[v1|x] w1] eqn:Hbody; intros Hrest.
    + destruct (loop_body_events _ _ _ _ _ _ Hv Hbody) as (a1 & Ht1 & Ha1).
      assert (Hout : ∀ j, output ARGS ≠ sp j).
      { intros j Heq. apply (shard_path_not_out (output ARGS) j). by symmetry. }
      destruct (loop_body_frame _ _ _ _ _ _ (output ARGS) Hv Hbody Hout) as [_ Hv1].
      destruct (IH _ _ Hv1 Hrest) as [(a2 & Ht2 & Ha2) Hr].
      split; [|done]. exists (a1 ++ a2)%list.
      split; [exact (trace_since_trans _ _ _ _ _ Ht1 Ht2) | by apply Forall_app].
    + injection Hrest as <- <-. split; [|done].
      by apply (loop_body_events _ _ _ _ _ _ Hv Hbody).
Qed.

(** The validator's result depends on the files only through the image. *)
Lemma dict_result_read (a : Annotation) (dir : string) (w1 w2 : world) :
  fs w1 !! os_path_join dir (ann_filename a) = fs w2 !! os_path_join dir (ann_filename a) →
  (dict_to_tf_example PIL_Image_open a dir w1).1
  = (dict_to_tf_example PIL_Image_open a dir w2).1.
Proof.
  intros Hsame. unfold dict_to_tf_example. monad_unfold.
  destruct (endswith _ ".jpg" || endswith _ ".jpeg"); [|done]. simpl.
  rewrite Hsame. destruct (fs w2 !! _) as [[|c2]|]; simpl; try done.
  destruct (PIL_Image_open _) as [image|]; [|done].
  destruct (String.eqb _ "JPEG"); [|done]. simpl.
  destruct (String.eqb _ "RGB"); [|done]. simpl.
  destruct ((0 <? _) && (0 <? _)); [|done]. simpl.
  destruct ((_ =? _) && (_ =? _)); [|done]. simpl.
  destruct (flt _ _ && flt _ _); [|done]. simpl.
  by destruct (landmarks_loop _ _ _ _ _ _ _ _).
Qed.

Lemma outside_spec (out k : string) :
  outside out k = true →
  k ≠ out ∧ inside out k = false ∧ ∀ j, k ≠ shard_path out j.
Proof.
  unfold outside. intros H.
  apply andb_true_iff in H as [H Hin]. apply andb_true_iff in H as [_ Hne].
  apply negb_true_iff in Hin, Hne.
  split_and!; [|done|].
  - intros ->. by rewrite String.eqb_refl in Hne.
  - intros j ->. by rewrite inside_shard in Hin.
Qed.

(** The record of a successful iteration is the one the data set holds
    for its entry, when the run has left the entry's files alone. *)
Lemma loop_body_Ok_record (shard_size : Z) (example : string) (v v' : loop_vars)
    (w0 w w' : world) :
  (∀ k, outside (output ARGS) k = true → fs w !! k = fs w0 !! k) →
  entry_outside json_load ARGS w0 example = true →
  body shard_size example v w = (Ok v', w') →
  ∃ r, entry_record json_load PIL_Image_open SerializeToString ARGS w0 example = Some r ∧
       records_written (trace_since w w') = [r].
Proof.
  intros Hsame Hout Hbody.
  apply andb_true_iff in Hout as [Hann Himg].
  pose proof (Hsame _ Hann) as Hann0.
  destruct (outside_spec _ _ Hann) as (_ & _ & Hannsp).
  assert (∃ chunks a ex w1 p q,
            fs w0 !! os_path_join (annotations_dir ARGS) example = Some (File chunks) ∧
            json_load (concat chunks) = Ok a ∧
            (∀ k, (∀ j, k ≠ sp j) → fs w1 !! k = fs w !! k) ∧
            (dict_to_tf_example PIL_Image_open a (image_dir ARGS) w1).1 = Ok ex ∧
            trace w'
            = (trace w ++ (if (num_examples_written v =? 0)%nat
                           then [EOpenWriter (sp (shard_id v))] else []) ++
               [EOpen (os_path_join (annotations_dir ARGS) example);
                ERead q; EWrite p (SerializeToString ex)] ++
               (if Z.of_nat (num_examples_written v + 1) =? shard_size
                then [ECloseWriter p] else []))%list)
    as (chunks & a & ex & w1 & p & q & Hfile & Hjson & Hw1 & Hdict & Htr).
  { revert Hbody. unfold loop_body. fold (sp (shard_id v)). io_unfold. intros H.
    destruct (num_examples_written v =? 0)%nat; cbn [fs trace] in H.
    - rewrite lookup_insert_ne in H by (apply not_eq_sym, Hannsp). rewrite Hann0 in H.
      destruct (fs w0 !! os_path_join (annotations_dir ARGS) example) as [[|chunks]|];
        [done| |done].
      destruct (json_load (concat chunks)) as [a|] eqn:Hjson; [|done].
      destruct (dict_to_tf_example PIL_Image_open a (image_dir ARGS) _)
        as [[ex|] w3] eqn:Hdict; [|done].
      pose proof Hdict as Hacc.
      apply dict_Ok_spec in Hdict as (_ & _ & _ & _ & _ & _ & ->).
      match type of Hacc with
      | dict_to_tf_example _ _ _ ?w1 = _ =>
          exists chunks, a, ex, w1, (sp (shard_id v)), (image_path a (image_dir ARGS))
      end.
      split_and!; [done | done | | by rewrite Hacc |].
      + intros k Hk. cbn [fs]. by apply lookup_insert_ne.
      + unfold after_read in H. cbn [fs trace] in H.
        destruct (_ =? shard_size); cbn [fs trace] in H;
          inversion H; subst v' w'; cbn [fs trace]; by rewrite <- !app_assoc.
    - rewrite Hann0 in H.
      destruct (fs w0 !! os_path_join (annotations_dir ARGS) example) as [[|chunks]|];
        [done| |done].
      destruct (json_load (concat chunks)) as [a|] eqn:Hjson; [|done].
      destruct (dict_to_tf_example PIL_Image_open a (image_dir ARGS) _)
        as [[ex|] w3] eqn:Hdict; [|done].
      pose proof Hdict as Hacc.
      apply dict_Ok_spec in Hdict as (_ & _ & _ & _ & _ & _ & ->).
      unfold after_read in H. cbn [fs trace] in H.
      destruct (writer v) as [p|]; [|done].
      match type of Hacc with
      | dict_to_tf_example _ _ _ ?w1 = _ =>
          exists chunks, a, ex, w1, p, (image_path a (image_dir ARGS))
      end.
      split_and!; [done | done | done | by rewrite Hacc |].
      destruct (_ =? shard_size); cbn [fs trace] in H;
        inversion H; subst v' w'; cbn [fs trace]; by rewrite <- !app_assoc. }
  exists (SerializeToString ex). split.
  - unfold entry_record. rewrite Hfile, Hjson.
    rewrite Hfile, Hjson in Himg. destruct (outside_spec _ _ Himg) as (_ & _ & Himgsp).
    rewrite <- (dict_result_read a (image_dir ARGS) w1 w0).
    + by rewrite Hdict.
    + fold (image_path a (image_dir ARGS)). rewrite Hw1 by done. by apply Hsame.
  - rewrite (trace_since_app _ _ _ Htr). unfold records_written. rewrite !omap_app.
    by destruct (num_examples_written v =? 0)%nat, (_ =? shard_size).
Qed.

(** A successful loop writes, for each entry in turn, the record that the
    data set holds for it. *)
Lemma for_loop_records (shard_size : Z) (es : list string) (v v' : loop_vars)
    (w0 w w' : world) :
  writer_in_output (output ARGS) v →
  (∀ k, outside (output ARGS) k = true → fs w !! k = fs w0 !! k) →
  Forall (λ e, entry_outside json_load ARGS w0 e = true) es →
  for_loop (body shard_size) es v w = (Ok v', w') →
  ∃ added, trace w' = (trace w ++ added)%list ∧
    Some <$> records_written added
    = entry_record json_load PIL_Image_open SerializeToString ARGS w0 <$> es.
Proof.
  revert v w. induction es as [|e es IH]; intros v w Hv Hsame Hes; simpl.
  - intros [= <- <-]. exists []. by rewrite app_nil_r.
  - apply Forall_cons_1 in Hes as [He Hes].
    unfold bind. destruct (body _ e v w) as [[v1|x] w1] eqn:Hbody; [|done].
    intros Hrest.
    assert (Hsame1 : ∀ k, outside (output ARGS) k = true → fs w1 !! k = fs w0 !! k).
    { intros k Hk. destruct (outside_spec _ _ Hk) as (_ & _ & Hksp).
      destruct (loop_body_frame _ _ _ _ _ _ k Hv Hbody Hksp) as [-> _]. by apply Hsame. }
    assert (Hv1 : writer_in_output (output ARGS) v1).
    { assert (Hout : ∀ j, output ARGS ≠ sp j).
      { intros j Heq. apply (shard_path_not_out (output ARGS) j). by symmetry. }
      by destruct (loop_body_frame _ _ _ _ _ _ (output ARGS) Hv Hbody Hout). }
    destruct (IH _ _ Hv1 Hsame1 Hes Hrest) as (added & Htr & Hall).
    pose proof (loop_body_Ok _ _ _ _ _ _ _ _ _ _ Hbody) as (p & a & ex & _ & Htr1 & _).
    destruct (loop_body_Ok_record _ _ _ _ _ _ _ Hsame He Hbody) as (r & Hr & Hrec).
    rewrite (trace_since_app _ _ _ Htr1) in Hrec.
    eexists. split; [exact (trace_since_trans _ _ _ _ _ Htr1 Htr)|].
    unfold records_written in *. rewrite omap_app, Hrec, fmap_app, Hall. simpl.
    by rewrite Hr.
Qed.

(** What [main] does after a setup that succeeded. *)
Lemma main_after_setup (rnd : nat → nat) (w w1 : world) (es : list string) (ss : Z) :
  main_setup ARGS rnd w = (Ok (es, ss), w1) →
  main json_load PIL_Image_open SerializeToString ARGS rnd w
  = (v <- for_loop (body ss) es (LoopVars 0 0 None) ;; main_finish v)%py w1.
Proof. intros Hsetup. rewrite main_unfold. unfold bind at 1. by rewrite Hsetup. Qed.

(** When the setup fails, so does [main], in the same world, with the
    files it started from. *)
Lemma main_setup_Raise (rnd : nat → nat) (w w1 : world) (x : exn) :
  main_setup ARGS rnd w = (Raise x, w1) →
  main json_load PIL_Image_open SerializeToString ARGS rnd w = (Raise x, w1) ∧
  fs w1 = fs w ∧
  ∃ added, trace w1 = (trace w ++ added)%list ∧ protocol None added = Some None.
Proof.
  intros Hsetup. split; [rewrite main_unfold; unfold bind at 1; by rewrite Hsetup|].
  revert Hsetup. unfold main_setup. io_unfold. simpl.
  destruct (fs w !! annotations_dir ARGS) as [[|?]|].
  2,3: intros [= <- <-]; split; [done|]; by eexists.
  simpl. destruct (num_shards ARGS =? 0).
  { intros [= <- <-]; split; [done|]; by eexists. }
  simpl. destruct (removed_tree (output ARGS) (fs w) !! output ARGS) eqn:Hout; [|done].
  intros [= <- <-]. cbn [fs trace]. split.
  - apply removed_tree_not_dir. intros Hd.
    rewrite removed_tree_lookup in Hout by done. by rewrite decide_True in Hout by auto.
  - eexists. split; [by rewrite <- !app_assoc|done].
Qed.

Lemma main_setup_events (rnd : nat → nat) (w w1 : world) (r : result (list string * Z)) :
  main_setup ARGS rnd w = (r, w1) →
  ∃ added, trace w1 = (trace w ++ added)%list ∧ Forall (on_output (output ARGS)) added.
Proof.
  unfold main_setup. io_unfold. simpl.
  destruct (fs w !! annotations_dir ARGS) as [[|?]|].
  2,3: intros [= <- <-]; eexists; split; [done|]; by repeat constructor.
  simpl. destruct (num_shards ARGS =? 0).
  { intros [= <- <-]; eexists; split; [done|]; by repeat constructor. }
  simpl. destruct (removed_tree (output ARGS) (fs w) !! output ARGS).
  - intros [= <- <-]. eexists. cbn [trace]. split; [by rewrite <- !app_assoc|].
    by repeat constructor.
  - intros [= <- <-]. eexists. cbn [trace]. split; [by rewrite <- !app_assoc|].
    by repeat constructor.
Qed.

(** The writers along a whole run. *)
Lemma main_protocol (rnd : nat → nat) (w w' : world) (r : result ()) :
  main json_load PIL_Image_open SerializeToString ARGS rnd w = (r, w') →
  ∃ cur, protocol None (trace_since w w') = Some cur ∧
    match r with
    | Ok _ => cur = None
    | Raise _ => (∃ x w1, main_setup ARGS rnd w = (Ok x, w1)) → is_Some cur
    end.
Proof.
  intros Hmain. destruct (main_setup ARGS rnd w) as [[[es ss]|x] w1] eqn:Hsetup.
  - rewrite (main_after_setup _ _ _ _ _ Hsetup) in Hmain.
    apply main_setup_Ok in Hsetup as (_ & _ & _ & _ & _ & Hw1).
    unfold bind in Hmain.
    destruct (for_loop _ es _ w1) as [[v|x] w2] eqn:Hloop.
    + destruct (for_loop_protocol _ _ _ None _ _ _
                  (eq_refl : writer_state (LoopVars 0 0 None) None) Hloop)
        as (added & cur & Htr & Hp & Hst).
      unfold main_finish, writer_state in *.
      destruct (num_examples_written v =? 0)%nat; cbn in Hmain.
      * injection Hmain as <- <-. exists cur. split; [|done].
        rewrite (trace_since_app w w2 ([EListdir (annotations_dir ARGS);
                   ERmtree (output ARGS); EMkdir (output ARGS)] ++ added)).
        -- by rewrite protocol_app.
        -- rewrite Htr, Hw1. cbn [trace]. by rewrite <- !app_assoc.
      * destruct Hst as [-> [p Hp']]. rewrite Hp' in Hmain, Hp. cbn in Hmain.
        injection Hmain as <- <-. exists None. split; [|done].
        rewrite (trace_since_app w _ ([EListdir (annotations_dir ARGS);
                   ERmtree (output ARGS); EMkdir (output ARGS)] ++ added
                   ++ [ECloseWriter p])).
        -- rewrite protocol_app. simpl. rewrite protocol_app, Hp. simpl.
           by rewrite decide_True.
        -- cbn [trace]. rewrite Htr, Hw1. cbn [trace]. by rewrite <- !app_assoc.
    + injection Hmain as <- <-.
      destruct (for_loop_protocol _ _ _ None _ _ _
                  (eq_refl : writer_state (LoopVars 0 0 None) None) Hloop)
        as (added & cur & Htr & Hp & Hst).
      exists cur. split; [|done].
      rewrite (trace_since_app w w2 ([EListdir (annotations_dir ARGS);
                 ERmtree (output ARGS); EMkdir (output ARGS)] ++ added)).
      * by rewrite protocol_app.
      * rewrite Htr, Hw1. cbn [trace]. by rewrite <- !app_assoc.
  - apply main_setup_Raise in Hsetup as (Hmain' & _ & added & Htr & Hp).
    rewrite Hmain' in Hmain. injection Hmain as <- <-.
    exists None. split; [by rewrite (trace_since_app _ _ _ Htr)|].
    intros (y & w2 & [=]).
Qed.

(** X6. In every successful run, whatever the number of shards, the
    writers are used one at a time: a writer is opened only when none is
    open, every record goes to the writer that is open, and each writer is
    closed after its last record; none is left open at the end, so the
    writers closed are the writers opened, in the same order. *)
Theorem X6_writers_closed (rnd : nat → nat) (w w' : world)
    (Hrun : main json_load PIL_Image_open SerializeToString ARGS rnd w = (Ok (), w')) :
  protocol None (trace_since w w') = Some None ∧
  closed (trace_since w w') = opened (trace_since w w').
Proof.
  destruct (main_protocol _ _ _ _ Hrun) as (cur & Hp & ->). split; [done|].
  apply protocol_opened_closed in Hp. simpl in Hp. by rewrite app_nil_r in Hp.
Qed.

(** X7. A run that fails after its setup, inside the loop, ends with the
    writer of the current shard still open: the script never closes it.
    Up to there the writers were used one at a time, and all the others
    were closed. *)
Theorem X7_abort_leaves_writer_open (rnd : nat → nat) (w w1 w' : world)
    (es : list string) (shard_size : Z) (x : exn)
    (Hsetup : main_setup ARGS rnd w = (Ok (es, shard_size), w1))
    (Hrun : main json_load PIL_Image_open SerializeToString ARGS rnd w = (Raise x, w')) :
  ∃ p, protocol None (trace_since w w') = Some (Some p) ∧
       opened (trace_since w w') = (closed (trace_since w w') ++ [p])%list.
Proof.
  destruct (main_protocol _ _ _ _ Hrun) as (cur & Hp & Hcur).
  destruct Hcur as [p ->]; [by eexists _, _|].
  exists p. split; [done|]. by apply protocol_opened_closed in Hp.
Qed.

(** X8. Whatever its outcome, a run changes files through these
    operations only: the removal and the creation of the output path as it
    was given, and the opening, writing and closing of writers on shards
    os.path.join(output, 'shard-%04d.tfrecords' % j). Hence, when the output
    path is written in normal form, every path in normal form and from the
    same starting point that is not the output path and does not lie below
    it holds after the run what it held before. *)
Theorem X8_outside_untouched (rnd : nat → nat) (w w' : world) (r : result ())
    (Hrun : main json_load PIL_Image_open SerializeToString ARGS rnd w = (r, w')) :
  Forall (on_output (output ARGS)) (trace_since w w') ∧
  ∀ k, outside (output ARGS) k = true → fs w' !! k = fs w !! k.
Proof.
  assert (Hv0 : writer_in_output (output ARGS) (LoopVars 0 0 None)) by (by intros q).
  destruct (main_setup ARGS rnd w) as [[[es ss]|x] w1] eqn:Hsetup.
  - rewrite (main_after_setup _ _ _ _ _ Hsetup) in Hrun.
    destruct (main_setup_events _ _ _ _ Hsetup) as (a0 & Ht0 & Ha0).
    apply main_setup_Ok in Hsetup as (_ & _ & _ & _ & _ & Hw1).
    unfold bind in Hrun.
    destruct (for_loop _ es _ w1) as [[v|y] w2] eqn:Hloop.
    + destruct (for_loop_events _ _ _ _ _ _ Hv0 Hloop)
        as [(a1 & Ht1 & Ha1) Hv].
      assert (∃ fin, trace w' = (trace w2 ++ fin)%list ∧ fs w' = fs w2 ∧
                     Forall (on_output (output ARGS)) fin) as (fin & Hfin & Hfs & Hafin).
      { unfold main_finish in Hrun. destruct (negb _).
        - destruct (writer v) as [p|] eqn:Hp; cbn in Hrun; injection Hrun as _ <-.
          + exists [ECloseWriter p]. split_and!; [done..|].
            repeat constructor. by apply Hv.
          + exists []. by rewrite app_nil_r.
        - injection Hrun as _ <-. exists []. by rewrite app_nil_r. }
      split.
      * rewrite (trace_since_app w w' (a0 ++ a1 ++ fin)).
        -- by rewrite !Forall_app.
        -- rewrite Hfin, Ht1, Ht0. by rewrite <- !app_assoc.
      * intros k Hk. destruct (outside_spec _ _ Hk) as (Hne & Hin & Hksp).
        rewrite Hfs. rewrite (for_loop_frame _ _ _ _ _ _ k Hv0 Hloop Hksp).
        rewrite Hw1. cbn [fs]. rewrite lookup_insert_ne by done.
        by apply removed_tree_outside.
    + injection Hrun as _ <-.
      destruct (for_loop_events _ _ _ _ _ _ Hv0 Hloop)
        as [(a1 & Ht1 & Ha1) _].
      split.
      * rewrite (trace_since_app w w2 (a0 ++ a1)).
        -- by rewrite Forall_app.
        -- rewrite Ht1, Ht0. by rewrite <- !app_assoc.
      * intros k Hk. destruct (outside_spec _ _ Hk) as (Hne & Hin & Hksp).
        rewrite (for_loop_frame _ _ _ _ _ _ k Hv0 Hloop Hksp).
        rewrite Hw1. cbn [fs]. rewrite lookup_insert_ne by done.
        by apply removed_tree_outside.
  - destruct (main_setup_events _ _ _ _ Hsetup) as (a0 & Ht0 & Ha0).
    apply main_setup_Raise in Hsetup as (Hmain' & Hfs & _).
    rewrite Hmain' in Hrun. injection Hrun as _ <-. split.
    + by rewrite (trace_since_app _ _ _ Ht0).
    + intros k _. by rewrite Hfs.
Qed.

(** X9. In a successful run on a data set whose annotation files, and
    the images they refer to, are outside the output directory, the i-th
    record written is the record that the data set held for the i-th entry
    of the shuffled listing when the run began: the serialization of the
    example that the validator builds from the annotation parsed from that
    entry's file. The records correspond to the entries one to one and in
    order. *)
Theorem X9_records_from_entries (rnd : nat → nat) (w w' : world)
    (Hrun : main json_load PIL_Image_open SerializeToString ARGS rnd w = (Ok (), w'))
    (Houtside : Forall (λ e, entry_outside json_load ARGS w e = true)
                  (dir_entries (annotations_dir ARGS) w)) :
  Some <$> records_written (trace_since w w')
  = entry_record json_load PIL_Image_open SerializeToString ARGS w
      <$> random_shuffle rnd (dir_entries (annotations_dir ARGS) w).
Proof.
  assert (Hv0 : writer_in_output (output ARGS) (LoopVars 0 0 None)) by (by intros q).
  destruct (main_setup ARGS rnd w) as [[[es ss]|x] w1] eqn:Hsetup.
  - rewrite (main_after_setup _ _ _ _ _ Hsetup) in Hrun.
    apply main_setup_Ok in Hsetup as (_ & -> & _ & _ & _ & Hw1).
    unfold bind in Hrun.
    destruct (for_loop _ _ _ w1) as [[v|y] w2] eqn:Hloop; [|done].
    assert (Hsame : ∀ k, outside (output ARGS) k = true → fs w1 !! k = fs w !! k).
    { intros k Hk. destruct (outside_spec _ _ Hk) as (Hne & Hin & _).
      rewrite Hw1. cbn [fs]. rewrite lookup_insert_ne by done.
      by apply removed_tree_outside. }
    assert (Hes : Forall (λ e, entry_outside json_load ARGS w e = true)
                    (random_shuffle rnd (dir_entries (annotations_dir ARGS) w))).
    { by rewrite (random_shuffle_perm rnd). }
    destruct (for_loop_records _ _ _ _ _ _ _ Hv0 Hsame Hes Hloop)
      as (added & Htr & Hall).
    assert (∃ fin, trace w' = (trace w2 ++ fin)%list ∧ records_written fin = [])
      as (fin & Hfin & Hnil).
    { unfold main_finish in Hrun. destruct (negb _).
      - destruct (writer v) as [p|]; [|done]. cbn in Hrun. injection Hrun as <-.
        by exists [ECloseWriter p].
      - injection Hrun as <-. exists []. by rewrite app_nil_r. }
    rewrite (trace_since_app w w' ([EListdir (annotations_dir ARGS);
               ERmtree (output ARGS); EMkdir (output ARGS)] ++ added ++ fin)).
    + unfold records_written in *. rewrite !omap_app, Hnil, app_nil_r. exact Hall.
    + rewrite Hfin, Htr, Hw1. cbn [trace]. by rewrite <- !app_assoc.
  - apply main_setup_Raise in Hsetup as (Hmain' & _). congruence.
Qed.
End AnyCapacity.

(** ** The sizes of the shards *)

Lemma fmap_seq_const {A} (f : nat → A) (c : A) (q : nat) :
  (∀ j, (j < q)%nat → f j = c) → f <$> seq 0 q = replicate q c.
Proof.
  induction q as [|q IH]; intros Hf; [done|].
  rewrite seq_S, fmap_app, IH by (intros j Hj; apply Hf; lia).
  simpl. rewrite Hf by lia. by rewrite <- replicate_cons_app.
Qed.

Lemma cut_sizes_eq (cap n : nat) :
  (0 < cap)%nat →
  (λ j, cap `min` (n - j * cap))%nat <$> seq 0 (chunks_needed cap n) = cut_sizes cap n.
Proof.
  intros Hcap. unfold cut_sizes.
  pose proof (Nat.div_mod_eq n cap) as Hdm.
  pose proof (Nat.mod_upper_bound n cap ltac:(lia)) as Hm.
  destruct (Nat.eqb_spec (n mod cap) 0) as [Hz|Hnz].
  - rewrite (chunks_needed_spec cap n (n / cap)) by nia.
    rewrite app_nil_r. apply fmap_seq_const. intros j Hj. nia.
  - rewrite (chunks_needed_spec cap n (S (n / cap))) by nia.
    rewrite seq_S, fmap_app. f_equal.
    + apply fmap_seq_const. intros j Hj. nia.
    + simpl. f_equal. nia.
Qed.


Lemma cut_sizes_divisible (q s : nat) :
  (0 < q)%nat → cut_sizes q (q * s) = replicate s q.
Proof.
  intros Hq. unfold cut_sizes.
  rewrite (Nat.mul_comm q s), Nat.div_mul, Nat.Div0.mod_mul by lia.
  by rewrite app_nil_r.
Qed.


Lemma ceil_div_exact (q s : Z) : 0 < s → ceil_div (q * s) s = q.
Proof.
  intros Hs. unfold ceil_div.
  symmetry. apply (Z.div_unique_pos _ _ _ (s - 1)); lia.
Qed.


Lemma math_ceil_opp (n s : Z) :
  math_ceil (Qc_of_Z n / Qc_of_Z s)%Qc = - (- n / s).
Proof.
  unfold math_ceil.
  assert (this (Qc_of_Z n / Qc_of_Z s)%Qc == inject_Z n / inject_Z s)%Q as ->.
  { unfold Qcdiv, Qcmult, Qcinv, Q2Qc, Qc_of_Z. cbn [this].
    rewrite !Qred_correct. reflexivity. }
  unfold Qceiling.
  assert (- (inject_Z n / inject_Z s) == inject_Z (- n) / inject_Z s)%Q as ->.
  { rewrite inject_Z_opp. unfold Qdiv. ring. }
  by rewrite <- Zdiv_Qdiv.
Qed.

(** With a negative number of shards the capacity is not positive. *)
Lemma math_ceil_negative (n s : Z) :
  0 ≤ n → s < 0 → math_ceil (Qc_of_Z n / Qc_of_Z s)%Qc ≤ 0.
Proof.
  intros Hn Hs. rewrite math_ceil_opp.
  pose proof (Z.div_mod (- n) s ltac:(lia)) as H1.
  pose proof (Z.mod_neg_bound (- n) s Hs) as H2.
  nia.
Qed.

Section Sizes.
Variable json_load : bytes → result Annotation.
Variable PIL_Image_open : bytes → result PILImage.
Variable SerializeToString : Example → bytes.
Variable ARGS : Args.

Abbreviation body := (loop_body json_load PIL_Image_open SerializeToString ARGS).
Abbreviation sp := (shard_path (output ARGS)).

Lemma main_Ok_sizes (rnd : nat → nat) (w w' : world) :
  main json_load PIL_Image_open SerializeToString ARGS rnd w = (Ok (), w') →
  0 < num_shards ARGS →
  let N := length (dir_entries (annotations_dir ARGS) w) in
  let cap := Z.to_nat (ceil_div (Z.of_nat N) (num_shards ARGS)) in
  shard_sizes w w' = cut_sizes cap N ∧ ((0 < N)%nat → (0 < cap)%nat).
Proof.
  intros Hrun HS N cap.
  destruct (main_Ok_facts _ _ _ _ rnd w w' Hrun HS)
    as (_ & Hlen & _ & _ & Hopened & Hshards & _).
  fold N in Hlen, Hopened, Hshards. fold cap in Hopened, Hshards.
  destruct (decide (N = 0)%nat) as [HN0|HNpos].
  - split; [|lia]. unfold shard_sizes. rewrite Hopened.
    assert (cap = 0%nat) as ->.
    { subst cap. rewrite HN0. unfold ceil_div. rewrite Z.div_small; lia. }
    by rewrite HN0.
  - destruct (chunks_needed_le N (num_shards ARGS) HS ltac:(lia)) as (Hcap & _ & _).
    fold cap in Hcap. split; [|done].
    destruct (chunks_needed_bounds cap N Hcap) as [Hk1 Hk2].
    rewrite (shard_sizes_eq ARGS w w' cap (chunks_needed cap N)
               (records_written (trace_since w w'))).
    + rewrite <- cut_sizes_eq by done. apply list_fmap_ext. intros i j _.
      by rewrite chunk_length, Hlen.
    + done.
    + intros j Hj. apply Hshards. nia.
Qed.


(** X11. When the number of entries is a multiple q * num_shards of a
    positive number of shards, with q at least one, a successful run makes
    exactly num_shards shards of q records each. *)
Theorem X11_even_shards (rnd : nat → nat) (w w' : world) (q : nat)
    (Hrun : main json_load PIL_Image_open SerializeToString ARGS rnd w = (Ok (), w'))
    (HS : 0 < num_shards ARGS)
    (Hq : (0 < q)%nat)
    (HN : length (dir_entries (annotations_dir ARGS) w)
          = (q * Z.to_nat (num_shards ARGS))%nat) :
  shard_sizes w w' = replicate (Z.to_nat (num_shards ARGS)) q.
Proof.
  destruct (main_Ok_sizes rnd w w' Hrun HS) as [-> _]. rewrite HN.
  replace (Z.of_nat (q * Z.to_nat (num_shards ARGS)))
    with (Z.of_nat q * num_shards ARGS) by lia.
  rewrite ceil_div_exact, Nat2Z.id by done. by apply cut_sizes_divisible.
Qed.


(** X13. After a successful run with a positive number of shards, the
    contents of the shard files, read one after the other in the order the
    shards were opened, are the records of the run in the order they were
    written: sharding loses, repeats and reorders nothing. *)
Theorem X13_shards_concatenate (rnd : nat → nat) (w w' : world)
    (Hrun : main json_load PIL_Image_open SerializeToString ARGS rnd w = (Ok (), w'))
    (HS : 0 < num_shards ARGS) :
  mjoin ((λ p, file_chunks (fs w' !! p)) <$> opened (trace_since w w'))
  = records_written (trace_since w w').
Proof.
  destruct (main_Ok_facts _ _ _ _ rnd w w' Hrun HS)
    as (_ & Hlen & _ & _ & Hopened & Hshards & _).
  set (N := length (dir_entries (annotations_dir ARGS) w)) in *.
  set (cap := Z.to_nat (ceil_div (Z.of_nat N) (num_shards ARGS))) in *.
  set (recs := records_written (trace_since w w')) in *.
  rewrite Hopened, <- list_fmap_compose.
  destruct (decide (N = 0)%nat) as [HN0|HNpos].
  - assert (cap = 0%nat) as ->.
    { subst cap. rewrite HN0. unfold ceil_div. rewrite Z.div_small; lia. }
    rewrite HN0. simpl. symmetry. apply nil_length_inv. lia.
  - destruct (chunks_needed_le N (num_shards ARGS) HS ltac:(lia)) as (Hcap & _ & _).
    fold cap in Hcap. destruct (chunks_needed_bounds cap N Hcap) as [Hk1 Hk2].
    transitivity (take (chunks_needed cap N * cap) recs); [|apply take_ge; lia].
    rewrite <- join_chunks. f_equal. apply list_fmap_ext. intros i j Hj. simpl.
    apply lookup_seq in Hj as [-> Hlt]. rewrite Hshards by nia. done.
Qed.

(** With a capacity that is not positive the counter never reaches it:
    every record goes to the first shard. *)
Lemma for_loop_single_shard (shard_size : Z) (es : list string) (v : loop_vars)
    (w0 w : world) :
  shard_size ≤ 0 →
  for_loop (body shard_size) es (LoopVars 0 0 None) w0 = (Ok v, w) →
  ∃ tr, trace w = (trace w0 ++ tr)%list ∧
    shard_id v = 0%nat ∧ num_examples_written v = length es ∧
    (es ≠ [] → writer v = Some (sp 0)) ∧
    length (records_written tr) = length es ∧
    opened tr = (if decide (es = []) then [] else [sp 0]) ∧
    (es ≠ [] → fs w !! sp 0 = Some (File (records_written tr))) ∧
    (∀ k, k ≠ sp 0 → fs w !! k = fs w0 !! k).
Proof.
  intros Hss. revert v w. induction es as [|e es IH] using rev_ind; intros v w.
  - intros [= <- <-]. exists []. rewrite app_nil_r. by split_and!.
  - rewrite for_loop_app. unfold bind at 1.
    destruct (for_loop _ es _ w0) as [[v1|x] w1] eqn:Hloop; [|done].
    simpl. unfold bind.
    destruct (body _ e v1 w1) as [[v2|x] w2] eqn:Hbody; [|done].
    intros [= <- <-].
    destruct (IH _ _ eq_refl) as (tr & Htr & Hsid & Hnw & Hwr & Hlen & Hop & Hfile & Hother).
    apply loop_body_Ok in Hbody as (p & a & ex & Hp & Htr2 & Hfs2 & Hv2).
    rewrite Hsid, Hnw in *.
    assert ((Z.of_nat (length es + 1) =? shard_size) = false) as Hlast
      by (apply Z.eqb_neq; lia).
    rewrite Hlast in *. rewrite app_nil_r in Htr2.
    assert (p = sp 0) as ->.
    { destruct es; [done|]. simpl in Hp. rewrite Hwr in Hp by done. by injection Hp. }
    eexists. split; [exact (trace_since_trans _ _ _ _ _ Htr Htr2)|].
    assert (Hrecs : records_written
                      (tr ++ (if (length es =? 0)%nat then [EOpenWriter (sp 0)] else []) ++
                       [EOpen (os_path_join (annotations_dir ARGS) e);
                        ERead (image_path a (image_dir ARGS));
                        EWrite (sp 0) (SerializeToString ex)])
                    = (records_written tr ++ [SerializeToString ex])%list).
    { unfold records_written. rewrite !omap_app. by destruct (length es =? 0)%nat. }
    rewrite Hrecs. subst v2. cbn [shard_id num_examples_written writer].
    split_and!; try done.
    + rewrite length_app. simpl. lia.
    + rewrite !length_app. simpl. lia.
    + unfold opened in *. rewrite !omap_app, Hop.
      rewrite (decide_False (P := (es ++ [e])%list = [])) by (by destruct es).
      destruct es; simpl; [done|]. by rewrite ?app_nil_r.
    + intros _. rewrite Hfs2, lookup_insert_eq. do 3 f_equal.
      destruct es as [|e0 es]; simpl.
      * destruct (records_written tr); [done|]. simpl in Hlen. lia.
      * rewrite Hfile by done. done.
    + intros k Hk. rewrite Hfs2, lookup_insert_ne by done. by apply Hother.
Qed.

(** X14. With a negative number of shards the capacity computed on
    line 140 is zero or negative, the counter of the loop never equals it,
    and no shard is ever completed: a successful run over N >= 1 entries
    opens the first shard only, writes all N records to it, closes it at
    the end, and leaves this one file in the output directory. *)
Theorem X14_negative_shards (rnd : nat → nat) (w w' : world)
    (Hrun : main json_load PIL_Image_open SerializeToString ARGS rnd w = (Ok (), w'))
    (HS : num_shards ARGS < 0)
    (HN : (1 ≤ length (dir_entries (annotations_dir ARGS) w))%nat)
    (Hwf : absent_is_empty (output ARGS) w) :
  let recs := records_written (trace_since w w') in
  opened (trace_since w w') = [shard_path (output ARGS) 0] ∧
  closed (trace_since w w') = [shard_path (output ARGS) 0] ∧
  length recs = length (dir_entries (annotations_dir ARGS) w) ∧
  fs w' !! shard_path (output ARGS) 0 = Some (File recs) ∧
  dir_entries (output ARGS) w' = [shard_name 0].
Proof.
  intros recs. subst recs.
  destruct (main_setup ARGS rnd w) as [[[es ss]|x] w1] eqn:Hsetup.
  2: { apply (main_setup_Raise json_load PIL_Image_open SerializeToString) in Hsetup
         as (Hmain' & _). congruence. }
  rewrite (main_after_setup _ _ _ _ _ _ _ _ _ Hsetup) in Hrun.
  apply main_setup_Ok in Hsetup as (_ & Hes & _ & Hss & Hout & Hw1).
  assert (Hlen : length es = length (dir_entries (annotations_dir ARGS) w))
    by (by rewrite Hes, random_shuffle_length).
  assert (ss ≤ 0) as Hneg by (rewrite Hss; apply math_ceil_negative; lia).
  unfold bind in Hrun.
  destruct (for_loop _ es _ w1) as [[v|y] w2] eqn:Hloop; [|done].
  destruct (for_loop_single_shard _ _ _ _ _ Hneg Hloop)
    as (tr & Htr & Hsid & Hnw & Hwr & Hrecs & Hop & Hfile & Hother).
  assert (Hne : es ≠ []) by (intros ->; simpl in Hlen; lia).
  unfold main_finish in Hrun. rewrite Hnw in Hrun.
  assert ((length es =? 0)%nat = false) as Hnz by (apply Nat.eqb_neq; lia).
  rewrite Hnz, Hwr in Hrun by done. cbn in Hrun. injection Hrun as <-. cbn [fs].
  rewrite decide_False in Hop by done.
  rewrite (trace_since_app w _ ([EListdir (annotations_dir ARGS); ERmtree (output ARGS);
             EMkdir (output ARGS)] ++ tr ++ [ECloseWriter (sp 0)])).
  2: { cbn [trace]. rewrite Htr, Hw1. cbn [trace]. by rewrite <- !app_assoc. }
  assert (Hrw : records_written ([EListdir (annotations_dir ARGS); ERmtree (output ARGS);
                  EMkdir (output ARGS)] ++ tr ++ [ECloseWriter (sp 0)])
                = records_written tr).
  { unfold records_written. rewrite !omap_app. simpl. by rewrite app_nil_r. }
  rewrite Hrw.
  assert (Hclosed : closed tr = []).
  { destruct (for_loop_protocol json_load PIL_Image_open SerializeToString ARGS
                _ _ _ None _ _ _ (eq_refl : writer_state (LoopVars 0 0 None) None) Hloop)
      as (added & cur & Htr' & Hp & Hst).
    rewrite Htr in Htr'. apply app_inv_head in Htr'. subst added.
    apply protocol_opened_closed in Hp. simpl in Hp. rewrite Hop in Hp.
    destruct (closed tr) as [|c [|c' l]]; [done| |].
    - destruct cur; simpl in Hp; [done|]. unfold writer_state in Hst.
      rewrite Hnw, Hnz in Hst. by destruct Hst as [_ [? ?]].
    - destruct cur; simpl in Hp; [|done]. injection Hp as _ Hp. by destruct l. }
  split_and!.
  - unfold opened in *. rewrite !omap_app, Hop. done.
  - unfold closed in *. rewrite !omap_app, Hclosed. done.
  - by rewrite Hrecs.
  - by apply Hfile.
  - apply Permutation_singleton_r. apply NoDup_Permutation.
    + apply NoDup_omap_inj; [apply entry_name_inj | apply NoDup_fst_map_to_list].
    + apply NoDup_singleton.
    + intros name. rewrite elem_of_dir_entries, list_elem_of_singleton. cbn [fs]. split.
      * intros (k & [n Hn] & Hname). destruct (entry_name_inside _ _ _ Hname) as [Hk Heq].
        destruct (decide (k = sp 0)) as [->|Hk0].
        -- rewrite entry_name_shard in Hname. congruence.
        -- rewrite Hother, Hw1 in Hn by done. cbn [fs] in Hn.
           rewrite reset_empty in Hn; done.
      * intros ->. exists (sp 0). split; [|apply entry_name_shard].
        rewrite Hfile by done. done.
Qed.
End Sizes.

(** ** More on the validator *)

Lemma landmarks_loop_app width height xmin xmax ymin ymax good ls acc :
  Forall (landmark_in_box width height xmin xmax ymin ymax) good →
  landmarks_loop width height xmin xmax ymin ymax (good ++ ls) acc
  = landmarks_loop width height xmin xmax ymin ymax ls
      (acc ++ mjoin (swap_pair width height <$> good)).
Proof.
  intros Hgood. revert acc.
  induction Hgood as [|p good (x & y & -> & [Hy1 Hy2] & [Hx1 Hx2]) _ IH]; intros acc.
  - by rewrite app_nil_r.
  - cbn [app landmarks_loop]. fold (norm y height) (norm x width).
    apply fle_true in Hy1, Hy2, Hx1, Hx2. rewrite Hy1, Hy2, Hx1, Hx2. simpl.
    rewrite IH. by rewrite <- app_assoc.
Qed.

Section ValidatorMore.
Variable PIL_Image_open : bytes → result PILImage.

(** X15. A record is built only from an image file with a .jpg or .jpeg
    name that exists, decodes as an RGB JPEG and has exactly the declared
    width and height, both positive. The record has the six features
    image, xmin, xmax, ymin, ymax, landmarks and no other, and its image
    feature holds the bytes of the file as they were read, not
    re-encoded. *)
Theorem X15_accepted_record (a : Annotation) (dir : string) (w w' : world)
    (ex : Example)
    (Hacc : dict_to_tf_example PIL_Image_open a dir w = (Ok ex, w')) :
  ∃ chunks image,
    fs w !! os_path_join dir (ann_filename a) = Some (File chunks) ∧
    PIL_Image_open (concat chunks) = Ok image ∧
    (endswith (ann_filename a) ".jpg" = true ∨ endswith (ann_filename a) ".jpeg" = true) ∧
    im_format image = "JPEG" ∧ im_mode image = "RGB" ∧
    im_size image = (size_width (ann_size a), size_height (ann_size a)) ∧
    0 < size_width (ann_size a) ∧ 0 < size_height (ann_size a) ∧
    ex !! "image" = Some (BytesList [concat chunks]) ∧
    dom ex = feature_keys.
Proof.
  apply dict_Ok_spec in Hacc
    as (encoded_jpg & (Hext & (chunks & Hfile & ->) & (image & Hpil & Hfmt & Hmode & Hsz)
                       & Hw & Hh) & _ & _ & _ & -> & _).
  exists chunks, image. split_and!; try done.
  by apply orb_true_iff.
Qed.

(** X16. The landmarks are checked in order, and for each the y
    coordinate before the x coordinate: when the image and box checks pass
    and the landmarks before one are inside the box, that landmark decides
    the outcome whatever comes after it. If it is not a pair the unpacking
    of line 97 raises a ValueError; if its normalized y, the float
    y / height, lies outside [ymin, ymax], the assertion of line 99 fails,
    whatever its x; if its y lies inside and its normalized x, the float
    x / width, outside [xmin, xmax], the assertion of line 100 fails. The
    bounds are the floats of the normalized box. *)
Theorem X16_first_bad_landmark (a : Annotation) (dir : string) (w : world)
    (encoded_jpg : bytes) (good rest : list (list Qc)) (bad : list Qc)
    (Hpass : image_checks_pass PIL_Image_open a dir w encoded_jpg)
    (Hbox : (ymin_of a < ymax_of a)%Qc ∧ (xmin_of a < xmax_of a)%Qc)
    (Hlandmarks : ann_landmarks a = (good ++ bad :: rest)%list)
    (Hgood : Forall (landmark_in_box (width_of a) (height_of a) (xmin_of a) (xmax_of a)
                       (ymin_of a) (ymax_of a)) good) :
  let outcome := dict_to_tf_example PIL_Image_open a dir w in
  (length bad ≠ 2%nat → outcome = (Raise ValueError, after_read a dir w)) ∧
  (∀ x y, bad = [x; y] →
     ¬ (ymin_of a ≤ norm y (height_of a) ≤ ymax_of a)%Qc →
     outcome = (Raise (AssertionError 99), after_read a dir w)) ∧
  (∀ x y, bad = [x; y] →
     (ymin_of a ≤ norm y (height_of a) ≤ ymax_of a)%Qc →
     ¬ (xmin_of a ≤ norm x (width_of a) ≤ xmax_of a)%Qc →
     outcome = (Raise (AssertionError 100), after_read a dir w)).
Proof.
  intros outcome. subst outcome. rewrite (dict_after_checks _ _ _ _ _ Hpass).
  unfold geometry. destruct Hbox as [Hy%flt_true Hx%flt_true]. rewrite Hy, Hx. simpl.
  rewrite Hlandmarks, landmarks_loop_app by done. split_and!.
  - intros Hlen. destruct bad as [|x [|y [|z bad]]]; simpl in *; done.
  - intros x y -> Hny. cbn [landmarks_loop]. fold (norm y (height_of a)).
    destruct (fle (norm y _) (ymax_of a) && fle (ymin_of a) (norm y _)) eqn:Hb; [|done].
    apply andb_true_iff in Hb as [H1%fle_true H2%fle_true]. by destruct Hny.
  - intros x y -> [Hy1%fle_true Hy2%fle_true] Hnx. cbn [landmarks_loop].
    fold (norm y (height_of a)) (norm x (width_of a)). rewrite Hy1, Hy2. simpl.
    destruct (fle (norm x _) (xmax_of a) && fle (xmin_of a) (norm x _)) eqn:Hb; [|done].
    apply andb_true_iff in Hb as [H1%fle_true H2%fle_true]. by destruct Hnx.
Qed.

(** X17. The image checks run in a fixed order and the first that fails
    decides the exception. A file name without a .jpg or .jpeg ending
    fails the assertion of line 71 before the file is read. A directory at
    the image path makes the read fail. Once the file is read: a failure
    of the decoder is passed on; then the format is checked (line 80), then
    the mode (line 81), then that the declared width and height are
    positive (line 85), and last that they are the decoded ones
    (line 86). *)
Theorem X17_image_check_order (a : Annotation) (dir : string) (w : world) :
  let outcome := dict_to_tf_example PIL_Image_open a dir w in
  let named_jpeg := endswith (ann_filename a) ".jpg" || endswith (ann_filename a) ".jpeg" in
  let width := size_width (ann_size a) in
  let height := size_height (ann_size a) in
  (named_jpeg = false → outcome = (Raise (AssertionError 71), w)) ∧
  (named_jpeg = true → fs w !! os_path_join dir (ann_filename a) = Some Dir →
   outcome = (Raise FailedPreconditionError, after_read a dir w)) ∧
  (∀ chunks, named_jpeg = true →
     fs w !! os_path_join dir (ann_filename a) = Some (File chunks) →
     (∀ x, PIL_Image_open (concat chunks) = Raise x →
        outcome = (Raise x, after_read a dir w)) ∧
     (∀ image, PIL_Image_open (concat chunks) = Ok image →
        (im_format image ≠ "JPEG" →
         outcome = (Raise (AssertionError 80), after_read a dir w)) ∧
        (im_format image = "JPEG" → im_mode image ≠ "RGB" →
         outcome = (Raise (AssertionError 81), after_read a dir w)) ∧
        (im_format image = "JPEG" → im_mode image = "RGB" →
         width ≤ 0 ∨ height ≤ 0 →
         outcome = (Raise (AssertionError 85), after_read a dir w)) ∧
        (im_format image = "JPEG" → im_mode image = "RGB" →
         0 < width → 0 < height → im_size image ≠ (width, height) →
         outcome = (Raise (AssertionError 86), after_read a dir w)))).
Proof.
  intros outcome named_jpeg width height. subst outcome named_jpeg width height.
  unfold dict_to_tf_example, after_read, image_path. monad_unfold. split_and!.
  - by intros ->.
  - intros -> Hdir. simpl. by rewrite Hdir.
  - intros chunks -> Hfile. simpl. rewrite Hfile. split.
    + by intros x ->.
    + intros image ->. split_and!.
      * intros Hfmt. by destruct (String.eqb_spec (im_format image) "JPEG").
      * intros -> Hmode. simpl. by destruct (String.eqb_spec (im_mode image) "RGB").
      * intros -> -> Hsize. simpl.
        destruct (Z.ltb_spec 0 (size_width (ann_size a))),
          (Z.ltb_spec 0 (size_height (ann_size a))); try done; lia.
      * intros -> -> Hw%Z.ltb_lt Hh%Z.ltb_lt Hsize. simpl. rewrite Hw, Hh. simpl.
        destruct (Z.eqb_spec (im_size image).1 (size_width (ann_size a))),
          (Z.eqb_spec (im_size image).2 (size_height (ann_size a))); try done.
        destruct Hsize. destruct (im_size image). simpl in *. congruence.
Qed.
End ValidatorMore.

(** ** Shard names *)

(** X18. The shard index can be read back from the digits that
    ['%04d'] prints for it, whatever its size; the file named after it is an
    entry of the output directory itself; and shards with different indices
    have different paths, so that no shard overwrites another. *)
Theorem X18_shard_paths (out : string) (i j : nat) :
  parse_nat (format_04d j) = Some j ∧
  entry_name out (shard_path out j) = Some (shard_name j) ∧
  (i ≠ j → shard_path out i ≠ shard_path out j).
Proof.
  split_and!; [apply parse_format_04d | apply entry_name_shard |].
  intros Hij Heq%shard_path_inj. done.
Qed.

(** ** Entries that cannot be read *)

Section Unreadable.
Variable json_load : bytes → result Annotation.
Variable PIL_Image_open : bytes → result PILImage.
Variable SerializeToString : Example → bytes.

(** X19. The loop takes every entry of the listing for an annotation
    file and skips none: when the entries before [e] were processed and
    [e] is a directory, the run ends with the IsADirectoryError of line
    156; when nothing is at its path any more, with FileNotFoundError; and
    when its file does not parse, with the exception of [json.load]. In
    each case the run stops in the world in which the entry was opened, with
    no image read. *)
Theorem X19_unreadable_entry (ARGS : Args) (rnd : nat → nat) (w w1 wl : world)
    (es1 es2 : list string) (e : string) (shard_size : Z) (v1 : loop_vars)
    (Hsetup : main_setup ARGS rnd w = (Ok ((es1 ++ e :: es2)%list, shard_size), w1))
    (Hbefore : for_loop (loop_body json_load PIL_Image_open SerializeToString ARGS
                           shard_size) es1 (LoopVars 0 0 None) w1 = (Ok v1, wl)) :
  let opened_at := before_validation ARGS e v1 wl in
  let path := os_path_join (annotations_dir ARGS) e in
  let outcome := main json_load PIL_Image_open SerializeToString ARGS rnd w in
  (fs opened_at !! path = Some Dir → outcome = (Raise IsADirectoryError, opened_at)) ∧
  (fs opened_at !! path = None → outcome = (Raise FileNotFoundError, opened_at)) ∧
  (∀ chunks x, fs opened_at !! path = Some (File chunks) →
     json_load (concat chunks) = Raise x → outcome = (Raise x, opened_at)).
Proof.
  intros opened_at path outcome. subst opened_at path outcome.
  assert (Hfail : ∀ x wf,
            loop_body json_load PIL_Image_open SerializeToString ARGS shard_size e v1 wl
            = (Raise x, wf) →
            main json_load PIL_Image_open SerializeToString ARGS rnd w = (Raise x, wf)).
  { intros x wf Hbody. rewrite main_unfold. unfold bind at 1. rewrite Hsetup.
    cbn [fst snd]. unfold bind.
    by rewrite (for_loop_raise _ _ _ _ _ _ _ _ _ _ Hbefore Hbody). }
  unfold before_validation. split_and!.
  - intros Hdir. apply Hfail. revert Hdir. unfold loop_body, shard_path. io_unfold.
    destruct (num_examples_written v1 =? 0)%nat; cbn [fs trace]; by intros ->.
  - intros Hnone. apply Hfail. revert Hnone. unfold loop_body, shard_path. io_unfold.
    destruct (num_examples_written v1 =? 0)%nat; cbn [fs trace]; by intros ->.
  - intros chunks x Hfile Hjson. apply Hfail. revert Hfile.
    unfold loop_body, shard_path. io_unfold.
    destruct (num_examples_written v1 =? 0)%nat; cbn [fs trace]; intros ->;
      by rewrite Hjson.
Qed.
End Unreadable.

(** ** The further properties on concrete runs *)

Lemma ten_world_annotations : fs ten_world !! "annotations" = Some Dir.
Proof. vm_compute; reflexivity. Qed.

(** No shard asked for: the ten entries are listed and nothing else
    happens. *)
Lemma X1_zero_shards_witness :
  fs ten_world !! annotations_dir (run_args 0) = Some Dir ∧
  num_shards (run_args 0) = 0 ∧
  zero_run = (Raise ZeroDivisionError, World (fs ten_world) [EListdir "annotations"]).
Proof.
  split; [exact ten_world_annotations|]. split; [reflexivity|].
  exact (X1_zero_shards json_stub pil_400x500 serialize_stub (run_args 0) no_swap
           ten_world ten_world_annotations eq_refl).
Defined.

(** An annotations path that does not exist; one that is the scenario's
    image. *)
Lemma X2_listing_fails_witness :
  fs ten_world !! "nowhere" = None ∧
  main json_stub pil_400x500 serialize_stub (listing_args "nowhere") no_swap ten_world
  = (Raise FileNotFoundError, World (fs ten_world) [EListdir "nowhere"]) ∧
  fs ten_world !! "images/1.jpg" = Some (File [[Byte.xff; Byte.xd8]]) ∧
  main json_stub pil_400x500 serialize_stub (listing_args "images/1.jpg") no_swap ten_world
  = (Raise NotADirectoryError, World (fs ten_world) [EListdir "images/1.jpg"]).
Proof.
  assert (fs ten_world !! annotations_dir (listing_args "nowhere") = None) as Hnone
    by (vm_compute; reflexivity).
  assert (fs ten_world !! annotations_dir (listing_args "images/1.jpg")
          = Some (File [[Byte.xff; Byte.xd8]])) as Hfile by (vm_compute; reflexivity).
  split; [exact Hnone|]. split.
  - exact (proj1 (X2_listing_fails json_stub pil_400x500 serialize_stub
                    (listing_args "nowhere") no_swap ten_world) Hnone).
  - split; [exact Hfile|].
    exact (proj2 (X2_listing_fails json_stub pil_400x500 serialize_stub
                    (listing_args "images/1.jpg") no_swap ten_world) _ Hfile).
Defined.

(** The scenario's image as the output path: it is still there after the
    run. *)
Lemma X3_output_is_a_file_witness :
  fs ten_world !! annotations_dir file_output_args = Some Dir ∧
  num_shards file_output_args ≠ 0 ∧
  fs ten_world !! output file_output_args = Some (File [[Byte.xff; Byte.xd8]]) ∧
  main json_stub pil_400x500 serialize_stub file_output_args no_swap ten_world
  = (Raise FileExistsError,
     World (fs ten_world)
       [EListdir "annotations"; ERmtree "images/1.jpg"; EMkdir "images/1.jpg"]).
Proof.
  assert (num_shards file_output_args ≠ 0) as HS by (vm_compute; discriminate).
  assert (fs ten_world !! output file_output_args = Some (File [[Byte.xff; Byte.xd8]]))
    as Hout by (vm_compute; reflexivity).
  split; [exact ten_world_annotations|]. split; [exact HS|]. split; [exact Hout|].
  exact (X3_output_is_a_file json_stub pil_400x500 serialize_stub file_output_args
           no_swap ten_world _ ten_world_annotations HS Hout).
Defined.

(** No annotation: the stale file of the output directory is gone and
    nothing has taken its place. *)
Lemma X4_no_annotations_witness :
  fs empty_world !! annotations_dir (run_args 3) = Some Dir ∧
  dir_entries (annotations_dir (run_args 3)) empty_world = [] ∧
  num_shards (run_args 3) ≠ 0 ∧
  fs empty_world !! output (run_args 3) = Some Dir ∧
  plain_path (output (run_args 3)) = true ∧
  fs empty_world !! "out/stale.tfrecords" = Some (File [[Byte.x00]]) ∧
  empty_run = (Ok (), empty_run.2) ∧
  opened (trace_since empty_world empty_run.2) = [] ∧
  dir_entries "out" empty_run.2 = [].
Proof.
  assert (fs empty_world !! annotations_dir (run_args 3) = Some Dir) as Hdir
    by (vm_compute; reflexivity).
  assert (dir_entries (annotations_dir (run_args 3)) empty_world = []) as Hempty
    by (vm_compute; reflexivity).
  assert (num_shards (run_args 3) ≠ 0) as HS by (vm_compute; discriminate).
  assert (fs empty_world !! output (run_args 3) = Some Dir) as Hout
    by (vm_compute; reflexivity).
  assert (plain_path (output (run_args 3)) = true) as Hplain by reflexivity.
  destruct (X4_no_annotations json_stub pil_400x500 serialize_stub (run_args 3) no_swap
              empty_world Hdir Hempty HS Hout Hplain)
    as (Hrun & Hopened & _ & _ & Hentries).
  assert (empty_run.2
          = World (<[output (run_args 3) := Dir]>
                     (removed_tree (output (run_args 3)) (fs empty_world)))
                  (trace empty_world ++
                   [EListdir (annotations_dir (run_args 3)); ERmtree (output (run_args 3));
                    EMkdir (output (run_args 3))])) as Hw
    by (unfold empty_run; rewrite Hrun; reflexivity).
  rewrite Hw.
  split_and!; [exact Hdir | exact Hempty | exact HS | exact Hout | exact Hplain
              | vm_compute; reflexivity | | exact Hopened | exact Hentries].
  unfold empty_run. rewrite Hrun. reflexivity.
Defined.

(** The annotations directory as the output: the annotation is removed
    before it is opened. *)
Lemma X5_output_is_annotations_dir_witness :
  annotations_dir overlapping_args = output overlapping_args ∧
  fs one_world !! "annotations/0.json" = Some (File [[Byte.x61]]) ∧
  ∃ w', main json_stub pil_400x500 serialize_stub overlapping_args no_swap one_world
        = (Raise FileNotFoundError, w') ∧
        entries_opened (trace_since one_world w') = ["annotations/0.json"] ∧
        fs w' !! "annotations/0.json" = None.
Proof.
  assert (fs one_world !! output overlapping_args = Some Dir) as Hdir
    by (vm_compute; reflexivity).
  assert (num_shards overlapping_args ≠ 0) as HS by (vm_compute; discriminate).
  assert (random_shuffle no_swap (dir_entries (annotations_dir overlapping_args) one_world)
          = ["0.json"]) as Hes by (vm_compute; reflexivity).
  assert ("0.json" ≠ shard_name 0) as He by (vm_compute; discriminate).
  destruct (X5_output_is_annotations_dir json_stub pil_400x500 serialize_stub
              overlapping_args no_swap one_world "0.json" [] eq_refl Hdir HS Hes He)
    as (w' & Hrun & Hopened & _ & Hgone).
  split; [reflexivity|]. split; [vm_compute; reflexivity|].
  exists w'. split; [exact Hrun|]. split; [exact Hopened|].
  exact (Hgone "annotations/0.json" eq_refl).
Defined.

(** The ten entries in three shards: three writers, each closed. *)
Lemma X6_writers_closed_witness :
  ten_run = (Ok (), ten_run.2) ∧
  protocol None (trace_since ten_world ten_run.2) = Some None ∧
  closed (trace_since ten_world ten_run.2) = opened (trace_since ten_world ten_run.2).
Proof.
  split; [exact ten_run_Ok|].
  exact (X6_writers_closed json_stub pil_400x500 serialize_stub (run_args 3) no_swap
           ten_world ten_run.2 ten_run_Ok).
Defined.

Lemma bad_setup_Ok :
  bad_setup = (Ok (["c.json"; "a.json"; "b.json"], 2), bad_setup.2).
Proof. vm_compute; reflexivity. Qed.

Lemma bad_run_Raise : bad_run = (Raise (AssertionError 92), bad_run.2).
Proof. vm_compute; reflexivity. Qed.

(** The run that fails on its second entry leaves the first shard open. *)
Lemma X7_abort_leaves_writer_open_witness :
  bad_setup = (Ok (["c.json"; "a.json"; "b.json"], 2), bad_setup.2) ∧
  bad_run = (Raise (AssertionError 92), bad_run.2) ∧
  ∃ p, protocol None (trace_since bad_world bad_run.2) = Some (Some p) ∧
       opened (trace_since bad_world bad_run.2)
       = (closed (trace_since bad_world bad_run.2) ++ [p])%list.
Proof.
  split; [exact bad_setup_Ok|]. split; [exact bad_run_Raise|].
  exact (X7_abort_leaves_writer_open json_stub pil_400x500 serialize_stub (run_args 2)
           no_swap bad_world bad_setup.2 bad_run.2 _ _ _ bad_setup_Ok bad_run_Raise).
Defined.

(** The run over the ten entries removes and creates [out] and uses
    writers on its shards; the scenario's image is what it was. *)
Lemma X8_outside_untouched_witness :
  ten_run = (Ok (), ten_run.2) ∧
  Forall (on_output "out") (trace_since ten_world ten_run.2) ∧
  outside (output (run_args 3)) "images/1.jpg" = true ∧
  fs ten_run.2 !! "images/1.jpg" = fs ten_world !! "images/1.jpg".
Proof.
  assert (outside (output (run_args 3)) "images/1.jpg" = true) as Hout
    by (vm_compute; reflexivity).
  destruct (X8_outside_untouched json_stub pil_400x500 serialize_stub (run_args 3) no_swap
              ten_world ten_run.2 (Ok ()) ten_run_Ok) as [Hevents Hframe].
  split_and!; [exact ten_run_Ok | exact Hevents | exact Hout | exact (Hframe _ Hout)].
Defined.

Lemma Forall_of_forallb {A} (f : A → bool) (l : list A) :
  forallb f l = true → Forall (λ x, f x = true) l.
Proof.
  induction l as [|x l IH]; simpl; [constructor|].
  intros [Hx Hl]%andb_true_iff. constructor; [done | by apply IH].
Qed.

Lemma ten_entries_outside :
  Forall (λ e, entry_outside json_stub (run_args 3) ten_world e = true)
    (dir_entries (annotations_dir (run_args 3)) ten_world).
Proof. apply Forall_of_forallb. vm_compute. reflexivity. Qed.

(** The ten records of the run over the ten entries: for each entry, the
    two bytes of the scenario's image, to which the stand-in serializes the
    example of the scenario's annotation. *)
Lemma X9_records_from_entries_witness :
  ten_run = (Ok (), ten_run.2) ∧
  Forall (λ e, entry_outside json_stub (run_args 3) ten_world e = true)
    (dir_entries "annotations" ten_world) ∧
  Some <$> records_written (trace_since ten_world ten_run.2)
  = entry_record json_stub pil_400x500 serialize_stub (run_args 3) ten_world
      <$> random_shuffle no_swap (dir_entries "annotations" ten_world) ∧
  entry_record json_stub pil_400x500 serialize_stub (run_args 3) ten_world "0.json"
  = Some [Byte.xff; Byte.xd8].
Proof.
  split_and!; [exact ten_run_Ok | exact ten_entries_outside | | vm_compute; reflexivity].
  exact (X9_records_from_entries json_stub pil_400x500 serialize_stub (run_args 3) no_swap
           ten_world ten_run.2 ten_run_Ok ten_entries_outside).
Defined.


Lemma five_run_Ok : five_run = (Ok (), five_run.2).
Proof. vm_compute; reflexivity. Qed.

(** Ten entries, five shards: five shards of two. *)
Lemma X11_even_shards_witness :
  five_run = (Ok (), five_run.2) ∧ 0 < num_shards (run_args 5) ∧
  length (dir_entries "annotations" ten_world) = (2 * Z.to_nat 5)%nat ∧
  shard_sizes ten_world five_run.2 = [2; 2; 2; 2; 2]%nat.
Proof.
  assert (0 < num_shards (run_args 5)) as HS by (vm_compute; reflexivity).
  assert (length (dir_entries (annotations_dir (run_args 5)) ten_world)
          = (2 * Z.to_nat (num_shards (run_args 5)))%nat) as HN
    by (cbn [annotations_dir run_args]; rewrite ten_entries; reflexivity).
  split_and!; [exact five_run_Ok | exact HS | exact HN |].
  exact (X11_even_shards json_stub pil_400x500 serialize_stub (run_args 5) no_swap
           ten_world five_run.2 2 five_run_Ok HS ltac:(lia) HN).
Defined.




(** The three shards of the run over the ten entries, one after the
    other. *)
Lemma X13_shards_concatenate_witness :
  ten_run = (Ok (), ten_run.2) ∧ 0 < num_shards (run_args 3) ∧
  mjoin ((λ p, file_chunks (fs ten_run.2 !! p)) <$> opened (trace_since ten_world ten_run.2))
  = records_written (trace_since ten_world ten_run.2).
Proof.
  assert (0 < num_shards (run_args 3)) as HS by (vm_compute; reflexivity).
  split_and!; [exact ten_run_Ok | exact HS |].
  exact (X13_shards_concatenate json_stub pil_400x500 serialize_stub (run_args 3) no_swap
           ten_world ten_run.2 ten_run_Ok HS).
Defined.

Lemma negative_run_Ok : negative_run = (Ok (), negative_run.2).
Proof. vm_compute; reflexivity. Qed.

(** Ten entries and num_shards = -2: one file with ten records. *)
Lemma X14_negative_shards_witness :
  negative_run = (Ok (), negative_run.2) ∧ num_shards (run_args (-2)) < 0 ∧
  (1 ≤ length (dir_entries "annotations" ten_world))%nat ∧
  absent_is_empty "out" ten_world ∧
  opened (trace_since ten_world negative_run.2) = ["out/shard-0000.tfrecords"] ∧
  length (records_written (trace_since ten_world negative_run.2)) = 10%nat ∧
  dir_entries "out" negative_run.2 = ["shard-0000.tfrecords"].
Proof.
  assert (num_shards (run_args (-2)) < 0) as HS by (vm_compute; reflexivity).
  assert (1 ≤ length (dir_entries (annotations_dir (run_args (-2))) ten_world))%nat as HN
    by (cbn [annotations_dir run_args]; rewrite ten_entries; lia).
  destruct (X14_negative_shards json_stub pil_400x500 serialize_stub (run_args (-2))
              no_swap ten_world negative_run.2 negative_run_Ok HS HN ten_world_out)
    as (Hopened & _ & Hlen & _ & Hentries).
  cbn [annotations_dir run_args] in Hlen. rewrite ten_entries in Hlen.
  split_and!; [exact negative_run_Ok | exact HS | exact HN | exact ten_world_out
              | exact Hopened | exact Hlen | exact Hentries].
Defined.

(** The record of the scenario's annotation holds the two bytes of the
    image file. *)
Lemma X15_accepted_record_witness :
  scenario_run = (Ok (result_value ∅ scenario_run.1), scenario_run.2) ∧
  result_value ∅ scenario_run.1 !! "image" = Some (BytesList [[Byte.xff; Byte.xd8]]) ∧
  dom (result_value ∅ scenario_run.1) = feature_keys.
Proof.
  assert (scenario_run = (Ok (result_value ∅ scenario_run.1), scenario_run.2)) as Hrun
    by (vm_compute; reflexivity).
  destruct (X15_accepted_record pil_400x500 scenario_annotation "images" images_world
              scenario_run.2 (result_value ∅ scenario_run.1) Hrun)
    as (chunks & image & Hfile & _ & _ & _ & _ & _ & _ & _ & Himage & Hdom).
  assert (chunks = [[Byte.xff; Byte.xd8]]) as Hchunks.
  { assert (fs images_world !! os_path_join "images" (ann_filename scenario_annotation)
            = Some (File [[Byte.xff; Byte.xd8]])) as Hfile' by (vm_compute; reflexivity).
    rewrite Hfile' in Hfile. by injection Hfile. }
  rewrite Hchunks in Himage.
  split_and!; [exact Hrun | exact Himage | exact Hdom].
Defined.

Lemma outside_checks_pass :
  image_checks_pass pil_400x500 outside_annotation "images" images_world
    [Byte.xff; Byte.xd8].
Proof.
  split; [reflexivity|]. split; [by exists [[Byte.xff; Byte.xd8]]|].
  split; [|done]. by eexists.
Qed.

(** The landmark (50, 100) has its y inside the box and its x left of
    it: the assertion of line 100 fails. The bounds are compared as floats:
    under ymax = 1.9999999999999998 on a height of 3 the landmark y = 2 is
    not outside, its quotient being the float that the bound's is. *)
Lemma X16_first_bad_landmark_witness :
  (ymin_of outside_annotation ≤ norm (qz 100) (height_of outside_annotation)
   ≤ ymax_of outside_annotation)%Qc ∧
  ¬ (xmin_of outside_annotation ≤ norm (qz 50) (width_of outside_annotation)
     ≤ xmax_of outside_annotation)%Qc ∧
  dict_to_tf_example pil_400x500 outside_annotation "images" images_world
  = (Raise (AssertionError 100), after_read outside_annotation "images" images_world) ∧
  norm (qz 2) (height_of rounded_bound_annotation) = ymax_of rounded_bound_annotation.
Proof.
  assert ((ymin_of outside_annotation < ymax_of outside_annotation)%Qc ∧
          (xmin_of outside_annotation < xmax_of outside_annotation)%Qc) as Hbox
    by (split; qc_compare).
  assert (ymin_of outside_annotation ≤ norm (qz 100) (height_of outside_annotation)
          ≤ ymax_of outside_annotation)%Qc as Hy by (split; qc_compare).
  assert (¬ (xmin_of outside_annotation ≤ norm (qz 50) (width_of outside_annotation)
             ≤ xmax_of outside_annotation)%Qc) as Hx
    by (intros [Hx _]; revert Hx; qc_compare).
  split; [exact Hy|]. split; [exact Hx|]. split.
  - exact (proj2 (proj2 (X16_first_bad_landmark pil_400x500 outside_annotation "images"
                           images_world [Byte.xff; Byte.xd8] [] [[qz 250; qz 100]]
                           [qz 50; qz 100] outside_checks_pass Hbox eq_refl
                           (Forall_nil_2 _)))
             (qz 50) (qz 100) eq_refl Hy Hx).
  - apply Qc_is_canon. vm_compute. reflexivity.
Defined.

(** A name that is not a JPEG name; a decoder that reports a PNG; a
    declared width that is not the decoded one. *)
Lemma X17_image_check_order_witness :
  dict_to_tf_example pil_400x500 png_annotation "images" images_world
  = (Raise (AssertionError 71), images_world) ∧
  dict_to_tf_example pil_png scenario_annotation "images" images_world
  = (Raise (AssertionError 80), after_read scenario_annotation "images" images_world) ∧
  dict_to_tf_example pil_400x500 resized_annotation "images" images_world
  = (Raise (AssertionError 86), after_read resized_annotation "images" images_world).
Proof.
  assert (fs images_world !! os_path_join "images" "1.jpg"
          = Some (File [[Byte.xff; Byte.xd8]])) as Hfile by (vm_compute; reflexivity).
  split_and!.
  - exact (proj1 (X17_image_check_order pil_400x500 png_annotation "images" images_world)
             eq_refl).
  - apply (proj1 (proj2 (proj2 (proj2 (X17_image_check_order pil_png scenario_annotation
                                         "images" images_world))
                                [[Byte.xff; Byte.xd8]] eq_refl Hfile) _ eq_refl)).
    vm_compute; discriminate.
  - apply (proj2 (proj2 (proj2 (proj2 (proj2 (proj2 (X17_image_check_order pil_400x500
                    resized_annotation "images" images_world))
                    [[Byte.xff; Byte.xd8]] eq_refl Hfile) _ eq_refl)))).
    + reflexivity.
    + reflexivity.
    + vm_compute; reflexivity.
    + vm_compute; reflexivity.
    + vm_compute; discriminate.
Defined.

(** Shards 1 and 2 of a directory. *)
Lemma X18_shard_paths_witness :
  1%nat ≠ 2%nat ∧
  parse_nat (format_04d 2) = Some 2%nat ∧
  shard_path "out" 1 ≠ shard_path "out" 2.
Proof.
  assert (1%nat ≠ 2%nat) as Hne by lia.
  destruct (X18_shard_paths "out" 1 2) as (Hparse & _ & Hpaths).
  split_and!; [exact Hne | exact Hparse | exact (Hpaths Hne)].
Defined.

Lemma subdir_setup_Ok : subdir_setup = (Ok (([] ++ "sub" :: [])%list, 1), subdir_setup.2).
Proof. vm_compute; reflexivity. Qed.

(** A directory among the annotations stops the run. *)
Lemma X19_unreadable_entry_witness :
  subdir_setup = (Ok (["sub"], 1), subdir_setup.2) ∧
  fs (before_validation (run_args 1) "sub" (LoopVars 0 0 None) subdir_setup.2)
    !! "annotations/sub" = Some Dir ∧
  main json_stub pil_400x500 serialize_stub (run_args 1) no_swap subdir_world
  = (Raise IsADirectoryError,
     before_validation (run_args 1) "sub" (LoopVars 0 0 None) subdir_setup.2).
Proof.
  assert (fs (before_validation (run_args 1) "sub" (LoopVars 0 0 None) subdir_setup.2)
            !! os_path_join (annotations_dir (run_args 1)) "sub" = Some Dir) as Hdir
    by (vm_compute; reflexivity).
  split; [exact subdir_setup_Ok|]. split; [exact Hdir|].
  exact (proj1 (X19_unreadable_entry json_stub pil_400x500 serialize_stub (run_args 1)
                  no_swap subdir_world subdir_setup.2 subdir_setup.2 [] [] "sub" 1
                  (LoopVars 0 0 None) subdir_setup_Ok eq_refl) Hdir).
Defined.
